(** * The formula engine of the spreadsheet: reference resolver and evaluator

    A shallow embedding of [formulaEngine.ts] (parseCellReference, parseRange,
    getCellValue, getCellText, evaluateFormula) together with the part of the
    JavaScript runtime these functions call.

    Conventions of the embedding:
    - strings are [string]; the model is exact on ASCII text (case mapping
      and white space are the ASCII ones), and the properties that read
      text through them assume ASCII text ([ascii_text]);
    - the numbers held in cells are IEEE-754 binary64 values ([spec_float]
      with 53 bits of precision), computed with the Standard Library's
      executable specification of the operations;
    - the integers that count columns, rows and list positions are [Z]
      (JavaScript keeps them in doubles, which are exact below 2^53, and
      its arrays hold fewer than 2^32 elements); the properties that
      depend on it assume safe integers ([safe_reference], [safe_range]),
      and the module [Double] has the resolver on the doubles themselves;
    - an exception is a value of [outcome]; [try_catch] is the [try] block;
    - what the runtime takes from its surroundings (the clock, the locale,
      [eval]) is a field of [Host]. *)

From Stdlib Require Import ZArith Ascii String List Bool Lia SpecFloat DecimalString DecimalPos.
From stdpp Require Import gmap strings list.
From Equations Require Import Equations.

Set Default Proof Using "Type".

(** ** Exceptions *)

Inductive exn : Type :=
| TypeError
| RangeError
| SyntaxError
| EvalError.

Inductive outcome (A : Type) : Type :=
| Ret (a : A)
| Throw (e : exn).
Arguments Ret {A} a.
Arguments Throw {A} e.

#[global] Instance outcome_ret : MRet outcome := @Ret.
#[global] Instance outcome_bind : MBind outcome := fun A B f m =>
  match m with
  | Ret a => f a
  | Throw e => Throw e
  end.

(** [try { body } catch (error) { handler }] *)
Definition try_catch {A} (body : outcome A) (handler : exn -> outcome A) : outcome A :=
  match body with
  | Ret a => Ret a
  | Throw e => handler e
  end.

(** ** Strings of the runtime *)

Module Str.

Definition is_upper (c : ascii) : bool :=
  let n := nat_of_ascii c in (65 <=? n) && (n <=? 90).
Definition is_lower (c : ascii) : bool :=
  let n := nat_of_ascii c in (97 <=? n) && (n <=? 122).
Definition is_digit (c : ascii) : bool :=
  let n := nat_of_ascii c in (48 <=? n) && (n <=? 57).
(** White space and line terminators, as [trim] and the class [\s] take them. *)
Definition is_space (c : ascii) : bool :=
  let n := nat_of_ascii c in ((9 <=? n) && (n <=? 13)) || (n =? 32).
(** A line terminator, which [.] does not match. *)
Definition is_newline (c : ascii) : bool :=
  let n := nat_of_ascii c in (n =? 10) || (n =? 13).

Definition upper_char (c : ascii) : ascii :=
  if is_lower c then ascii_of_nat (nat_of_ascii c - 32) else c.
Definition lower_char (c : ascii) : ascii :=
  if is_upper c then ascii_of_nat (nat_of_ascii c + 32) else c.

Fixpoint map (f : ascii -> ascii) (s : string) : string :=
  match s with
  | EmptyString => EmptyString
  | String c s' => String (f c) (map f s')
  end.

(** [toUpperCase] and [toLowerCase] on ASCII text: the letters a-z and A-Z
    change, every other character stays, and the length with it. (On other
    text the runtime maps every cased letter of Unicode and can lengthen
    the text.) *)
Definition toUpperCase : string -> string := map upper_char.
Definition toLowerCase : string -> string := map lower_char.

Fixpoint drop (n : nat) (s : string) : string :=
  match n, s with
  | S n', String _ s' => drop n' s'
  | _, _ => s
  end.

Fixpoint take (n : nat) (s : string) : string :=
  match n, s with
  | S n', String c s' => String c (take n' s')
  | _, _ => EmptyString
  end.

Fixpoint rev_onto (s acc : string) : string :=
  match s with
  | EmptyString => acc
  | String c s' => rev_onto s' (String c acc)
  end.
Definition rev (s : string) : string := rev_onto s EmptyString.

Fixpoint drop_while (p : ascii -> bool) (s : string) : string :=
  match s with
  | String c s' => if p c then drop_while p s' else s
  | EmptyString => EmptyString
  end.

(** [trim] on ASCII text: the white space is tab, line feed, vertical tab,
    form feed, carriage return and space. (The runtime also removes the
    white space of Unicode, such as U+00A0 and U+FEFF.) *)
Definition trimStart (s : string) : string := drop_while is_space s.
Definition trimEnd (s : string) : string := rev (drop_while is_space (rev s)).
Definition trim (s : string) : string := trimEnd (trimStart s).

Fixpoint startsWith (p s : string) : bool :=
  match p, s with
  | EmptyString, _ => true
  | String a p', String b s' => Ascii.eqb a b && startsWith p' s'
  | String _ _, EmptyString => false
  end.

Definition endsWith (p s : string) : bool := startsWith (rev p) (rev s).

(** [s.substring(n)] for 0 <= n *)
Definition substring_from (n : nat) (s : string) : string := drop n s.

(** [s.slice(n, -1)]: from index n up to, not including, the last character *)
Definition slice_to_last (n : nat) (s : string) : string :=
  take (String.length s - 1 - n) (drop n s).

(** [s.split(sep)] for a one-character separator: never the empty list *)
Fixpoint split (sep : ascii) (s : string) : list string :=
  match s with
  | EmptyString => [EmptyString]
  | String c s' =>
      if Ascii.eqb c sep then EmptyString :: split sep s'
      else match split sep s' with
           | piece :: rest => String c piece :: rest
           | [] => [String c EmptyString]
           end
  end.

(** [parts.join('')] *)
Definition join (parts : list string) : string :=
  fold_right String.append EmptyString parts.

(** [String.fromCharCode(n)] for a code below 256 *)
Definition fromCharCode (n : Z) : string :=
  String (ascii_of_nat (Z.to_nat n)) EmptyString.

Definition charCode (c : ascii) : Z := Z.of_nat (nat_of_ascii c).

(** An empty string is falsy. *)
Definition truthy (s : string) : bool :=
  match s with EmptyString => false | _ => true end.

End Str.

(** ** Regular expressions

    The fragment of the regular expressions of the runtime that the engine
    writes: literals, classes, greedy [+] and [*] on a class, capture
    groups, sequence, alternation and the anchors, matched by backtracking
    in the order the runtime tries the alternatives. *)

Module Regex.

Inductive regex : Type :=
| Bol                                     (* ^ *)
| Eol                                     (* $ *)
| Lit (text : string)                     (* literal characters *)
| Class (p : ascii -> bool)               (* one character of a class *)
| Many (least : nat) (p : ascii -> bool)  (* class* (least 0), class+ (least 1), greedy *)
| Group (r : regex)                       (* ( r ) *)
| Seq (r1 r2 : regex)
| Alt (r1 r2 : regex).

(** Length of the longest prefix of [s] made of characters of [p]. *)
Fixpoint run (p : ascii -> bool) (s : string) : nat :=
  match s with
  | String c s' => if p c then S (run p s') else 0
  | EmptyString => 0
  end.

(** Greedy choice: [n] characters first, then fewer, down to [least]. *)
Fixpoint greedy {A} (least n : nat) (attempt : nat -> option A) : option A :=
  if n <? least then None
  else match attempt n with
       | Some a => Some a
       | None => match n with
                 | O => None
                 | S n' => greedy least n' attempt
                 end
       end.

(** [rmatch r i s caps k]: match [r] at index [i], where [s] is what is
    left of the input, then continue with [k]; [caps] are the groups
    closed so far. *)
Fixpoint rmatch {A} (r : regex) (i : nat) (s : string) (caps : list string)
    (k : nat -> string -> list string -> option A) : option A :=
  match r with
  | Bol => if i =? 0 then k i s caps else None
  | Eol => match s with EmptyString => k i s caps | _ => None end
  | Lit text =>
      if Str.startsWith text s
      then k (i + String.length text) (Str.drop (String.length text) s) caps
      else None
  | Class p =>
      match s with
      | String c s' => if p c then k (S i) s' caps else None
      | EmptyString => None
      end
  | Many least p =>
      greedy least (run p s) (fun n => k (i + n) (Str.drop n s) caps)
  | Group r1 =>
      rmatch r1 i s caps (fun j s' caps' => k j s' (caps' ++ [Str.take (j - i) s]))
  | Seq r1 r2 =>
      rmatch r1 i s caps (fun j s' caps' => rmatch r2 j s' caps' k)
  | Alt r1 r2 =>
      match rmatch r1 i s caps k with
      | Some a => Some a
      | None => rmatch r2 i s caps k
      end
  end.

(** A match that starts at index [i]: the matched text, then the groups. *)
Definition match_at (r : regex) (i : nat) (s : string) : option (list string) :=
  rmatch r i s [] (fun j _ caps => Some (Str.take (j - i) s :: caps)).

Fixpoint search (r : regex) (i : nat) (s : string) : option (list string) :=
  match match_at r i s with
  | Some m => Some m
  | None => match s with
            | EmptyString => None
            | String _ s' => search r (S i) s'
            end
  end.

(** [s.match(r)] for a regular expression without the [g] flag: the
    leftmost match, [None] for [null]. *)
Definition exec (r : regex) (s : string) : option (list string) := search r 0 s.

(** [s.replace(r, '')] for a regular expression with the [g] flag: every
    match is deleted, left to right; [skip] counts the characters of the
    current match still to delete. *)
Fixpoint delete_go (r : regex) (i : nat) (s : string) (skip : nat) : string :=
  match s with
  | EmptyString => EmptyString
  | String c s' =>
      match skip with
      | S n => delete_go r (S i) s' n
      | O =>
          match match_at r i s with
          | Some (m :: _) =>
              match String.length m with
              | S n => delete_go r (S i) s' n
              | O => String c (delete_go r (S i) s' 0)
              end
          | _ => String c (delete_go r (S i) s' 0)
          end
      end
  end.

Definition delete_all (r : regex) (s : string) : string := delete_go r 0 s 0.

Definition any_char (c : ascii) : bool := negb (Str.is_newline c).
Definition one_of (set : string) (c : ascii) : bool :=
  existsb (Ascii.eqb c) (list_ascii_of_string set).

End Regex.

(** ** Integers of the runtime *)

Module Int.

Definition digit_of (c : ascii) : option Z :=
  if Str.is_digit c then Some (Str.charCode c - 48)%Z else None.

Definition hex_digit_of (c : ascii) : option Z :=
  let n := Str.charCode c in
  if Str.is_digit c then Some (n - 48)%Z
  else if ((65 <=? n) && (n <=? 70))%Z then Some (n - 55)%Z
  else if ((97 <=? n) && (n <=? 102))%Z then Some (n - 87)%Z
  else None.

(** The value of the longest prefix of digits, [None] when it is empty. *)
Fixpoint digits (digit : ascii -> option Z) (radix : Z) (s : string) (acc : option Z)
    : option Z :=
  match s with
  | EmptyString => acc
  | String c s' =>
      match digit c with
      | Some d => digits digit radix s' (Some (default 0 acc * radix + d)%Z)
      | None => acc
      end
  end.

(** [parseInt(s)] without a radix: leading white space, a sign, [0x] or
    [0X] for base sixteen, then the longest prefix of digits; [None] is
    NaN. *)
Definition parseInt (s : string) : option Z :=
  let s := Str.trimStart s in
  let '(negative, s) :=
    match s with
    | String "-" s' => (true, s')
    | String "+" s' => (false, s')
    | _ => (false, s)
    end in
  let magnitude :=
    if Str.startsWith "0x" s || Str.startsWith "0X" s
    then digits hex_digit_of 16 (Str.drop 2 s) None
    else digits digit_of 10 s None in
  (fun n => if negative then (- n)%Z else n) <$> magnitude.

(** The decimal digits of an integer, as [toString] and a template
    literal print it. *)
Definition toString (n : Z) : string := NilZero.string_of_int (Z.to_int n).

End Int.

(** ** The reference resolver *)

Record CellRef : Type := { col : Z; row : Z }.

(** [/^([A-Z]+)(\d+)$/] *)
Definition cell_ref_re : Regex.regex :=
  Regex.Seq Regex.Bol
    (Regex.Seq (Regex.Group (Regex.Many 1 Str.is_upper))
       (Regex.Seq (Regex.Group (Regex.Many 1 Str.is_digit)) Regex.Eol)).

(** [for (let i = 0; i < colStr.length; i++) col = col * 26 + (colStr.charCodeAt(i) - 64)],
    on exact integers: what the code computes while [col] is a safe
    integer, as for every label of at most eleven letters
    ([Double.column_loop] rounds as the code does beyond). *)
Fixpoint column_loop (colStr : string) (col : Z) : Z :=
  match colStr with
  | EmptyString => col
  | String c rest => column_loop rest (col * 26 + (Str.charCode c - 64))%Z
  end.

(** [rowStr] is a run of digits, so [parseInt] gives a number there and the
    default is not reached (lemma [parseCellReference_row]). Column and
    row are exact integers: what the code computes while they are safe
    integers ([safe_reference]; [Double.parseCellReference] rounds as the
    code does beyond). *)
Definition parseCellReference (ref : string) : option CellRef :=
  match Regex.exec cell_ref_re ref with
  | None => None
  | Some m =>
      let colStr := nth 1 m EmptyString in
      let rowStr := nth 2 m EmptyString in
      let col := column_loop colStr 0 in
      let col := (col - 1)%Z in
      let row := (default 0 (Int.parseInt rowStr) - 1)%Z in
      Some {| col := col; row := row |}
  end.

(** The loop that writes a column label, as [parseRange] has it inline and
    as [getColumnLabel] has it in the grid and in the import and export
    code:
    [while (num >= 0) { label = String.fromCharCode(65 + (num % 26)) + label;
                        num = Math.floor(num / 26) - 1; }]
    on exact integers, as the code computes on a safe integer
    ([Double.label_loop] has it on doubles). *)
Equations? label_loop (num : Z) (label : string) : string
    by wf (Z.to_nat (num + 1)) lt :=
  label_loop num label with Z_lt_dec num 0 := {
    | left _ => label
    | right _ =>
        label_loop (num / 26 - 1)
          (Str.fromCharCode (65 + Z.rem num 26) +:+ label) }.
Proof.
  assert (num / 26 <= num)%Z by (apply Z.div_le_upper_bound; lia).
  lia.
Qed.

Definition getColumnLabel (index : Z) : string := label_loop index EmptyString.

(** [for (let i = from; i <= to; i++) state = body(i, state)]: [n] counts
    the iterations that are left. The counter is an exact integer; the
    loop of the code is this one while [to + 1] is a safe integer (from
    2^53 on, [i++] leaves [i] as it is and the loop of the code does not
    end: [Double.row_loop]). *)
Fixpoint for_loop {S} (n : nat) (i : Z) (body : Z -> S -> S) (state : S) : S :=
  match n with
  | O => state
  | S n' => for_loop n' (i + 1)%Z body (body i state)
  end.

Definition for_upto {S} (from to : Z) (body : Z -> S -> S) (state : S) : S :=
  for_loop (Z.to_nat (to - from + 1)) from body state.

(** [range.split(':')] destructured into [start] and [end]; a missing part
    is [undefined], which is falsy like the empty string. The list is what
    the code returns for a safe range ([safe_range]): corners that are safe
    integers and fewer than 2^32 cells, the longest array
    ([Double.parseRange] has the loops on doubles and the array). *)
Definition parseRange (range : string) : list string :=
  let parts := Str.split ":" range in
  match parts !! 0%nat, parts !! 1%nat with
  | Some start, Some end_ =>
      if negb (Str.truthy start) || negb (Str.truthy end_) then []
      else
        match parseCellReference start, parseCellReference end_ with
        | Some startRef, Some endRef =>
            for_upto (row startRef) (row endRef) (fun row cells =>
              for_upto (col startRef) (col endRef) (fun col cells =>
                cells ++ [getColumnLabel col +:+ Int.toString (row + 1)])
                cells)
              []
        | _, _ => []
        end
  | _, _ => []
  end.


(** ** Numbers of the runtime: IEEE-754 binary64 *)

Module Num.

Definition number : Type := spec_float.

Definition prec : Z := 53.
Definition emax : Z := 1024.

Definition NaN : number := S754_nan.
Definition zero : number := S754_zero false.
Definition infinity (negative : bool) : number := S754_infinity negative.

Definition isNaN (x : number) : bool :=
  match x with S754_nan => true | _ => false end.

Definition add : number -> number -> number := SFadd prec emax.
Definition div : number -> number -> number := SFdiv prec emax.
Definition ltb : number -> number -> bool := SFltb.
Definition leb : number -> number -> bool := SFleb.
(** [x === y] on numbers: NaN differs from itself, the two zeros are equal *)
Definition eqb : number -> number -> bool := SFeqb.

(** The double nearest to [n * 10^e10], ties to even; [negative] is the
    sign, kept on a zero. *)
Definition of_decimal (negative : bool) (n : Z) (e10 : Z) : number :=
  match n with
  | Zpos p =>
      if (0 <=? e10)%Z
      then binary_normalize prec emax
             (if negative then (- (n * 10 ^ e10))%Z else (n * 10 ^ e10)%Z) 0 negative
      else SFdiv prec emax (S754_finite negative p 0)
             (S754_finite false (Z.to_pos (10 ^ (- e10))) 0)
  | _ => S754_zero negative
  end.

Definition of_Z (n : Z) : number :=
  of_decimal (n <? 0)%Z (Z.abs n) 0.

(** *** parseFloat *)

Definition digits_value (s : string) : Z :=
  default 0%Z (Int.digits Int.digit_of 10 s None).

(** The exponent part [e], [E] with an optional sign and digits, when it
    is complete; otherwise it is not part of the literal. *)
Definition exponent_part (s : string) : Z :=
  match s with
  | String c s' =>
      if Ascii.eqb c "e" || Ascii.eqb c "E" then
        let '(negative, ds) :=
          match s' with
          | String "-" t => (true, t)
          | String "+" t => (false, t)
          | _ => (false, s')
          end in
        match Int.digits Int.digit_of 10 ds None with
        | Some v => if negative then (- v)%Z else v
        | None => 0%Z
        end
      else 0%Z
  | EmptyString => 0%Z
  end.

(** [parseFloat(s)]: leading white space is skipped, then the longest
    prefix that is a decimal literal is read; NaN when there is none. *)
Definition parseFloat (s : string) : number :=
  let s := Str.trimStart s in
  let '(negative, s) :=
    match s with
    | String "-" s' => (true, s')
    | String "+" s' => (false, s')
    | _ => (false, s)
    end in
  if Str.startsWith "Infinity" s then infinity negative
  else
    let ni := Regex.run Str.is_digit s in
    let int_digits := Str.take ni s in
    let s := Str.drop ni s in
    let '(frac_digits, s) :=
      match s with
      | String "." s' =>
          let nf := Regex.run Str.is_digit s' in
          (Str.take nf s', Str.drop nf s')
      | _ => (EmptyString, s)
      end in
    if (String.length int_digits + String.length frac_digits =? 0)%nat then NaN
    else
      of_decimal negative
        (digits_value (int_digits +:+ frac_digits))
        (exponent_part s - Z.of_nat (String.length frac_digits)).

(** *** Number.prototype.toString *)

(** [10^(n-1) <= p/q] *)
Definition pow10_le (n : Z) (p q : Z) : bool :=
  if (1 <=? n)%Z then (10 ^ (n - 1) * q <=? p)%Z else (q <=? p * 10 ^ (1 - n))%Z.

(** The [n] with [10^(n-1) <= p/q < 10^n], for positive [p] and [q]. *)
Definition decimal_exponent (p q : Z) : Z :=
  let est := ((Z.log2 p - Z.log2 q) * 30103 / 100000)%Z in
  default (est - 3)%Z
    (List.find (fun n => pow10_le n p q)
       (List.map (fun d => (est + 3 - d)%Z) [0; 1; 2; 3; 4; 5]%Z)).

(** [floor (p/q / 10^j)] *)
Definition scaled_floor (p q j : Z) : Z :=
  if (0 <=? j)%Z then (p / (q * 10 ^ j))%Z else (p * 10 ^ (- j) / q)%Z.

(** [compare |s * 10^j - p/q| |s' * 10^j - p/q|] for [s * 10^j <= p/q <= s' * 10^j] *)
Definition nearer (p q j s s' : Z) : comparison :=
  if (0 <=? j)%Z
  then (p - s * 10 ^ j * q ?= s' * 10 ^ j * q - p)%Z
  else (p * 10 ^ (- j) - s * q ?= s' * q - p * 10 ^ (- j))%Z.

(** The digits [s] and the exponent [n] of the shortest decimal with [k]
    digits that reads back as the double [x = p/q], if one exists. *)
Definition shortest_at (x : number) (p q n0 k : Z) : option (Z * Z) :=
  let lo := scaled_floor p q (n0 - k) in
  let hi := (lo + 1)%Z in
  let back s := SFeqb (of_decimal false s (n0 - k)) x in
  let norm s := if (s =? 10 ^ k)%Z then (10 ^ (k - 1), n0 + 1)%Z else (s, n0) in
  match back lo && (0 <? lo)%Z, back hi with
  | true, true =>
      match nearer p q (n0 - k) lo hi with
      | Lt => Some (lo, n0)
      | Gt => Some (norm hi)
      | Eq => Some (if Z.even lo then (lo, n0) else norm hi)
      end
  | true, false => Some (lo, n0)
  | false, true => Some (norm hi)
  | false, false => None
  end.

Fixpoint shortest (x : number) (p q n0 : Z) (k : Z) (fuel : nat) : Z * Z * Z :=
  match fuel with
  | O => (k, scaled_floor p q (n0 - k), n0)
  | S fuel' =>
      match shortest_at x p q n0 k with
      | Some (s, n) => (k, s, n)
      | None => shortest x p q n0 (k + 1) fuel'
      end
  end.

Definition zeros (n : Z) : string :=
  string_of_list_ascii (List.repeat "0"%char (Z.to_nat n)).

Definition exponent_text (n : Z) : string :=
  (if (n <? 0)%Z then "e-" else "e+") +:+ Int.toString (Z.abs n).

Definition format_digits (k s n : Z) : string :=
  let ds := Int.toString s in
  if ((k <=? n) && (n <=? 21))%Z then ds +:+ zeros (n - k)
  else if ((0 <? n) && (n <=? 21))%Z then
    Str.take (Z.to_nat n) ds +:+ "." +:+ Str.drop (Z.to_nat n) ds
  else if ((-6 <? n) && (n <=? 0))%Z then "0." +:+ zeros (- n) +:+ ds
  else if (k =? 1)%Z then ds +:+ exponent_text (n - 1)
  else Str.take 1 ds +:+ "." +:+ Str.drop 1 ds +:+ exponent_text (n - 1).

(** The value of a finite double as a fraction [p/q]. *)
Definition fraction_of (m : positive) (e : Z) : Z * Z :=
  if (0 <=? e)%Z then (Zpos m * 2 ^ e, 1)%Z else (Zpos m, 2 ^ (- e))%Z.

Definition toString (x : number) : string :=
  match x with
  | S754_nan => "NaN"
  | S754_zero _ => "0"
  | S754_infinity negative => if negative then "-Infinity" else "Infinity"
  | S754_finite negative m e =>
      let '(p, q) := fraction_of m e in
      let '(k, s, n) :=
        shortest (S754_finite false m e) p q (decimal_exponent p q) 1 17 in
      (if negative then "-" else "") +:+ format_digits k s n
  end.

(** *** Number.prototype.toFixed *)

Definition toFixed (x : number) (fractionDigits : Z) : outcome string :=
  if ((fractionDigits <? 0) || (100 <? fractionDigits))%Z then Throw RangeError
  else
    match x with
    | S754_finite negative m e =>
        let '(p, q) := fraction_of m e in
        if (10 ^ 21 * q <=? p)%Z then Ret (toString x)
        else
          let f := fractionDigits in
          let n := ((2 * p * 10 ^ f + q) / (2 * q))%Z in
          let ds := Int.toString n in
          let k := Z.of_nat (String.length ds) in
          let ds := if (k <=? f)%Z then zeros (f + 1 - k) +:+ ds else ds in
          let k := Z.of_nat (String.length ds) in
          let body :=
            if (f =? 0)%Z then ds
            else Str.take (Z.to_nat (k - f)) ds +:+ "." +:+ Str.drop (Z.to_nat (k - f)) ds in
          Ret ((if negative then "-" else "") +:+ body)
    | S754_zero _ =>
        Ret (if (fractionDigits =? 0)%Z then "0" else "0." +:+ zeros fractionDigits)
    | _ => Ret (toString x)
    end.

(** *** Math.min and Math.max

    [Math.min(...values)] and [Math.max(...values)] as folds over the
    list: what the call returns when the engine accepts that many
    arguments ([max_spread_arguments]; beyond its limit an engine throws
    RangeError, which [evaluateFormula] returns as #ERROR!). *)

Definition is_negative_zero (x : number) : bool :=
  match x with S754_zero true => true | _ => false end.
Definition is_positive_zero (x : number) : bool :=
  match x with S754_zero false => true | _ => false end.

Definition min2 (a b : number) : number :=
  if isNaN a || isNaN b then NaN
  else if ltb b a then b
  else if ltb a b then a
  else if is_negative_zero b then b else a.

Definition max2 (a b : number) : number :=
  if isNaN a || isNaN b then NaN
  else if ltb a b then b
  else if ltb b a then a
  else if is_positive_zero b then b else a.

Definition min (values : list number) : number := fold_left min2 values (infinity false).
Definition max (values : list number) : number := fold_left max2 values (infinity true).

End Num.

(** ** What the runtime takes from its surroundings *)

Record Host : Type := {
  (** [eval(source).toString()]: a string, or an exception *)
  host_eval : string -> outcome string;
  (** the clock that [new Date()] reads, in milliseconds since the epoch *)
  host_now : Z;
  (** [date.toLocaleDateString()] and [date.toLocaleString()] in the locale
      and time zone of the host *)
  host_toLocaleDateString : Z -> string;
  host_toLocaleString : Z -> string }.

(** ** The cell store *)

Record CellData : Type := {
  value : string;
  formula : option string;
  displayValue : option string }.

(** [cellData.displayValue || cellData.value] *)
Definition effective_text (cellData : CellData) : string :=
  match displayValue cellData with
  | Some shown => if Str.truthy shown then shown else value cellData
  | None => value cellData
  end.

Definition getCellValue (cellId : string) (cells : gmap string CellData) : Num.number :=
  match cells !! cellId with
  | None => Num.zero
  | Some cellData =>
      let num := Num.parseFloat (effective_text cellData) in
      if Num.isNaN num then Num.zero else num
  end.

Definition getCellText (cellId : string) (cells : gmap string CellData) : string :=
  match cells !! cellId with
  | None => EmptyString
  | Some cellData => effective_text cellData
  end.

(** ** The evaluator *)

Declare Scope regex_scope.
Delimit Scope regex_scope with regex.
Infix "+>" := Regex.Seq (at level 60, right associativity) : regex_scope.

(** The double quote (code 34) or the single quote. *)
Definition is_quote (c : ascii) : bool := Ascii.eqb c "034" || Ascii.eqb c "'".

(** [/^[\x22']|[\x22']$/g], the double quote written as [\x22] here *)
Definition quotes_re : Regex.regex :=
  (Regex.Alt (Regex.Bol +> Regex.Class is_quote) (Regex.Class is_quote +> Regex.Eol))%regex.

(** [text.replace(quotes_re, '')] *)
Definition strip_quotes (text : string) : string := Regex.delete_all quotes_re text.

(** [/^IF\((.+),(.+),(.+)\)$/] *)
Definition if_re : Regex.regex :=
  (Regex.Bol +> Regex.Lit "IF(" +>
   Regex.Group (Regex.Many 1 Regex.any_char) +> Regex.Lit "," +>
   Regex.Group (Regex.Many 1 Regex.any_char) +> Regex.Lit "," +>
   Regex.Group (Regex.Many 1 Regex.any_char) +> Regex.Lit ")" +> Regex.Eol)%regex.

Definition is_upper_or_digit (c : ascii) : bool := Str.is_upper c || Str.is_digit c.

(** [/([A-Z0-9]+)\s*([><=!]+)\s*(.+)/] *)
Definition comparison_re : Regex.regex :=
  (Regex.Group (Regex.Many 1 is_upper_or_digit) +> Regex.Many 0 Str.is_space +>
   Regex.Group (Regex.Many 1 (Regex.one_of "><=!")) +> Regex.Many 0 Str.is_space +>
   Regex.Group (Regex.Many 1 Regex.any_char))%regex.

Definition is_range_char (c : ascii) : bool := is_upper_or_digit c || Ascii.eqb c ":".

(** [/^VLOOKUP\((.+),([A-Z0-9:]+),(\d+),(.+)\)$/] *)
Definition vlookup_re : Regex.regex :=
  (Regex.Bol +> Regex.Lit "VLOOKUP(" +>
   Regex.Group (Regex.Many 1 Regex.any_char) +> Regex.Lit "," +>
   Regex.Group (Regex.Many 1 is_range_char) +> Regex.Lit "," +>
   Regex.Group (Regex.Many 1 Str.is_digit) +> Regex.Lit "," +>
   Regex.Group (Regex.Many 1 Regex.any_char) +> Regex.Lit ")" +> Regex.Eol)%regex.

Definition is_arithmetic_char (c : ascii) : bool :=
  Str.is_digit c || Regex.one_of "+-*/()." c.

(** [/[^0-9+\-*/().]/g] *)
Definition not_arithmetic_re : Regex.regex :=
  Regex.Class (fun c => negb (is_arithmetic_char c)).

(** [expression.startsWith(name + '(') && expression.endsWith(')')] *)
Definition is_call (name : string) (expression : string) : bool :=
  Str.startsWith (name +:+ "(") expression && Str.endsWith ")" expression.

(** [expression.slice(name.length + 1, -1)] *)
Definition call_argument (name : string) (expression : string) : string :=
  Str.slice_to_last (String.length name + 1) expression.

(** [cellIds.reduce((acc, cellId) => acc + getCellValue(cellId, cells), 0)] *)
Definition sum_of (cellIds : list string) (cells : gmap string CellData) : Num.number :=
  fold_left (fun acc cellId => Num.add acc (getCellValue cellId cells)) cellIds Num.zero.

(** An argument of a text function: the text of the cell when it is a
    reference, the literal without its quotes otherwise. *)
Definition text_argument (arg : string) (cells : gmap string CellData) : string :=
  match parseCellReference arg with
  | Some _ => getCellText arg cells
  | None => strip_quotes arg
  end.

(** [array[index]]: [undefined] outside the array, and at NaN. *)
Definition at_index {A} (array : list A) (index : option Z) : option A :=
  match index with
  | Some i => if (i <? 0)%Z then None else array !! Z.to_nat i
  | None => None
  end.

(** [getCellText(array[index], cells)]: the store has no entry for [undefined]. *)
Definition getCellTextAt (cellIds : list string) (index : option Z)
    (cells : gmap string CellData) : string :=
  match at_index cellIds index with
  | Some cellId => getCellText cellId cells
  | None => EmptyString
  end.

(** [for (let i = from; i < from + n; i++) { ... return ... }]: the first
    iteration that returns ends the loop. *)
Fixpoint for_return {R} (n : nat) (i : Z) (body : Z -> option R) : option R :=
  match n with
  | O => None
  | S n' =>
      match body i with
      | Some r => Some r
      | None => for_return n' (i + 1)%Z body
      end
  end.

(** The operators of the [switch]; any other operator leaves [result] false. *)
Definition compare_by (operator : string) (cellValue compareValue : Num.number) : bool :=
  if String.eqb operator ">" then Num.ltb compareValue cellValue
  else if String.eqb operator "<" then Num.ltb cellValue compareValue
  else if String.eqb operator ">=" then Num.leb compareValue cellValue
  else if String.eqb operator "<=" then Num.leb cellValue compareValue
  else if String.eqb operator "==" || String.eqb operator "=" then Num.eqb cellValue compareValue
  else if String.eqb operator "!=" then negb (Num.eqb cellValue compareValue)
  else false.

(** [parseCellReference(parts[i])]: on [undefined], [ref.match] is a TypeError. *)
Definition parseCellReference_of (part : option string) : outcome (option CellRef) :=
  match part with
  | Some ref => Ret (parseCellReference ref)
  | None => Throw TypeError
  end.

Definition vlookup (vlookupMatch : list string) (cells : gmap string CellData)
    : outcome string :=
  let lookupValue := strip_quotes (Str.trim (nth 1 vlookupMatch EmptyString)) in
  let tableRange := nth 2 vlookupMatch EmptyString in
  let columnIndex := Int.parseInt (nth 3 vlookupMatch EmptyString) in
  let cellIds := parseRange tableRange in
  if (length cellIds =? 0)%nat then Ret "#N/A"
  else
    startRef ← parseCellReference_of (Str.split ":" tableRange !! 0%nat);
    endRef ← parseCellReference_of (Str.split ":" tableRange !! 1%nat);
    match startRef, endRef with
    | Some startRef, Some endRef =>
        let numCols := (col endRef - col startRef + 1)%Z in
        let numRows := (Z.of_nat (length cellIds) / numCols)%Z in
        let found :=
          for_return (Z.to_nat numRows) 0 (fun row =>
            let cellValue := getCellTextAt cellIds (Some (row * numCols)%Z) cells in
            if String.eqb cellValue lookupValue
            then Some (getCellTextAt cellIds
                         ((fun k => row * numCols + k - 1)%Z <$> columnIndex) cells)
            else None) in
        Ret (default "#N/A" found)
    | _, _ => Ret "#N/A"
    end.

(** From the VLOOKUP test to the end of the [try] block. *)
Definition evaluate_rest (h : Host) (expression : string) (cells : gmap string CellData)
    : outcome string :=
  match Regex.exec vlookup_re expression with
  | Some vlookupMatch => vlookup vlookupMatch cells
  | None =>
      match parseCellReference expression with
      | Some _ => Ret (Num.toString (getCellValue expression cells))
      | None =>
          let sanitized := Regex.delete_all not_arithmetic_re expression in
          if Str.truthy sanitized then host_eval h sanitized
          else Ret "#NAME?"
      end
  end.

(** The body of the [try] block. *)
Definition evaluate_body (h : Host) (expression : string) (cells : gmap string CellData)
    : outcome string :=
  if is_call "SUM" expression then
    let cellIds := parseRange (call_argument "SUM" expression) in
    Ret (Num.toString (sum_of cellIds cells))
  else if is_call "AVERAGE" expression then
    let cellIds := parseRange (call_argument "AVERAGE" expression) in
    if (length cellIds =? 0)%nat then Ret "0"
    else Ret (Num.toString (Num.div (sum_of cellIds cells) (Num.of_Z (Z.of_nat (length cellIds)))))
  else if is_call "MIN" expression then
    let cellIds := parseRange (call_argument "MIN" expression) in
    if (length cellIds =? 0)%nat then Ret "0"
    else Ret (Num.toString (Num.min (List.map (fun cellId => getCellValue cellId cells) cellIds)))
  else if is_call "MAX" expression then
    let cellIds := parseRange (call_argument "MAX" expression) in
    if (length cellIds =? 0)%nat then Ret "0"
    else Ret (Num.toString (Num.max (List.map (fun cellId => getCellValue cellId cells) cellIds)))
  else if is_call "COUNT" expression then
    let cellIds := parseRange (call_argument "COUNT" expression) in
    Ret (Int.toString (Z.of_nat (length
      (List.filter (fun cellId =>
         let val := getCellText cellId cells in
         Str.truthy val && negb (Num.isNaN (Num.parseFloat val))) cellIds))))
  else if is_call "COUNTA" expression then
    let cellIds := parseRange (call_argument "COUNTA" expression) in
    Ret (Int.toString (Z.of_nat (length
      (List.filter (fun cellId => Str.truthy (getCellText cellId cells)) cellIds))))
  else if is_call "ROUND" expression then
    let args := Str.split "," (call_argument "ROUND" expression) in
    if negb (length args =? 2)%nat then Ret "#VALUE!"
    else
      let value := Num.parseFloat (nth 0 args EmptyString) in
      match Int.parseInt (nth 1 args EmptyString) with
      | None => Ret "#VALUE!"
      | Some decimals =>
          if Num.isNaN value then Ret "#VALUE!"
          else Num.toFixed value decimals
      end
  else if is_call "CONCAT" expression then
    let args := Str.split "," (call_argument "CONCAT" expression) in
    Ret (Str.join (List.map (fun arg => text_argument (Str.trim arg) cells) args))
  else if is_call "LEN" expression then
    let arg := Str.trim (call_argument "LEN" expression) in
    Ret (Int.toString (Z.of_nat (String.length (text_argument arg cells))))
  else if is_call "UPPER" expression then
    let arg := Str.trim (call_argument "UPPER" expression) in
    Ret (Str.toUpperCase (text_argument arg cells))
  else if is_call "LOWER" expression then
    let arg := Str.trim (call_argument "LOWER" expression) in
    Ret (Str.toLowerCase (text_argument arg cells))
  else if String.eqb expression "TODAY()" then
    Ret (host_toLocaleDateString h (host_now h))
  else if String.eqb expression "NOW()" then
    Ret (host_toLocaleString h (host_now h))
  else
    match Regex.exec if_re expression with
    | Some ifMatch =>
        let condition := Str.trim (nth 1 ifMatch EmptyString) in
        let trueValue := Str.trim (nth 2 ifMatch EmptyString) in
        let falseValue := Str.trim (nth 3 ifMatch EmptyString) in
        match Regex.exec comparison_re condition with
        | Some compMatch =>
            let cellRef := nth 1 compMatch EmptyString in
            let operator := nth 2 compMatch EmptyString in
            let compareValue := Num.parseFloat (nth 3 compMatch EmptyString) in
            let cellValue := getCellValue cellRef cells in
            let result := compare_by operator cellValue compareValue in
            Ret (if result then strip_quotes trueValue else strip_quotes falseValue)
        | None => evaluate_rest h expression cells
        end
    | None => evaluate_rest h expression cells
    end.

(** [formula.substring(1).trim().toUpperCase()] *)
Definition expression_of (formula : string) : string :=
  Str.toUpperCase (Str.trim (Str.substring_from 1 formula)).

Definition evaluateFormula (h : Host) (formula currentCellId : string)
    (cells : gmap string CellData) : outcome string :=
  if negb (Str.startsWith "=" formula) then Ret formula
  else
    let expression := expression_of formula in
    try_catch (evaluate_body h expression cells) (fun error => Ret "#ERROR!").

(** ** A host: the locale en-US in the time zone UTC, under a content
    security policy that refuses [eval] *)

Module ReferenceHost.

(** Year, month and day of a day number counted from 1970-01-01, in the
    proleptic Gregorian calendar. *)
Definition civil_from_days (days : Z) : Z * Z * Z :=
  let z := (days + 719468)%Z in
  let era := (z / 146097)%Z in
  let doe := (z - era * 146097)%Z in
  let yoe := ((doe - doe / 1460 + doe / 36524 - doe / 146096) / 365)%Z in
  let y := (yoe + era * 400)%Z in
  let doy := (doe - (365 * yoe + yoe / 4 - yoe / 100))%Z in
  let mp := ((5 * doy + 2) / 153)%Z in
  let d := (doy - (153 * mp + 2) / 5 + 1)%Z in
  let m := (if (mp <? 10)%Z then mp + 3 else mp - 9)%Z in
  ((if (m <=? 2)%Z then y + 1 else y)%Z, m, d).

Definition two_digits (n : Z) : string :=
  (if (n <? 10)%Z then "0" else "") +:+ Int.toString n.

(** month/day/year *)
Definition toLocaleDateString (ms : Z) : string :=
  let '(y, m, d) := civil_from_days (ms / 86400000) in
  Int.toString m +:+ "/" +:+ Int.toString d +:+ "/" +:+ Int.toString y.

(** month/day/year, hour:minute:second AM or PM *)
Definition toLocaleString (ms : Z) : string :=
  let secs := ((ms mod 86400000) / 1000)%Z in
  let hour := (secs / 3600)%Z in
  let hour12 := (if (hour mod 12 =? 0)%Z then 12 else hour mod 12)%Z in
  toLocaleDateString ms +:+ ", " +:+ Int.toString hour12 +:+ ":" +:+
  two_digits ((secs / 60) mod 60) +:+ ":" +:+ two_digits (secs mod 60) +:+
  (if (hour <? 12)%Z then " AM" else " PM").

Definition at_time (ms : Z) : Host := {|
  host_eval := fun _ => Throw EvalError;
  host_now := ms;
  host_toLocaleDateString := toLocaleDateString;
  host_toLocaleString := toLocaleString |}.

End ReferenceHost.

(** ** Notions the properties are stated with *)

(** Every character of [s] is of the class [p]. *)
Fixpoint all (p : ascii -> bool) (s : string) : bool :=
  match s with
  | EmptyString => true
  | String c s' => p c && all p s'
  end.

(** [/^([A-Z]+)(\d+)$/] in closed form: the longest run of capital
    letters, then digits up to the end, both non-empty. *)
Definition cell_ref_shape (s : string) : bool :=
  let n := Regex.run Str.is_upper s in
  let t := Str.drop n s in
  (1 <=? n) && (1 <=? String.length t) && (Regex.run Str.is_digit t =? String.length t).

(** [/^[A-Z]+[0-9]+$/] as a property of the string: capital letters, then
    digits, at least one of each, and nothing else. *)
Definition cell_pattern (s : string) : Prop :=
  exists letters digits,
    s = letters +:+ digits /\
    letters <> EmptyString /\ digits <> EmptyString /\
    all Str.is_upper letters = true /\ all Str.is_digit digits = true.

(** The key of the cell in column [c] and row [r], both counted from zero. *)
Definition cell_id (c r : Z) : string := getColumnLabel c +:+ Int.toString (r + 1).

(** The cells from the corner [a] to the corner [b], rows outer, columns
    inner; empty when [b] is above or to the left of [a]. *)
Definition rectangle (a b : CellRef) : list string :=
  flat_map (fun r => List.map (fun c => cell_id c r) (seqZ (col a) (col b - col a + 1)))
    (seqZ (row a) (row b - row a + 1)).

(** A cell that holds [text] as typed, with no formula. *)
Definition cell (text : string) : CellData :=
  {| value := text; formula := None; displayValue := None |}.

(** The double quote as a string, for formulas with string literals. *)
Definition dq : string := String "034" EmptyString.

(** The formula [=IF(A1>5,"big","small")]. *)
Definition if_example : string :=
  "=IF(A1>5," +:+ dq +:+ "big" +:+ dq +:+ "," +:+ dq +:+ "small" +:+ dq +:+ ")".

(** The formula [=VLOOKUP("Bob",A1:B3,2,FALSE)]. *)
Definition vlookup_example : string :=
  "=VLOOKUP(" +:+ dq +:+ "Bob" +:+ dq +:+ ",A1:B3,2,FALSE)".

(** How often the character [c] occurs in [s]. *)
Fixpoint occurrences (c : ascii) (s : string) : nat :=
  match s with
  | EmptyString => 0
  | String d s' => (if Ascii.eqb d c then 1 else 0) + occurrences c s'
  end.

(** The occurrences of [c] that every match of [r] holds: those of the
    literals of [r]. *)
Fixpoint literal_count (c : ascii) (r : Regex.regex) : nat :=
  match r with
  | Regex.Lit text => occurrences c text
  | Regex.Group r1 => literal_count c r1
  | Regex.Seq r1 r2 => literal_count c r1 + literal_count c r2
  | Regex.Alt r1 r2 => Nat.min (literal_count c r1) (literal_count c r2)
  | _ => 0
  end.

(** A character of a plain argument: no comma, no white space. *)
Definition plain (c : ascii) : bool := negb (Ascii.eqb c ",") && negb (Str.is_space c).

(** A character of a plain number: plain, and no comparison operator. *)
Definition plain_operand (c : ascii) : bool := plain c && negb (Regex.one_of "><=!" c).

(** A non-empty text whose characters are all of the class [p]. *)
Definition text_of (p : ascii -> bool) (s : string) : Prop :=
  s <> EmptyString /\ all p s = true.

(** The expression [IF(ref op num,t,f)]. *)
Definition if_shape (ref op num t f : string) : string :=
  "IF(" +:+ ref +:+ op +:+ num +:+ "," +:+ t +:+ "," +:+ f +:+ ")".

(** The expression [VLOOKUP(v,start:end,k,d)]. *)
Definition vlookup_shape (v start end_ k d : string) : string :=
  "VLOOKUP(" +:+ v +:+ "," +:+ start +:+ ":" +:+ end_ +:+ "," +:+ k +:+ "," +:+ d +:+ ")".

(** Row [i] of the range from [a] to [b] is the first one whose first
    column holds the text [lookup]. *)
Definition first_match (cells : gmap string CellData) (a b : CellRef) (lookup : string)
    (i : Z) : Prop :=
  (0 <= i <= row b - row a)%Z /\
  getCellText (cell_id (col a) (row a + i)) cells = lookup /\
  forall j, (0 <= j < i)%Z -> getCellText (cell_id (col a) (row a + j)) cells <> lookup.

(** No row of the range from [a] to [b] holds [lookup] in its first column. *)
Definition no_match (cells : gmap string CellData) (a b : CellRef) (lookup : string) : Prop :=
  forall i, (0 <= i <= row b - row a)%Z ->
    getCellText (cell_id (col a) (row a + i)) cells <> lookup.

(** ** The domain on which the embedding is exact

    The code works on UTF-16 text with the case mapping and the white space
    of Unicode, holds columns and rows in doubles, collects the keys of a
    range in an array of fewer than 2^32 elements, and hands the numbers of
    a range to [Math.min] and [Math.max] as the arguments of one call. The
    definitions above are what the code does on ASCII text, while column
    and row numbers stay safe integers and a range stays within these
    lengths; outside, the code rounds, does not end or throws where the
    definitions go on exactly. The properties that depend on it assume the
    domain with the notions below; the module [Double] after them runs the
    resolver on the doubles themselves, where the two part. *)

Definition is_ascii (c : ascii) : bool := (nat_of_ascii c <? 128)%nat.

(** Every character of [s] is an ASCII one. *)
Definition ascii_text (s : string) : bool := all is_ascii s.

(** [Number.MAX_SAFE_INTEGER] *)
Definition max_safe_integer : Z := 2 ^ 53 - 1.

(** The length an array cannot exceed: [push] throws RangeError there. *)
Definition max_array_length : Z := 2 ^ 32 - 1.

(** A number of arguments that the engines accept in one call; beyond a
    limit of its own (65536 in JavaScriptCore, more in V8 and in
    SpiderMonkey) an engine throws RangeError on [Math.min(...values)]. *)
Definition max_spread_arguments : Z := 65535.

(** The column and row numbers of the reference, counted from one as they
    are written and as [parseCellReference] reads them before it subtracts
    one, are safe integers. *)
Definition safe_reference (r : CellRef) : Prop :=
  (col r + 1 <= max_safe_integer)%Z /\ (row r + 1 <= max_safe_integer)%Z.

(** The corners are safe and the cells from [a] to [b] fit in an array. *)
Definition safe_range (a b : CellRef) : Prop :=
  safe_reference a /\ safe_reference b /\
  (Z.max 0 (row b - row a + 1) * Z.max 0 (col b - col a + 1) <= max_array_length)%Z.

(** The range text, if its two parts are references, names a safe range. *)
Definition safe_range_text (range : string) : Prop :=
  forall start end_ a b,
    Str.split ":" range !! 0%nat = Some start ->
    Str.split ":" range !! 1%nat = Some end_ ->
    parseCellReference start = Some a ->
    parseCellReference end_ = Some b ->
    safe_range a b.

(** The functions of a range. *)
Definition aggregates : list string := ["SUM"; "AVERAGE"; "MIN"; "MAX"; "COUNT"; "COUNTA"].

(** Every range that the evaluation of the formula hands to [parseRange]
    (the argument of an aggregate, the second group of the VLOOKUP
    pattern) is safe, and the range of a MIN or a MAX has no more cells
    than the engines accept as the arguments of one call. *)
Definition safe_formula (formula : string) : Prop :=
  (forall name,
     In name aggregates -> is_call name (expression_of formula) = true ->
     safe_range_text (call_argument name (expression_of formula))) /\
  (forall name,
     In name ["MIN"; "MAX"] -> is_call name (expression_of formula) = true ->
     (Z.of_nat (length (parseRange (call_argument name (expression_of formula))))
        <= max_spread_arguments)%Z) /\
  (forall m,
     Regex.exec vlookup_re (expression_of formula) = Some m ->
     safe_range_text (nth 2 m EmptyString)).

(** ** The resolver on the doubles of the runtime

    [parseCellReference] and the loops of [parseRange] once more, with
    [col] and [row] as the doubles they are in the code and [cells] as an
    array. A loop can fail to end here, so each one takes [fuel], the
    number of times its condition may be tested, and gives [None] when
    that is used up. *)

Module Double.

Definition one : Num.number := Num.of_Z 1.
Definition sub : Num.number -> Num.number -> Num.number := SFsub Num.prec Num.emax.
Definition mul : Num.number -> Num.number -> Num.number := SFmul Num.prec Num.emax.

(** [Math.floor(x)] *)
Definition floor (x : Num.number) : Num.number :=
  match x with
  | S754_finite negative m e =>
      if (0 <=? e)%Z then x
      else
        let n := ((if negative then Zneg m else Zpos m) / 2 ^ (- e))%Z in
        if (n =? 0)%Z then S754_zero negative else Num.of_Z n
  | _ => x
  end.

(** [x % y]: the remainder has the sign of [x]. *)
Definition rem (x y : Num.number) : Num.number :=
  match x, y with
  | S754_nan, _ | _, S754_nan | S754_infinity _, _ | _, S754_zero _ => Num.NaN
  | S754_zero _, _ | _, S754_infinity _ => x
  | S754_finite negative mx ex, S754_finite _ my ey =>
      let e := Z.min ex ey in
      let r := ((Zpos mx * 2 ^ (ex - e)) mod (Zpos my * 2 ^ (ey - e)))%Z in
      if (r =? 0)%Z then S754_zero negative
      else binary_normalize Num.prec Num.emax (if negative then (- r)%Z else r) e negative
  end.

(** [ToUint16(x)], as [String.fromCharCode] takes its argument. *)
Definition to_uint16 (x : Num.number) : Z :=
  match x with
  | S754_finite negative m e =>
      let n := if (0 <=? e)%Z then (Zpos m * 2 ^ e)%Z else (Zpos m / 2 ^ (- e))%Z in
      ((if negative then (- n)%Z else n) mod 65536)%Z
  | _ => 0%Z
  end.

(** [for (let i = 0; i < colStr.length; i++) col = col * 26 + (colStr.charCodeAt(i) - 64)] *)
Fixpoint column_loop (colStr : string) (col : Num.number) : Num.number :=
  match colStr with
  | EmptyString => col
  | String c rest =>
      column_loop rest (Num.add (mul col (Num.of_Z 26)) (Num.of_Z (Str.charCode c - 64)))
  end.

Record CellRef : Type := { col : Num.number; row : Num.number }.

(** [parseInt(rowStr)] is the double nearest to the integer that the digits
    write. *)
Definition parseCellReference (ref : string) : option CellRef :=
  match Regex.exec cell_ref_re ref with
  | None => None
  | Some m =>
      let colStr := nth 1 m EmptyString in
      let rowStr := nth 2 m EmptyString in
      let col := column_loop colStr Num.zero in
      let col := sub col one in
      let row := sub (Num.of_Z (default 0%Z (Int.parseInt rowStr))) one in
      Some {| col := col; row := row |}
  end.

(** [while (num >= 0) { label = String.fromCharCode(65 + (num % 26)) + label;
                        num = Math.floor(num / 26) - 1; }] *)
Fixpoint label_loop (fuel : nat) (num : Num.number) (label : string) : option string :=
  match fuel with
  | O => None
  | S fuel' =>
      if Num.leb Num.zero num
      then label_loop fuel'
             (sub (floor (Num.div num (Num.of_Z 26))) one)
             (Str.fromCharCode (to_uint16 (Num.add (Num.of_Z 65) (rem num (Num.of_Z 26))))
                +:+ label)
      else Some label
  end.

Definition getColumnLabel (fuel : nat) (index : Num.number) : option string :=
  label_loop fuel index EmptyString.

(** [cells.push(key)] *)
Definition push (cells : list string) (key : string) : outcome (list string) :=
  if (Z.of_nat (length cells) <? max_array_length)%Z then Ret (cells ++ [key])
  else Throw RangeError.

(** [for (let col = startRef.col; col <= endRef.col; col++) { ... cells.push(...) }] *)
Fixpoint col_loop (fuel : nat) (row col endCol : Num.number) (cells : list string)
    : option (outcome (list string)) :=
  match fuel with
  | O => None
  | S fuel' =>
      if Num.leb col endCol
      then
        match getColumnLabel fuel' col with
        | None => None
        | Some colLabel =>
            match push cells (colLabel +:+ Num.toString (Num.add row one)) with
            | Ret cells' => col_loop fuel' row (Num.add col one) endCol cells'
            | Throw e => Some (Throw e)
            end
        end
      else Some (Ret cells)
  end.

(** [for (let row = startRef.row; row <= endRef.row; row++) { ... }] *)
Fixpoint row_loop (fuel : nat) (row endRow startCol endCol : Num.number)
    (cells : list string) : option (outcome (list string)) :=
  match fuel with
  | O => None
  | S fuel' =>
      if Num.leb row endRow
      then
        match col_loop fuel' row startCol endCol cells with
        | None => None
        | Some (Throw e) => Some (Throw e)
        | Some (Ret cells') => row_loop fuel' (Num.add row one) endRow startCol endCol cells'
        end
      else Some (Ret cells)
  end.

Definition parseRange (fuel : nat) (range : string) : option (outcome (list string)) :=
  let parts := Str.split ":" range in
  match parts !! 0%nat, parts !! 1%nat with
  | Some start, Some end_ =>
      if negb (Str.truthy start) || negb (Str.truthy end_) then Some (Ret [])
      else
        match parseCellReference start, parseCellReference end_ with
        | Some startRef, Some endRef =>
            row_loop fuel (row startRef) (row endRef) (col startRef) (col endRef) []
        | _, _ => Some (Ret [])
        end
  | _, _ => Some (Ret [])
  end.

(** The run gives no result, however much fuel it has. *)
Definition never_returns {A} (run : nat -> option A) : Prop :=
  forall fuel, run fuel = None.

End Double.

(** A closed term replaced by its value. *)
Ltac evaluate t := let v := eval vm_compute in t in change t with v.

(** ** Further notions, and the code around the engine *)

(** The characters of [s] that are of the class [p], in their order. *)
Fixpoint only (p : ascii -> bool) (s : string) : string :=
  match s with
  | EmptyString => EmptyString
  | String c s' => if p c then String c (only p s') else only p s'
  end.

(** [s] without its first character when that is a quote. *)
Definition without_leading_quote (s : string) : string :=
  match s with
  | String c s' => if is_quote c then s' else s
  | EmptyString => EmptyString
  end.

(** [s] without its last character when that is a quote. *)
Fixpoint without_trailing_quote (s : string) : string :=
  match s with
  | EmptyString => EmptyString
  | String c EmptyString => if is_quote c then EmptyString else s
  | String c s' => String c (without_trailing_quote s')
  end.

(** A host whose [eval] gives its source back: the result shows what
    reaches [eval]. *)
Definition echo_host : Host := {|
  host_eval := fun source => Ret source;
  host_now := 0;
  host_toLocaleDateString := ReferenceHost.toLocaleDateString;
  host_toLocaleString := ReferenceHost.toLocaleString |}.

(** A host whose [eval] refuses a source that holds any character but
    the arithmetic ones. *)
Definition strict_host : Host := {|
  host_eval := fun source =>
    if all is_arithmetic_char source then Ret source else Throw SyntaxError;
  host_now := 0;
  host_toLocaleDateString := ReferenceHost.toLocaleDateString;
  host_toLocaleString := ReferenceHost.toLocaleString |}.

(** [parts.join(sep)] *)
Fixpoint join_with (sep : string) (parts : list string) : string :=
  match parts with
  | [] => EmptyString
  | [part] => part
  | part :: rest => part +:+ sep +:+ join_with sep rest
  end.


(** ** The grid

    The part of [SpreadsheetGrid.tsx] that computes on the keys and on the
    store: the key of a cell, the keys of the selection, the fill of a
    dragged rectangle, the recalculation of the formulas and what a cell
    shows. *)

Module Grid.

(** [`${getColumnLabel(col)}${row + 1}`]; [getColumnLabel] of the grid is
    the loop of [label_loop]. Row and column are exact integers: what the
    code prints while [row + 1] and [col + 1] are safe integers (a double
    from 2^53 on is rounded, and printed with an exponent from 1e21 on). *)
Definition getCellId (row col : Z) : string :=
  getColumnLabel col +:+ Int.toString (row + 1).




(** The cell of the grid: the three fields that the engine reads, and the
    format, which the grid alone reads. *)
Record CellData (Format : Type) : Type := {
  value : string;
  formula : option string;
  displayValue : option string;
  format : option Format }.
Arguments value {Format} _.
Arguments formula {Format} _.
Arguments displayValue {Format} _.
Arguments format {Format} _.







End Grid.



(** ** Import and export

    The CSV part of [importExport.ts]: [exportToCSV], and the branch of
    [importFromFile] for a file whose name ends in [.csv]. The label of a
    column is written by the loop of [label_loop] there as well. *)

Module ImportExport.

(** [text.replace(r, by)] for a regular expression with the [g] flag
    whose matches are not empty: every match is replaced, left to right;
    [skip] counts the characters of the current match still to pass. *)
Fixpoint replace_go (r : Regex.regex) (by_ : string) (i : nat) (s : string) (skip : nat)
    : string :=
  match s with
  | EmptyString => EmptyString
  | String c s' =>
      match skip with
      | S n => replace_go r by_ (S i) s' n
      | O =>
          match Regex.match_at r i s with
          | Some (m :: _) =>
              match String.length m with
              | S n => by_ +:+ replace_go r by_ (S i) s' n
              | O => String c (replace_go r by_ (S i) s' 0)
              end
          | _ => String c (replace_go r by_ (S i) s' 0)
          end
      end
  end.

Definition replace_all (r : Regex.regex) (by_ : string) (s : string) : string :=
  replace_go r by_ 0 s 0.

Definition is_double_quote (c : ascii) : bool := Ascii.eqb c "034".

(** [/\x22/g], the double quote written as [\x22] here *)
Definition double_quote_re : Regex.regex := Regex.Class is_double_quote.

(** The line feed, [\n]. *)
Definition line_feed : ascii := "010".

(** [cellData?.displayValue || cellData?.value || ''] *)
Definition shown_text {Format} (cellData : option (Grid.CellData Format)) : string :=
  match cellData with
  | None => EmptyString
  | Some cellData =>
      let text :=
        match Grid.displayValue cellData with
        | Some shown => if Str.truthy shown then shown else Grid.value cellData
        | None => Grid.value cellData
        end in
      if Str.truthy text then text else EmptyString
  end.

(** One turn of the first loop of [exportToCSV]: the state is [maxRow]
    and [maxCol]. The digits of a reference read as a number, as in
    [parseCellReference]. *)
Definition measure {Format} (state : Z * Z) (entry : string * Grid.CellData Format)
    : Z * Z :=
  let '(maxRow, maxCol) := state in
  match Regex.exec cell_ref_re entry.1 with
  | Some m =>
      let col :=
        (fold_left (fun acc char => acc * 26 + Str.charCode char - 64)
           (list_ascii_of_string (nth 1 m EmptyString)) 0 - 1)%Z in
      let row := (default 0 (Int.parseInt (nth 2 m EmptyString)) - 1)%Z in
      (Z.max maxRow row, Z.max maxCol col)
  | None => (maxRow, maxCol)
  end.

(** The first loop of [exportToCSV]: [maxRow] and [maxCol] over the keys
    that are references. *)
Definition extent {Format} (cells : list (string * Grid.CellData Format)) : Z * Z :=
  fold_left measure cells (0, 0)%Z.

(** One field of the file: the text between double quotes, its double
    quotes doubled. *)
Definition field (value : string) : string :=
  dq +:+ replace_all double_quote_re (dq +:+ dq) value +:+ dq.

(** The second loop of [exportToCSV]: the rows of fields. The store is
    iterated by the first loop, so it comes as the list of its entries. *)
Definition rows_of {Format} (cells : list (string * Grid.CellData Format))
    : list (list string) :=
  let '(maxRow, maxCol) := extent cells in
  let store : gmap string (Grid.CellData Format) := list_to_map cells in
  for_upto 0 maxRow (fun row rows =>
    rows ++
    [for_upto 0 maxCol (fun col rowData =>
       let cellId := getColumnLabel col +:+ Int.toString (row + 1) in
       let value := shown_text (store !! cellId) in
       rowData ++ [field value])
       []])
    [].

(** [exportToCSV]: the name and the text of the file that is downloaded. *)
Definition exportToCSV {Format} (cells : list (string * Grid.CellData Format))
    (filename : string) : string * string :=
  let csv :=
    join_with (String line_feed EmptyString) (List.map (join_with ",") (rows_of cells)) in
  (filename +:+ ".csv", csv).

(** The loop over the characters of a row; [skip] is set when [i++] has
    passed the next character. *)
Fixpoint parse_row (row : string) (skip : bool) (values : list string) (current : string)
    (inQuotes : bool) : list string :=
  match row with
  | EmptyString => values ++ [current]
  | String char rest =>
      if skip then parse_row rest false values current inQuotes
      else
        let nextChar := match rest with String next _ => Some next | EmptyString => None end in
        if is_double_quote char && inQuotes &&
           match nextChar with Some next => is_double_quote next | None => false end
        then parse_row rest true values (current +:+ dq) inQuotes
        else if is_double_quote char then parse_row rest false values current (negb inQuotes)
        else if Ascii.eqb char "," && negb inQuotes
        then parse_row rest false (values ++ [current]) EmptyString inQuotes
        else parse_row rest false values (current +:+ String char EmptyString) inQuotes
  end.

(** [items.forEach((item, index) => ...)] *)
Fixpoint forEach_indexed {A St : Type} (items : list A) (index : Z)
    (body : A -> Z -> St -> St) (state : St) : St :=
  match items with
  | [] => state
  | item :: rest => forEach_indexed rest (index + 1)%Z body (body item index state)
  end.

(** The branch of [importFromFile] for a CSV file, on the text of the
    file: the store it returns. *)
Definition importFromCSV {Format} (text : string) : gmap string (Grid.CellData Format) :=
  let rows := Str.split line_feed text in
  forEach_indexed rows 0 (fun row rowIndex cells =>
    if negb (Str.truthy (Str.trim row)) then cells
    else
      let values := parse_row row false [] EmptyString false in
      forEach_indexed values 0 (fun value colIndex cells =>
        let trimmedValue := Str.trim value in
        if Str.truthy trimmedValue then
          let cellId := getColumnLabel colIndex +:+ Int.toString (rowIndex + 1) in
          <[cellId := {| Grid.value := trimmedValue; Grid.formula := None;
                         Grid.displayValue := None; Grid.format := None |}]> cells
        else cells)
        cells)
    ∅.

(** The text is empty or starts with another character than a double
    quote. *)
Definition starts_without_quote (s : string) : Prop :=
  match s with
  | EmptyString => True
  | String c _ => is_double_quote c = false
  end.

(** The cell that the import makes of a text. *)
Definition imported {Format} (text : string) : Grid.CellData Format :=
  {| Grid.value := text; Grid.formula := None;
     Grid.displayValue := None; Grid.format := None |}.

End ImportExport.

(** * Properties *)

(** ** Strings *)

Module StrFacts.
Import Str.
#[local] Arguments String.append : simpl nomatch.

Lemma take_drop n s : take n s +:+ drop n s = s.
Proof.
  revert s; induction n as [|n IH]; intros [|c s]; simpl; try reflexivity.
  now rewrite IH.
Qed.

Lemma str_length_app s t : String.length (s +:+ t) = String.length s + String.length t.
Proof. induction s as [|c s IH]; simpl; [reflexivity | now rewrite IH]. Qed.

Lemma str_app_nil_r s : s +:+ EmptyString = s.
Proof. induction s as [|c s IH]; simpl; [reflexivity | now rewrite IH]. Qed.

Lemma str_app_assoc s t u : (s +:+ t) +:+ u = s +:+ t +:+ u.
Proof. induction s as [|c s IH]; simpl; [reflexivity | now rewrite IH]. Qed.

Lemma length_drop n s : String.length (drop n s) = String.length s - n.
Proof. revert s; induction n as [|n IH]; intros [|c s]; simpl; auto. Qed.

Lemma length_take n s : String.length (take n s) = Nat.min n (String.length s).
Proof. revert s; induction n as [|n IH]; intros [|c s]; simpl; auto. Qed.

Lemma drop_all n s : String.length s <= n -> drop n s = EmptyString.
Proof.
  revert s; induction n as [|n IH]; intros [|c s]; simpl; intros H; try reflexivity.
  - lia.
  - apply IH; lia.
Qed.

Lemma take_all n s : String.length s <= n -> take n s = s.
Proof.
  revert s; induction n as [|n IH]; intros [|c s]; simpl; intros H; try reflexivity.
  - lia.
  - rewrite IH; [reflexivity | lia].
Qed.

Lemma drop_app s t : drop (String.length s) (s +:+ t) = t.
Proof. induction s as [|c s IH]; simpl; [now destruct t | exact IH]. Qed.

Lemma take_app s t : take (String.length s) (s +:+ t) = s.
Proof.
  induction s as [|c s IH]; simpl; [now destruct t | now rewrite IH].
Qed.

Lemma startsWith_app p t : startsWith p (p +:+ t) = true.
Proof.
  induction p as [|c p IH]; simpl; [reflexivity|].
  now rewrite Ascii.eqb_refl, IH.
Qed.

Lemma startsWith_inv p s : startsWith p s = true -> s = p +:+ drop (String.length p) s.
Proof.
  revert s; induction p as [|c p IH]; intros [|d s]; simpl; try easy.
  intros [Hc Hp]%andb_prop. apply Ascii.eqb_eq in Hc; subst d.
  now rewrite <- (IH s Hp).
Qed.

(** Two prefixes of one string: the shorter one is a prefix of the longer. *)
Lemma startsWith_common p q s :
  startsWith p s = true -> startsWith q s = true ->
  String.length q <= String.length p -> startsWith q p = true.
Proof.
  revert q s; induction p as [|c p IH]; intros [|d q] [|e s]; simpl; try easy.
  intros [Hc Hp]%andb_prop [Hd Hq]%andb_prop Hlen.
  apply Ascii.eqb_eq in Hc, Hd; subst.
  rewrite Ascii.eqb_refl; simpl. apply (IH q s); auto; lia.
Qed.

(** The literal prefixes of the dispatch: none is a prefix of another. *)
Lemma startsWith_exclusive p q s :
  startsWith p s = true ->
  startsWith q p = false -> startsWith p q = false ->
  startsWith q s = false.
Proof.
  intros Hp Hqp Hpq. destruct (startsWith q s) eqn:Hq; [|reflexivity].
  destruct (Nat.le_gt_cases (String.length q) (String.length p)) as [Hle|Hgt].
  - now rewrite (startsWith_common p q s Hp Hq Hle) in Hqp.
  - rewrite (startsWith_common q p s Hq Hp) in Hpq; [discriminate | lia].
Qed.

Lemma upper_not_digit c : is_upper c = true -> is_digit c = false.
Proof.
  unfold is_upper, is_digit. intros [H1 H2]%andb_prop.
  apply Nat.leb_le in H1, H2. apply andb_false_iff.
  destruct (Nat.leb_spec (nat_of_ascii c) 57); [|now right]. lia.
Qed.

End StrFacts.

(** ** Regular expressions *)

Module RegexFacts.
Import Str Regex StrFacts.
#[local] Arguments String.append : simpl nomatch.

Lemma run_le p s : run p s <= String.length s.
Proof. induction s as [|c s IH]; simpl; [lia | destruct (p c); simpl; lia]. Qed.

(** Below the run, the next character is of the class. *)
Lemma drop_below_run p s m :
  m < run p s -> exists c t, drop m s = String c t /\ p c = true.
Proof.
  revert s; induction m as [|m IH]; intros [|c s]; simpl; try lia.
  - destruct (p c) eqn:E; [eauto | lia].
  - destruct (p c) eqn:E; [|lia]. intros H. apply IH. lia.
Qed.

Lemma greedy_top {A} least n (attempt : nat -> option A) a :
  least <= n -> attempt n = Some a -> greedy least n attempt = Some a.
Proof.
  intros Hle Ha. destruct n; simpl.
  - destruct (Nat.ltb_spec 0 least); [lia | now rewrite Ha].
  - destruct (Nat.ltb_spec (S n) least); [lia | now rewrite Ha].
Qed.

Lemma greedy_none {A} least n (attempt : nat -> option A) :
  (forall m, least <= m <= n -> attempt m = None) -> greedy least n attempt = None.
Proof.
  induction n as [|n IH]; intros H; simpl.
  - destruct (Nat.ltb_spec 0 least); [reflexivity|]. rewrite H; [reflexivity | lia].
  - destruct (Nat.ltb_spec (S n) least); [reflexivity|].
    rewrite H by lia. apply IH. intros m Hm. apply H. lia.
Qed.

(** The greedy choice is the largest count that succeeds. *)
Lemma greedy_pick {A} least n (attempt : nat -> option A) m a :
  least <= m <= n -> attempt m = Some a ->
  (forall m', m < m' <= n -> attempt m' = None) ->
  greedy least n attempt = Some a.
Proof.
  induction n as [|n IH]; intros Hm Ha Habove.
  - assert (m = 0) by lia; subst. now apply greedy_top.
  - destruct (Nat.eq_dec m (S n)) as [->|Hne]; [now apply greedy_top|].
    simpl. destruct (Nat.ltb_spec (S n) least); [lia|].
    rewrite Habove by lia. apply IH; auto; [lia|].
    intros m' Hm'. apply Habove. lia.
Qed.

Lemma greedy_inv {A} least n (attempt : nat -> option A) a :
  greedy least n attempt = Some a ->
  exists m, least <= m <= n /\ attempt m = Some a /\
            forall m', m < m' <= n -> attempt m' = None.
Proof.
  induction n as [|n IH]; simpl.
  - destruct (Nat.ltb_spec 0 least); [discriminate|].
    destruct (attempt 0) eqn:E; [|discriminate].
    intros [= ->]. exists 0. split; [lia|]. split; [assumption|]. intros; lia.
  - destruct (Nat.ltb_spec (S n) least); [discriminate|].
    destruct (attempt (S n)) eqn:E.
    + intros [= ->]. exists (S n). split; [lia|]. split; [assumption|]. intros; lia.
    + intros (m & Hm & Ha & Habove)%IH. exists m.
      split; [lia|]. split; [assumption|].
      intros m' Hm'. destruct (Nat.eq_dec m' (S n)) as [->|]; [assumption|].
      apply Habove. lia.
Qed.

(** A pattern that begins with [^] matches at the start or nowhere. *)
Lemma search_Bol r i s : 0 < i -> search (Seq Bol r) i s = None.
Proof.
  revert i; induction s as [|c s IH]; intros i Hi; simpl;
    unfold match_at; simpl; destruct (Nat.eqb_spec i 0); try lia; auto.
Qed.

Lemma exec_Bol r s : exec (Seq Bol r) s = match_at (Seq Bol r) 0 s.
Proof.
  unfold exec. destruct s as [|c s]; simpl.
  - now destruct (match_at _ 0 _).
  - destruct (match_at _ 0 _); [reflexivity|]. apply search_Bol. lia.
Qed.

Lemma exec_Bol_Lit text r s m :
  exec (Seq Bol (Seq (Lit text) r)) s = Some m -> startsWith text s = true.
Proof.
  rewrite exec_Bol. unfold match_at; simpl.
  destruct (startsWith text s); [reflexivity | discriminate].
Qed.

(** *** Counting the literal characters of a match *)

Lemma occurrences_app c s t : occurrences c (s +:+ t) = occurrences c s + occurrences c t.
Proof. induction s as [|d s IH]; simpl; [reflexivity | rewrite IH; lia]. Qed.

Lemma occurrences_drop c n s : occurrences c (drop n s) <= occurrences c s.
Proof.
  rewrite <- (take_drop n s) at 2. rewrite occurrences_app. lia.
Qed.

(** Whatever [r] matches holds the literal characters of [r]. *)
Lemma rmatch_consumes c r :
  forall A i s caps (k : nat -> string -> list string -> option A) a,
    rmatch r i s caps k = Some a ->
    exists j pre s' caps',
      s = pre +:+ s' /\ literal_count c r <= occurrences c pre /\ k j s' caps' = Some a.
Proof.
  induction r as [| |text|p|least p|r1 IH1|r1 IH1 r2 IH2|r1 IH1 r2 IH2];
    intros A i s caps k a; cbn [rmatch literal_count].
  - destruct (i =? 0); [|discriminate]. intros H.
    exists i, EmptyString, s, caps. repeat split; [simpl; lia | exact H].
  - destruct s; [|discriminate]. intros H.
    exists i, EmptyString, EmptyString, caps. repeat split; [simpl; lia | exact H].
  - destruct (startsWith text s) eqn:E; [|discriminate]. intros H.
    exists (i + String.length text), text, (drop (String.length text) s), caps.
    split; [now apply startsWith_inv|]. split; [lia | exact H].
  - destruct s as [|d s]; [discriminate|]. destruct (p d); [|discriminate]. intros H.
    exists (S i), (String d EmptyString), s, caps. repeat split; [lia | exact H].
  - intros (m & _ & H & _)%greedy_inv.
    exists (i + m), (take m s), (drop m s), caps.
    split; [now rewrite take_drop|]. split; [lia | exact H].
  - intros (j & pre & s' & caps' & Hs & Hc & H)%IH1.
    exists j, pre, s', (caps' ++ [take (j - i) s]). repeat split; assumption.
  - intros (j1 & pre1 & s1 & caps1 & Hs1 & Hc1 & H1)%IH1.
    apply IH2 in H1 as (j2 & pre2 & s2 & caps2 & Hs2 & Hc2 & H2).
    exists j2, (pre1 +:+ pre2), s2, caps2.
    split; [now rewrite str_app_assoc, <- Hs2|].
    split; [rewrite occurrences_app; lia | exact H2].
  - destruct (rmatch r1 i s caps k) eqn:E.
    + intros [= ->]. apply IH1 in E as (j & pre & s' & caps' & Hs & Hc & H).
      exists j, pre, s', caps'. repeat split; [assumption | lia | assumption].
    + intros (j & pre & s' & caps' & Hs & Hc & H)%IH2.
      exists j, pre, s', caps'. repeat split; [assumption | lia | assumption].
Qed.

(** A string with fewer occurrences than the pattern has literals is not
    matched. *)
Lemma rmatch_too_few c r {A} i s caps (k : nat -> string -> list string -> option A) :
  occurrences c s < literal_count c r -> rmatch r i s caps k = None.
Proof.
  intros Hlt. destruct (rmatch r i s caps k) as [a|] eqn:E; [|reflexivity].
  apply (rmatch_consumes c) in E as (j & pre & s' & caps' & -> & Hc & _).
  rewrite occurrences_app in Hlt. lia.
Qed.

End RegexFacts.

(** ** The reference resolver *)

Module ResolverFacts.
Import Str Regex StrFacts RegexFacts.
#[local] Arguments String.append : simpl nomatch.

Lemma drop_nonempty m t : m < String.length t -> exists c u, drop m t = String c u.
Proof.
  intros H. destruct (drop m t) as [|c u] eqn:E; [|eauto].
  pose proof (length_drop m t) as L. rewrite E in L. simpl in L. lia.
Qed.

Lemma exec_cell_ref s :
  exec cell_ref_re s =
    if cell_ref_shape s
    then Some [s; take (run is_upper s) s; drop (run is_upper s) s]
    else None.
Proof.
  unfold cell_ref_re. rewrite exec_Bol. unfold match_at. simpl.
  destruct (cell_ref_shape s) eqn:Shape; unfold cell_ref_shape in Shape; cbv zeta in Shape;
    set (n := run is_upper s) in *; set (t := drop n s) in *.
  - apply andb_prop in Shape as [[Hn Ht]%andb_prop Hd].
    apply Nat.leb_le in Hn, Ht. apply Nat.eqb_eq in Hd.
    apply greedy_top; [lia|]. fold t.
    apply greedy_top; [lia|]. rewrite Hd.
    rewrite (drop_all (String.length t) t) by lia.
    assert (Hlen : String.length s = n + String.length t).
    { unfold t. rewrite length_drop. pose proof (run_le is_upper s) as H. fold n in H. lia. }
    rewrite !Nat.sub_0_r.
    replace (n + String.length t - n) with (String.length t) by lia.
    rewrite (take_all _ s) by lia. rewrite (take_all _ t) by lia. reflexivity.
  - apply greedy_none. intros m Hm.
    apply greedy_none. intros m' Hm'.
    destruct (Nat.eq_dec m n) as [->|Hne].
    + fold t in Hm'. fold t. pose proof (run_le is_digit t) as Hr.
      destruct (drop_nonempty m' t) as (c & u & ->); [|reflexivity].
      destruct (Nat.leb_spec 1 n); [|lia].
      destruct (Nat.leb_spec 1 (String.length t)); [|lia].
      destruct (Nat.eqb_spec (run is_digit t) (String.length t)); [discriminate|]. lia.
    + destruct (drop_below_run is_upper s m) as (c & u & E & Hc); [fold n; lia|].
      rewrite E in Hm'. simpl in Hm'. rewrite (upper_not_digit c Hc) in Hm'. lia.
Qed.

(** *** [parseInt] on a run of digits *)

Lemma digit_cases c :
  is_digit c = true ->
  is_space c = false /\ c <> "-"%char /\ c <> "+"%char /\ c <> "x"%char /\ c <> "X"%char /\
  exists d, Int.digit_of c = Some d /\ (0 <= d <= 9)%Z.
Proof.
  intros H. unfold Int.digit_of. rewrite H.
  unfold is_digit in H. apply andb_prop in H as [H1 H2]. apply Nat.leb_le in H1, H2.
  repeat split.
  - unfold is_space. apply orb_false_iff. split.
    + apply andb_false_iff. right. apply Nat.leb_gt. lia.
    + apply Nat.eqb_neq. lia.
  - intros ->. vm_compute in H1, H2. lia.
  - intros ->. vm_compute in H1, H2. lia.
  - intros ->. vm_compute in H1, H2. lia.
  - intros ->. vm_compute in H1, H2. lia.
  - eexists; split; [reflexivity|]. unfold charCode. lia.
Qed.

Lemma digits_some digit radix s a :
  exists v, Int.digits digit radix s (Some a) = Some v.
Proof.
  revert a; induction s as [|c s IH]; intros a; simpl; [eauto|].
  destruct (digit c); [apply IH | eauto].
Qed.

(** The row digits of a reference always read as a number. *)
Lemma parseInt_digits t :
  1 <= String.length t -> run is_digit t = String.length t ->
  exists v, Int.parseInt t = Some v.
Proof.
  destruct t as [|c t]; simpl; [lia|]. intros _.
  destruct (is_digit c) eqn:Hc; [|discriminate]. intros [= Hrun].
  destruct (digit_cases c Hc) as (Hsp & Hm & Hp & _ & _ & d & Hd & _).
  assert (Htrim : trimStart (String c t) = String c t).
  { unfold trimStart. cbn [drop_while]. now rewrite Hsp. }
  unfold Int.parseInt. rewrite Htrim.
  assert (Hsign : (match String c t with
                   | String "-"%char s' => (true, s')
                   | String "+"%char s' => (false, s')
                   | _ => (false, String c t)
                   end) = (false, String c t)).
  { destruct c as [[] [] [] [] [] [] [] []]; try reflexivity; congruence. }
  rewrite Hsign. cbv beta iota zeta.
  assert (Hx : startsWith "0x" (String c t) || startsWith "0X" (String c t) = false).
  { destruct t as [|e t]; cbn [startsWith].
    - now rewrite !andb_false_r.
    - cbn [run String.length] in Hrun. destruct (is_digit e) eqn:He; [|discriminate].
      destruct (digit_cases e He) as (_ & _ & _ & Hx1 & Hx2 & _).
      rewrite (proj2 (Ascii.eqb_neq "x" e)) by congruence.
      rewrite (proj2 (Ascii.eqb_neq "X" e)) by congruence.
      now rewrite !andb_false_r. }
  rewrite Hx. cbn [Int.digits]. rewrite Hd.
  match goal with
  | |- context [Int.digits ?f ?r ?u (Some ?x)] =>
      destruct (digits_some f r u x) as [v Hv]; exists v; rewrite Hv
  end.
  reflexivity.
Qed.

End ResolverFacts.

(** ** Column labels *)

Module LabelFacts.
Import Str Regex StrFacts RegexFacts ResolverFacts.
#[local] Arguments String.append : simpl nomatch.

Lemma label_loop_done num label : (num < 0)%Z -> label_loop num label = label.
Proof.
  intros H. rewrite label_loop_equation_1.
  destruct (Z_lt_dec num 0); [reflexivity | lia].
Qed.

Lemma label_loop_step num label :
  (0 <= num)%Z ->
  label_loop num label =
    label_loop (num / 26 - 1) (fromCharCode (65 + Z.rem num 26) +:+ label).
Proof.
  intros H. rewrite label_loop_equation_1.
  destruct (Z_lt_dec num 0); [lia | apply label_loop_clause_1_equation_2].
Qed.

Lemma upper_code c :
  is_upper c = true ->
  (1 <= charCode c - 64 <= 26)%Z /\ fromCharCode (65 + (charCode c - 64 - 1)) = String c EmptyString.
Proof.
  unfold is_upper, charCode, fromCharCode. intros [H1 H2]%andb_prop.
  apply Nat.leb_le in H1, H2. split; [lia|].
  replace (Z.to_nat (65 + (Z.of_nat (nat_of_ascii c) - 64 - 1))) with (nat_of_ascii c) by lia.
  now rewrite ascii_nat_embedding.
Qed.

(** Writing the label of a decoded column gives the letters back, in
    front of what the label already holds. *)
Lemma label_of_column letters :
  all is_upper letters = true ->
  forall a label, (0 <= a)%Z ->
    label_loop (column_loop letters a - 1) label = label_loop (a - 1) (letters +:+ label).
Proof.
  induction letters as [|c l IH]; simpl; intros Hall a label Ha; [reflexivity|].
  apply andb_prop in Hall as [Hc Hl].
  destruct (upper_code c Hc) as [Hd Hchr].
  rewrite IH by (auto; lia).
  rewrite label_loop_step by lia.
  replace ((a * 26 + (charCode c - 64) - 1) / 26 - 1)%Z with (a - 1)%Z.
  2:{ replace (a * 26 + (charCode c - 64) - 1)%Z with ((charCode c - 64 - 1) + a * 26)%Z by lia.
      rewrite Z.div_add by lia. rewrite Z.div_small by lia. lia. }
  replace (Z.rem (a * 26 + (charCode c - 64) - 1) 26) with (charCode c - 64 - 1)%Z.
  2:{ rewrite Z.rem_mod_nonneg by lia.
      replace (a * 26 + (charCode c - 64) - 1)%Z with ((charCode c - 64 - 1) + a * 26)%Z by lia.
      rewrite Z.mod_add by lia. rewrite Z.mod_small by lia. reflexivity. }
  rewrite Hchr. reflexivity.
Qed.

Lemma getColumnLabel_column_loop letters :
  all is_upper letters = true ->
  getColumnLabel (column_loop letters 0 - 1) = letters.
Proof.
  intros H. unfold getColumnLabel. rewrite label_of_column by (auto; lia).
  rewrite label_loop_done by lia. apply str_app_nil_r.
Qed.

Lemma all_take_run p s : all p (take (run p s) s) = true.
Proof.
  induction s as [|c s IH]; simpl; [reflexivity|].
  destruct (p c) eqn:E; simpl; [now rewrite E | reflexivity].
Qed.

Lemma run_all_iff p s : run p s = String.length s <-> all p s = true.
Proof.
  induction s as [|c s IH]; simpl; [tauto|].
  destruct (p c); simpl; [|split; [lia | discriminate]].
  rewrite <- IH. split; [intros [= ->]; reflexivity | intros ->; reflexivity].
Qed.

(** Induction along the iterations of the label loop. *)
Lemma label_loop_ind (P : Z -> Prop) :
  (forall n, (n < 0)%Z -> P n) ->
  (forall n, (0 <= n)%Z -> P (n / 26 - 1)%Z -> P n) ->
  forall n, P n.
Proof.
  intros Hneg Hstep n. destruct (Z_lt_dec n 0) as [|Hn]; [auto|].
  apply Z.nlt_ge in Hn. revert n Hn. apply Zlt_0_ind. intros x IH Hx.
  apply Hstep; [assumption|].
  destruct (Z_lt_dec (x / 26 - 1) 0); [auto|].
  apply IH. assert (x / 26 <= x)%Z by (apply Z.div_le_upper_bound; lia). lia.
Qed.

(** The label loop takes its accumulator along unchanged. *)
Lemma label_loop_acc num label :
  label_loop num label = label_loop num EmptyString +:+ label.
Proof.
  revert label. pattern num. apply label_loop_ind; clear num.
  - intros n Hn lbl. rewrite !label_loop_done by lia. reflexivity.
  - intros n Hn IH lbl.
    rewrite (label_loop_step n lbl) by lia.
    rewrite (label_loop_step n EmptyString) by lia.
    rewrite IH. rewrite (IH (_ +:+ EmptyString)).
    rewrite !str_app_assoc. reflexivity.
Qed.

Lemma column_loop_app l1 l2 a : column_loop (l1 +:+ l2) a = column_loop l2 (column_loop l1 a).
Proof. revert a; induction l1 as [|c l IH]; intros a; simpl; [reflexivity | apply IH]. Qed.

(** Decoding the label of a column index gives the index back. *)
Lemma column_loop_getColumnLabel n :
  (-1 <= n)%Z -> column_loop (getColumnLabel n) 0 = (n + 1)%Z.
Proof.
  unfold getColumnLabel. pattern n. apply label_loop_ind; clear n.
  - intros n Hn Hn'. rewrite label_loop_done by lia. simpl. lia.
  - intros n Hn IH _.
    rewrite label_loop_step by lia. rewrite label_loop_acc.
    rewrite column_loop_app. rewrite IH.
    2:{ assert (0 <= n / 26)%Z by (apply Z.div_pos; lia). lia. }
    rewrite Z.rem_mod_nonneg by lia.
    simpl. unfold charCode. rewrite nat_ascii_embedding.
    2:{ pose proof (Z.mod_pos_bound n 26). lia. }
    pose proof (Z.div_mod n 26). pose proof (Z.mod_pos_bound n 26). lia.
Qed.

Lemma digit_not_upper c : is_digit c = true -> is_upper c = false.
Proof.
  intros H. destruct (is_upper c) eqn:E; [|reflexivity].
  now rewrite (upper_not_digit c E) in H.
Qed.

Lemma run_app_stop p l d :
  all p l = true -> run p d = 0 -> run p (l +:+ d) = String.length l.
Proof.
  intros Hl Hd. induction l as [|c l IH]; simpl in *; [exact Hd|].
  apply andb_prop in Hl as [Hc Hl]. rewrite Hc. now rewrite IH.
Qed.

(** The closed form of the pattern says what the pattern says. *)
Lemma cell_ref_shape_pattern s : cell_ref_shape s = true <-> cell_pattern s.
Proof.
  unfold cell_ref_shape, cell_pattern. cbv zeta. split.
  - intros [[Hn Ht]%andb_prop Hd]%andb_prop.
    apply Nat.leb_le in Hn, Ht. apply Nat.eqb_eq in Hd.
    exists (take (run is_upper s) s), (drop (run is_upper s) s).
    split; [now rewrite take_drop|]. split.
    { intros E. pose proof (length_take (run is_upper s) s) as L.
      rewrite E in L. pose proof (run_le is_upper s). simpl in L. lia. }
    split.
    { intros E. rewrite E in Ht. simpl in Ht. lia. }
    split; [apply all_take_run | now apply run_all_iff].
  - intros (l & d & -> & Hl & Hd & Hup & Hdig).
    assert (Hrun : run is_upper (l +:+ d) = String.length l).
    { apply run_app_stop; [exact Hup|].
      destruct d as [|c d]; [congruence|]. simpl in *.
      apply andb_prop in Hdig as [Hc _]. now rewrite (digit_not_upper c Hc). }
    rewrite Hrun, drop_app.
    apply andb_true_intro; split; [apply andb_true_intro; split|].
    + apply Nat.leb_le. destruct l; [congruence | simpl; lia].
    + apply Nat.leb_le. destruct d; [congruence | simpl; lia].
    + apply Nat.eqb_eq. now apply run_all_iff.
Qed.

Lemma parseCellReference_closed ref :
  parseCellReference ref =
    if cell_ref_shape ref
    then Some {| col := (column_loop (take (run is_upper ref) ref) 0 - 1)%Z;
                 row := (default 0 (Int.parseInt (drop (run is_upper ref) ref)) - 1)%Z |}
    else None.
Proof.
  unfold parseCellReference. rewrite exec_cell_ref.
  destruct (cell_ref_shape ref); reflexivity.
Qed.

(** The row of a parsed reference is what [parseInt] reads in its digits,
    less one. *)
Lemma parseCellReference_row ref r :
  parseCellReference ref = Some r ->
  exists v, Int.parseInt (drop (run is_upper ref) ref) = Some v /\ row r = (v - 1)%Z.
Proof.
  rewrite parseCellReference_closed.
  destruct (cell_ref_shape ref) eqn:Shape; [|discriminate]. intros [= <-].
  unfold cell_ref_shape in Shape. cbv zeta in Shape.
  apply andb_prop in Shape as [[_ Ht]%andb_prop Hd].
  apply Nat.leb_le in Ht. apply Nat.eqb_eq in Hd.
  destruct (parseInt_digits _ Ht Hd) as [v Hv].
  exists v. rewrite Hv. split; reflexivity.
Qed.

End LabelFacts.

(** ** Formulas of a given shape *)

Module ShapeFacts.
Import Str Regex StrFacts RegexFacts ResolverFacts LabelFacts.
#[local] Arguments String.append : simpl nomatch.

Lemma all_app p s t : all p (s +:+ t) = all p s && all p t.
Proof. induction s as [|c s IH]; simpl; [reflexivity | now rewrite IH, andb_assoc]. Qed.

Lemma all_impl (p q : ascii -> bool) s :
  (forall c, p c = true -> q c = true) -> all p s = true -> all q s = true.
Proof.
  intros Hpq. induction s as [|c s IH]; simpl; [reflexivity|].
  intros [Hc Hs]%andb_prop. now rewrite (Hpq c Hc), IH.
Qed.

Lemma all_no_occurrence p c s :
  p c = false -> all p s = true -> occurrences c s = 0.
Proof.
  intros Hc. induction s as [|d s IH]; simpl; [reflexivity|].
  intros [Hd Hs]%andb_prop. rewrite (IH Hs).
  destruct (Ascii.eqb_spec d c) as [->|]; [congruence | reflexivity].
Qed.

Lemma run_app_ge p x w : all p x = true -> String.length x <= run p (x +:+ w).
Proof.
  induction x as [|c x IH]; simpl; [lia|].
  intros [Hc Hx]%andb_prop. rewrite Hc. specialize (IH Hx). lia.
Qed.

Lemma drop_app_ge m x w :
  String.length x <= m -> drop m (x +:+ w) = drop (m - String.length x) w.
Proof.
  revert m; induction x as [|c x IH]; intros m Hm; simpl.
  - now rewrite Nat.sub_0_r.
  - destruct m as [|m]; [simpl in Hm; lia|]. simpl. apply IH. simpl in Hm. lia.
Qed.

Lemma drop_app_lt m x w :
  m < String.length x -> exists c x', drop m x = String c x' /\ drop m (x +:+ w) = String c (x' +:+ w).
Proof.
  revert m; induction x as [|c x IH]; intros m Hm; simpl in Hm; [lia|].
  destruct m as [|m]; simpl.
  - eauto.
  - apply IH. lia.
Qed.

Lemma take_app_exact m x w : m = String.length x -> take m (x +:+ w) = x.
Proof. intros ->. apply take_app. Qed.

Lemma occurrences_zero_head c d s :
  occurrences c (String d s) = 0 -> Ascii.eqb c d = false.
Proof.
  simpl. destruct (Ascii.eqb_spec d c) as [->|Hne]; [lia|].
  intros _. apply Ascii.eqb_neq. congruence.
Qed.

(** *** Steps of a match *)

Lemma rmatch_Seq_Bol {A} r s caps (k : nat -> string -> list string -> option A) :
  rmatch (Seq Bol r) 0 s caps k = rmatch r 0 s caps k.
Proof. reflexivity. Qed.

Lemma rmatch_Seq_Lit {A} text r i w caps (k : nat -> string -> list string -> option A) :
  rmatch (Seq (Lit text) r) i (text +:+ w) caps k = rmatch r (i + String.length text) w caps k.
Proof. cbn [rmatch]. now rewrite startsWith_app, drop_app. Qed.

(** A group of one class up to a comma: when the text [x] of the group has
    no comma and what follows the comma has no more commas than the rest of
    the pattern asks for, the group takes exactly [x]. *)
Lemma group_delimited {A} p r3 i x w0 caps (k : nat -> string -> list string -> option A) :
  x <> EmptyString -> all p x = true ->
  occurrences "," x = 0 ->
  occurrences "," w0 <= literal_count "," r3 ->
  rmatch (Seq (Group (Many 1 p)) (Seq (Lit ",") r3)) i (x +:+ "," +:+ w0) caps k =
    rmatch r3 (i + String.length x + 1) w0 (caps ++ [x]) k.
Proof.
  intros Hx Hall Hnone Hfew.
  set (input := x +:+ "," +:+ w0).
  change (rmatch (Seq (Group (Many 1 p)) (Seq (Lit ",") r3)) i input caps k)
    with (greedy 1 (run p input)
            (fun m => rmatch (Seq (Lit ",") r3) (i + m) (drop m input)
                        (caps ++ [take (i + m - i) input]) k)).
  assert (Hlen : 1 <= String.length x) by (destruct x; [congruence | simpl; lia]).
  assert (Hrun : String.length x <= run p input) by (apply run_app_ge; exact Hall).
  assert (Hat : rmatch (Seq (Lit ",") r3) (i + String.length x) (drop (String.length x) input)
                  (caps ++ [take (i + String.length x - i) input]) k =
                rmatch r3 (i + String.length x + 1) w0 (caps ++ [x]) k).
  { unfold input. rewrite drop_app. rewrite rmatch_Seq_Lit.
    rewrite take_app_exact by lia. reflexivity. }
  assert (Habove : forall m, String.length x < m ->
            rmatch (Seq (Lit ",") r3) (i + m) (drop m input) (caps ++ [take (i + m - i) input]) k = None).
  { intros m Hm. apply (rmatch_too_few ",").
    unfold input. rewrite drop_app_ge by lia.
    replace (m - String.length x) with (S (m - String.length x - 1)) by lia.
    cbn [drop String.append]. cbn [literal_count occurrences Ascii.eqb].
    pose proof (occurrences_drop "," (m - String.length x - 1) w0).
    simpl. lia. }
  assert (Hbelow : forall m, m < String.length x ->
            rmatch (Seq (Lit ",") r3) (i + m) (drop m input) (caps ++ [take (i + m - i) input]) k = None).
  { intros m Hm. unfold input.
    destruct (drop_app_lt m x ("," +:+ w0) Hm) as (c & x' & Hdx & ->).
    assert (Hc : Ascii.eqb "," c = false).
    { apply (occurrences_zero_head "," c x').
      pose proof (occurrences_drop "," m x) as Hle. rewrite Hdx in Hle. lia. }
    cbn [rmatch startsWith]. now rewrite Hc. }
  rewrite <- Hat.
  destruct (rmatch (Seq (Lit ",") r3) (i + String.length x) (drop (String.length x) input)
              (caps ++ [take (i + String.length x - i) input]) k) as [a|] eqn:E.
  - apply (greedy_pick 1 (run p input) _ (String.length x)); [lia | exact E |].
    intros m' Hm'. apply Habove. lia.
  - apply greedy_none. intros m Hm.
    destruct (Nat.lt_trichotomy m (String.length x)) as [Hlt|[->|Hgt]];
      [now apply Hbelow | exact E | now apply Habove].
Qed.

(** The last group, up to the closing parenthesis at the end. *)
Lemma group_last {A} p i x caps (k : nat -> string -> list string -> option A) :
  x <> EmptyString -> all p x = true ->
  rmatch (Seq (Group (Many 1 p)) (Seq (Lit ")") Eol)) i (x +:+ ")") caps k =
    k (i + String.length x + 1) EmptyString (caps ++ [x]).
Proof.
  intros Hx Hall.
  set (input := x +:+ ")").
  change (rmatch (Seq (Group (Many 1 p)) (Seq (Lit ")") Eol)) i input caps k)
    with (greedy 1 (run p input)
            (fun m => rmatch (Seq (Lit ")") Eol) (i + m) (drop m input)
                        (caps ++ [take (i + m - i) input]) k)).
  assert (Hlen : 1 <= String.length x) by (destruct x; [congruence | simpl; lia]).
  assert (Hrun : String.length x <= run p input) by (apply run_app_ge; exact Hall).
  assert (Hat : rmatch (Seq (Lit ")") Eol) (i + String.length x) (drop (String.length x) input)
                  (caps ++ [take (i + String.length x - i) input]) k =
                k (i + String.length x + 1) EmptyString (caps ++ [x])).
  { unfold input. rewrite drop_app. rewrite take_app_exact by lia. reflexivity. }
  assert (Habove : forall m, String.length x < m ->
            rmatch (Seq (Lit ")") Eol) (i + m) (drop m input) (caps ++ [take (i + m - i) input]) k = None).
  { intros m Hm. unfold input. rewrite drop_app_ge by lia.
    replace (m - String.length x) with (S (m - String.length x - 1)) by lia.
    cbn [drop String.append]. now destruct (m - String.length x - 1). }
  assert (Hbelow : forall m, m < String.length x ->
            rmatch (Seq (Lit ")") Eol) (i + m) (drop m input) (caps ++ [take (i + m - i) input]) k = None).
  { intros m Hm. unfold input.
    destruct (drop_app_lt m x ")" Hm) as (c & x' & _ & ->).
    cbn [rmatch startsWith String.length drop].
    destruct (Ascii.eqb ")" c); [|reflexivity]. cbn [andb].
    now destruct x'. }
  rewrite <- Hat.
  destruct (rmatch (Seq (Lit ")") Eol) (i + String.length x) (drop (String.length x) input)
              (caps ++ [take (i + String.length x - i) input]) k) as [a|] eqn:E.
  - apply (greedy_pick 1 (run p input) _ (String.length x)); [lia | exact E |].
    intros m' Hm'. apply Habove. lia.
  - apply greedy_none. intros m Hm.
    destruct (Nat.lt_trichotomy m (String.length x)) as [Hlt|[->|Hgt]];
      [now apply Hbelow | exact E | now apply Habove].
Qed.

(** *** Character classes *)

Lemma plain_classes c :
  plain c = true -> any_char c = true /\ is_space c = false /\ Ascii.eqb c "," = false.
Proof. destruct c as [[] [] [] [] [] [] [] []]; vm_compute; intros; repeat split; congruence. Qed.

Lemma operand_classes c :
  plain_operand c = true ->
  plain c = true /\ one_of "><=!" c = false /\ is_space c = false /\ any_char c = true.
Proof. destruct c as [[] [] [] [] [] [] [] []]; vm_compute; intros; repeat split; congruence. Qed.

Lemma reference_classes c :
  is_upper_or_digit c = true ->
  is_space c = false /\ one_of "><=!" c = false /\ any_char c = true /\
  is_range_char c = true /\ Ascii.eqb c ":" = false.
Proof. destruct c as [[] [] [] [] [] [] [] []]; vm_compute; intros; repeat split; congruence. Qed.

Lemma operator_classes c :
  one_of "><=!" c = true ->
  is_space c = false /\ is_upper_or_digit c = false /\ any_char c = true.
Proof. destruct c as [[] [] [] [] [] [] [] []]; vm_compute; intros; repeat split; congruence. Qed.

Lemma upper_or_digit c :
  (is_upper c = true -> is_upper_or_digit c = true) /\
  (is_digit c = true -> is_upper_or_digit c = true).
Proof. unfold is_upper_or_digit. split; intros ->; [reflexivity | apply orb_true_r]. Qed.

(** *** White space *)

Lemma rev_onto_rev_onto s a b : rev_onto (rev_onto s a) b = rev_onto a (s +:+ b).
Proof.
  revert a b; induction s as [|c s IH]; intros a b; simpl; [reflexivity|].
  now rewrite IH.
Qed.

Lemma rev_rev s : rev (rev s) = s.
Proof. unfold rev. rewrite rev_onto_rev_onto. simpl. apply str_app_nil_r. Qed.

Lemma all_rev_onto p s a : all p (rev_onto s a) = all p s && all p a.
Proof.
  revert a; induction s as [|c s IH]; intros a; simpl; [reflexivity|].
  rewrite IH. simpl. destruct (p c), (all p s); reflexivity.
Qed.

Lemma drop_while_none s :
  all (fun c => negb (is_space c)) s = true -> drop_while is_space s = s.
Proof.
  destruct s as [|c s]; simpl; [reflexivity|].
  intros [Hc _]%andb_prop. apply negb_true_iff in Hc. now rewrite Hc.
Qed.

(** Text without white space is its own trimmed form. *)
Lemma trim_plain s : all (fun c => negb (is_space c)) s = true -> trim s = s.
Proof.
  intros H. unfold trim, trimStart, trimEnd. rewrite (drop_while_none s H).
  rewrite drop_while_none; [apply rev_rev|].
  unfold rev. rewrite all_rev_onto, H. reflexivity.
Qed.

(** *** Steps of a match that take the whole run *)

Lemma run_head p c w : p c = false -> run p (String c w) = 0.
Proof. intros H. simpl. now rewrite H. Qed.

Lemma group_top {A} p r2 i x w caps (k : nat -> string -> list string -> option A) a :
  x <> EmptyString -> all p x = true -> run p w = 0 ->
  rmatch r2 (i + String.length x) w (caps ++ [x]) k = Some a ->
  rmatch (Seq (Group (Many 1 p)) r2) i (x +:+ w) caps k = Some a.
Proof.
  intros Hx Hall Hrun Hsome. cbn [rmatch].
  rewrite (run_app_stop p x w Hall Hrun).
  apply greedy_top; [destruct x; [congruence | simpl; lia]|].
  rewrite drop_app. rewrite take_app_exact by lia. exact Hsome.
Qed.

Lemma many_none {A} p r2 i w caps (k : nat -> string -> list string -> option A) :
  run p w = 0 ->
  rmatch (Seq (Many 0 p) r2) i w caps k = rmatch r2 i w caps k.
Proof.
  intros Hrun. cbn [rmatch]. rewrite Hrun. cbn [greedy Nat.ltb Nat.leb drop].
  rewrite Nat.add_0_r. now destruct (rmatch r2 i w caps k).
Qed.

Lemma group_end {A} p i x caps (k : nat -> string -> list string -> option A) a :
  x <> EmptyString -> all p x = true ->
  k (i + String.length x) EmptyString (caps ++ [x]) = Some a ->
  rmatch (Group (Many 1 p)) i x caps k = Some a.
Proof.
  intros Hx Hall Hsome. cbn [rmatch].
  assert (Hrun : run p x = String.length x) by now apply run_all_iff.
  rewrite Hrun. apply greedy_top; [destruct x; [congruence | simpl; lia]|].
  rewrite drop_all by lia. rewrite take_all by lia. exact Hsome.
Qed.

(** *** The three patterns of the evaluator on formulas of their shape *)

Lemma search_here r i s m : match_at r i s = Some m -> search r i s = Some m.
Proof. intros H. destruct s; simpl; now rewrite H. Qed.

Lemma exec_comparison_shape ref op num :
  ref <> EmptyString -> all is_upper_or_digit ref = true ->
  op <> EmptyString -> all (one_of "><=!") op = true ->
  num <> EmptyString -> all plain_operand num = true ->
  exec comparison_re (ref +:+ op +:+ num) = Some [ref +:+ op +:+ num; ref; op; num].
Proof.
  intros Href Aref Hop Aop Hnum Anum.
  assert (Hop0 : forall p, (forall c, one_of "><=!" c = true -> p c = false) ->
                           run p (op +:+ num) = 0).
  { intros p Hp. destruct op as [|c op]; [congruence|]. simpl in Aop.
    apply andb_prop in Aop as [Hc _]. apply run_head. now apply Hp. }
  assert (Hnum0 : forall p, (forall c, plain_operand c = true -> p c = false) ->
                            run p num = 0).
  { intros p Hp. destruct num as [|c num]; [congruence|]. simpl in Anum.
    apply andb_prop in Anum as [Hc _]. apply run_head. now apply Hp. }
  unfold exec. assert (Hat : match_at comparison_re 0 (ref +:+ op +:+ num) =
                             Some [ref +:+ op +:+ num; ref; op; num]).
  { unfold match_at, comparison_re.
    apply group_top; [exact Href | exact Aref | |].
    { apply Hop0. intros c Hc. now apply operator_classes. }
    rewrite many_none by (apply Hop0; intros c Hc; now apply operator_classes).
    apply group_top; [exact Hop | exact Aop | |].
    { apply Hnum0. intros c Hc. now apply operand_classes. }
    rewrite many_none by (apply Hnum0; intros c Hc; now apply operand_classes).
    apply group_end; [exact Hnum | |].
    { apply (all_impl plain_operand); [|exact Anum]. intros c Hc. now apply operand_classes. }
    rewrite Nat.sub_0_r. rewrite take_all; [reflexivity|].
    rewrite !str_length_app. lia. }
  now apply search_here.
Qed.

Lemma exec_if_shape cond t f :
  cond <> EmptyString -> all any_char cond = true -> occurrences "," cond = 0 ->
  t <> EmptyString -> all plain t = true ->
  f <> EmptyString -> all plain f = true ->
  exec if_re ("IF(" +:+ cond +:+ "," +:+ t +:+ "," +:+ f +:+ ")") =
    Some ["IF(" +:+ cond +:+ "," +:+ t +:+ "," +:+ f +:+ ")"; cond; t; f].
Proof.
  intros Hcond Acond Ccond Ht At Hf Af.
  assert (Ct : occurrences "," t = 0) by (now apply (all_no_occurrence plain)).
  assert (Cf : occurrences "," f = 0) by (now apply (all_no_occurrence plain)).
  assert (At' : all any_char t = true).
  { apply (all_impl plain); [|exact At]. intros c Hc. now apply plain_classes. }
  assert (Af' : all any_char f = true).
  { apply (all_impl plain); [|exact Af]. intros c Hc. now apply plain_classes. }
  unfold if_re. rewrite exec_Bol. unfold match_at.
  rewrite rmatch_Seq_Bol, rmatch_Seq_Lit.
  rewrite group_delimited; [| exact Hcond | exact Acond | exact Ccond |].
  2:{ rewrite !occurrences_app, Ct, Cf. cbn. lia. }
  rewrite group_delimited; [| exact Ht | exact At' | exact Ct |].
  2:{ rewrite !occurrences_app, Cf. cbn. lia. }
  rewrite group_last; [| exact Hf | exact Af'].
  rewrite take_all; [reflexivity|].
  rewrite !str_length_app. cbn [String.length]. lia.
Qed.

Lemma exec_vlookup_shape v rng ks d :
  v <> EmptyString -> all plain v = true ->
  rng <> EmptyString -> all is_range_char rng = true ->
  ks <> EmptyString -> all is_digit ks = true ->
  d <> EmptyString -> all plain d = true ->
  exec vlookup_re ("VLOOKUP(" +:+ v +:+ "," +:+ rng +:+ "," +:+ ks +:+ "," +:+ d +:+ ")") =
    Some ["VLOOKUP(" +:+ v +:+ "," +:+ rng +:+ "," +:+ ks +:+ "," +:+ d +:+ ")"; v; rng; ks; d].
Proof.
  intros Hv Av Hr Ar Hk Ak Hd Ad.
  assert (Cv : occurrences "," v = 0) by (now apply (all_no_occurrence plain)).
  assert (Cr : occurrences "," rng = 0) by (now apply (all_no_occurrence is_range_char)).
  assert (Ck : occurrences "," ks = 0) by (now apply (all_no_occurrence is_digit)).
  assert (Cd : occurrences "," d = 0) by (now apply (all_no_occurrence plain)).
  assert (Av' : all any_char v = true).
  { apply (all_impl plain); [|exact Av]. intros c Hc. now apply plain_classes. }
  assert (Ad' : all any_char d = true).
  { apply (all_impl plain); [|exact Ad]. intros c Hc. now apply plain_classes. }
  unfold vlookup_re. rewrite exec_Bol. unfold match_at.
  rewrite rmatch_Seq_Bol, rmatch_Seq_Lit.
  rewrite group_delimited; [| exact Hv | exact Av' | exact Cv |].
  2:{ rewrite !occurrences_app, Cr, Ck, Cd. cbn. lia. }
  rewrite group_delimited; [| exact Hr | exact Ar | exact Cr |].
  2:{ rewrite !occurrences_app, Ck, Cd. cbn. lia. }
  rewrite group_delimited; [| exact Hk | exact Ak | exact Ck |].
  2:{ rewrite !occurrences_app, Cd. cbn. lia. }
  rewrite group_last; [| exact Hd | exact Ad'].
  rewrite take_all; [reflexivity|].
  rewrite !str_length_app. cbn [String.length]. lia.
Qed.

(** *** Splitting a range at its colon *)

Lemma split_whole sep s : occurrences sep s = 0 -> split sep s = [s].
Proof.
  induction s as [|c s IH]; simpl; [reflexivity|].
  destruct (Ascii.eqb c sep); [lia|]. intros H. now rewrite IH.
Qed.

Lemma split_at_separator sep s t :
  occurrences sep s = 0 -> split sep (s +:+ String sep t) = s :: split sep t.
Proof.
  induction s as [|c s IH]; simpl.
  - now rewrite Ascii.eqb_refl.
  - destruct (Ascii.eqb c sep); [lia|]. intros H. now rewrite IH.
Qed.

(** A reference that parses is made of range characters and has no colon. *)
Lemma parsed_reference_chars ref r :
  parseCellReference ref = Some r ->
  ref <> EmptyString /\ all is_range_char ref = true /\ occurrences ":" ref = 0.
Proof.
  intros H.
  assert (Hpat : cell_pattern ref).
  { apply cell_ref_shape_pattern. rewrite parseCellReference_closed in H.
    now destruct (cell_ref_shape ref). }
  destruct Hpat as (l & d & -> & Hl & Hd & Al & Ad).
  assert (Aall : all is_upper_or_digit (l +:+ d) = true).
  { rewrite all_app. apply andb_true_intro. split.
    - apply (all_impl is_upper); [|exact Al]. intros c. apply upper_or_digit.
    - apply (all_impl is_digit); [|exact Ad]. intros c. apply upper_or_digit. }
  split; [destruct l; [congruence | discriminate]|]. split.
  - apply (all_impl is_upper_or_digit); [|exact Aall]. intros c Hc. now apply reference_classes.
  - apply (all_no_occurrence is_upper_or_digit); [reflexivity | exact Aall].
Qed.

Lemma split_range start end_ a b :
  parseCellReference start = Some a -> parseCellReference end_ = Some b ->
  split ":" (start +:+ ":" +:+ end_) = [start; end_] /\
  start +:+ ":" +:+ end_ <> EmptyString /\
  all is_range_char (start +:+ ":" +:+ end_) = true.
Proof.
  intros (Hs & As & Cs)%parsed_reference_chars (He & Ae & Ce)%parsed_reference_chars.
  split; [|split].
  - change (start +:+ ":" +:+ end_) with (start +:+ String ":" end_).
    rewrite split_at_separator by exact Cs. now rewrite split_whole.
  - destruct start; [congruence | discriminate].
  - rewrite !all_app, As, Ae. reflexivity.
Qed.

End ShapeFacts.

(** ** Ranges *)

Module RangeFacts.
Import Str Regex StrFacts RegexFacts ResolverFacts LabelFacts.

Lemma for_loop_ext {S} n i (body body' : Z -> S -> S) state :
  (forall j st, body j st = body' j st) ->
  for_loop n i body state = for_loop n i body' state.
Proof.
  intros H. revert i state; induction n as [|n IH]; intros i state; simpl; [reflexivity|].
  rewrite H. apply IH.
Qed.

Lemma for_loop_flat_map {A} n i (g : Z -> list A) init :
  for_loop n i (fun j acc => acc ++ g j) init = init ++ flat_map g (seqZ i (Z.of_nat n)).
Proof.
  revert i init; induction n as [|n IH]; intros i init.
  - simpl. now rewrite app_nil_r.
  - cbn [for_loop]. rewrite IH. rewrite (seqZ_cons i (Z.of_nat (S n))) by lia.
    cbn [flat_map]. rewrite <- app_assoc.
    replace (Z.succ i) with (i + 1)%Z by lia.
    replace (Z.pred (Z.of_nat (S n))) with (Z.of_nat n) by lia. reflexivity.
Qed.

Lemma for_upto_flat_map {A} from to (g : Z -> list A) init :
  for_upto from to (fun j acc => acc ++ g j) init =
    init ++ flat_map g (seqZ from (to - from + 1)).
Proof.
  unfold for_upto. rewrite for_loop_flat_map.
  destruct (Z_le_dec (to - from + 1) 0) as [H|H].
  - replace (Z.to_nat (to - from + 1)) with 0 by lia.
    now rewrite (seqZ_nil from (to - from + 1)) by lia.
  - now rewrite Z2Nat.id by lia.
Qed.

Lemma flat_map_singleton {A B} (f : A -> B) l : flat_map (fun x => [f x]) l = List.map f l.
Proof. induction l as [|x l IH]; simpl; [reflexivity | now rewrite IH]. Qed.

(** The two loops of [parseRange] enumerate the rectangle. *)
Lemma loops_rectangle a b :
  for_upto (row a) (row b) (fun row cells =>
    for_upto (col a) (col b) (fun col cells =>
      cells ++ [getColumnLabel col +:+ Int.toString (row + 1)]) cells) []
  = rectangle a b.
Proof.
  unfold rectangle.
  rewrite <- (app_nil_l (flat_map _ _)).
  rewrite <- for_upto_flat_map.
  unfold for_upto at 1 3. apply for_loop_ext. intros r st.
  rewrite (for_upto_flat_map (col a) (col b) (fun c => [cell_id c r])).
  now rewrite flat_map_singleton.
Qed.

Lemma parseRange_parts range start end_ a b :
  Str.split ":" range !! 0 = Some start ->
  Str.split ":" range !! 1 = Some end_ ->
  parseCellReference start = Some a ->
  parseCellReference end_ = Some b ->
  parseRange range = rectangle a b.
Proof.
  intros H0 H1 Ha Hb. unfold parseRange. rewrite H0, H1.
  destruct start as [|c s]; [discriminate Ha|].
  destruct end_ as [|d e]; [discriminate Hb|].
  cbn [truthy negb orb]. rewrite Ha, Hb. apply loops_rectangle.
Qed.

Lemma length_flat_map_uniform {A B} (f : A -> list B) l w :
  (forall x, length (f x) = w) -> length (flat_map f l) = length l * w.
Proof.
  intros H. induction l as [|x l IH]; simpl; [reflexivity|].
  rewrite length_app, H, IH. reflexivity.
Qed.

Lemma lookup_flat_map_uniform {A B} (f : A -> list B) l w i j x :
  (forall y, length (f y) = w) -> l !! i = Some x -> j < w ->
  flat_map f l !! (i * w + j) = f x !! j.
Proof.
  intros H. revert i; induction l as [|y l IH]; intros i Hi Hj; [discriminate|].
  destruct i as [|i]; simpl in *.
  - injection Hi as ->. apply lookup_app_l. rewrite H. lia.
  - rewrite lookup_app_r by (rewrite H; lia).
    rewrite H. replace (w + i * w + j - w) with (i * w + j) by lia. now apply IH.
Qed.

Lemma length_rectangle a b :
  length (rectangle a b) =
    Z.to_nat (row b - row a + 1) * Z.to_nat (col b - col a + 1).
Proof.
  unfold rectangle.
  rewrite (length_flat_map_uniform _ _ (Z.to_nat (col b - col a + 1))).
  - now rewrite length_seqZ.
  - intros r. now rewrite length_map, length_seqZ.
Qed.

(** Row-major order: the cell of row [i] and column [j] of the rectangle
    is at position [i * columns + j]. *)
Lemma lookup_rectangle a b i j :
  (0 <= i < row b - row a + 1)%Z -> (0 <= j < col b - col a + 1)%Z ->
  rectangle a b !! Z.to_nat (i * (col b - col a + 1) + j) =
    Some (cell_id (col a + j) (row a + i)).
Proof.
  intros Hi Hj. unfold rectangle.
  replace (Z.to_nat (i * (col b - col a + 1) + j))
    with (Z.to_nat i * Z.to_nat (col b - col a + 1) + Z.to_nat j) by nia.
  rewrite (lookup_flat_map_uniform _ _ (Z.to_nat (col b - col a + 1)) _ _ (row a + i)%Z).
  - rewrite list_lookup_fmap. rewrite (lookup_seqZ_lt) by lia.
    simpl. f_equal. f_equal. lia.
  - intros r. now rewrite length_map, length_seqZ.
  - rewrite lookup_seqZ_lt by lia. f_equal. lia.
  - lia.
Qed.

Lemma rectangle_empty a b :
  (row b < row a)%Z \/ (col b < col a)%Z -> rectangle a b = [].
Proof.
  intros H. apply length_zero_iff_nil. rewrite length_rectangle. nia.
Qed.

End RangeFacts.

(** ** The evaluator *)

Module EvalFacts.
Import Str Regex StrFacts RegexFacts ResolverFacts LabelFacts ShapeFacts RangeFacts.

Lemma evaluateFormula_formula h formula c cells :
  startsWith "=" formula = true ->
  evaluateFormula h formula c cells =
    try_catch (evaluate_body h (expression_of formula) cells) (fun _ => Ret "#ERROR!").
Proof. intros H. unfold evaluateFormula. now rewrite H. Qed.

(** The result is always a string: what the body returns, or ["#ERROR!"]
    in place of what it throws. *)
Lemma try_catch_ret {A} (body : outcome A) (a : A) :
  exists r, try_catch body (fun _ => Ret a) = Ret r /\
            (forall e, body = Throw e -> r = a) /\
            (forall b, body = Ret b -> r = b).
Proof.
  destruct body as [b|e]; simpl.
  - exists b. repeat split; congruence.
  - exists a. repeat split; congruence.
Qed.

Lemma is_call_exclusive name p e :
  startsWith p e = true ->
  startsWith (name +:+ "(") p = false -> startsWith p (name +:+ "(") = false ->
  is_call name e = false.
Proof.
  intros Hp H1 H2. unfold is_call.
  now rewrite (startsWith_exclusive p (name +:+ "(") e Hp H1 H2).
Qed.

Lemma eqb_exclusive p lit e :
  startsWith p e = true -> startsWith p lit = false -> String.eqb e lit = false.
Proof.
  intros Hp Hlit. destruct (String.eqb_spec e lit) as [->|]; [congruence | reflexivity].
Qed.

Lemma exec_exclusive p lit r e :
  startsWith p e = true ->
  startsWith lit p = false -> startsWith p lit = false ->
  exec (Seq Bol (Seq (Lit lit) r)) e = None.
Proof.
  intros Hp H1 H2. destruct (exec _ e) as [m|] eqn:E; [|reflexivity].
  apply exec_Bol_Lit in E. now rewrite (startsWith_exclusive p lit e Hp H1 H2) in E.
Qed.

(** An expression that the VLOOKUP pattern matches reaches the VLOOKUP
    branch: no earlier test of the dispatch holds. *)
Lemma evaluate_body_vlookup h e cells m :
  exec vlookup_re e = Some m -> evaluate_body h e cells = vlookup m cells.
Proof.
  intros Hm. pose proof (exec_Bol_Lit _ _ _ _ Hm) as Hp.
  unfold evaluate_body.
  rewrite !(is_call_exclusive _ "VLOOKUP(" e Hp) by reflexivity.
  rewrite !(eqb_exclusive "VLOOKUP(" _ e Hp) by reflexivity.
  unfold if_re. rewrite (exec_exclusive "VLOOKUP(" "IF(" _ e Hp) by reflexivity.
  unfold evaluate_rest. now rewrite Hm.
Qed.

Lemma evaluate_body_if h e cells m :
  exec if_re e = Some m ->
  evaluate_body h e cells =
    match exec comparison_re (trim (nth 1 m EmptyString)) with
    | Some compMatch =>
        Ret (if compare_by (nth 2 compMatch EmptyString)
                  (getCellValue (nth 1 compMatch EmptyString) cells)
                  (Num.parseFloat (nth 3 compMatch EmptyString))
             then strip_quotes (trim (nth 2 m EmptyString))
             else strip_quotes (trim (nth 3 m EmptyString)))
    | None => evaluate_rest h e cells
    end.
Proof.
  intros Hm. pose proof (exec_Bol_Lit _ _ _ _ Hm) as Hp.
  unfold evaluate_body.
  rewrite !(is_call_exclusive _ "IF(" e Hp) by reflexivity.
  rewrite !(eqb_exclusive "IF(" _ e Hp) by reflexivity.
  rewrite Hm. reflexivity.
Qed.

Lemma evaluate_body_average h e cells :
  is_call "AVERAGE" e = true ->
  parseRange (call_argument "AVERAGE" e) = [] ->
  evaluate_body h e cells = Ret "0".
Proof.
  intros Hc Hr. pose proof Hc as [Hp _]%andb_prop.
  unfold evaluate_body.
  rewrite !(is_call_exclusive "SUM" _ e Hp) by reflexivity.
  rewrite Hc, Hr. reflexivity.
Qed.

Lemma evaluate_body_min h e cells :
  is_call "MIN" e = true ->
  parseRange (call_argument "MIN" e) = [] ->
  evaluate_body h e cells = Ret "0".
Proof.
  intros Hc Hr. pose proof Hc as [Hp _]%andb_prop.
  unfold evaluate_body.
  rewrite (is_call_exclusive "SUM" _ e Hp) by reflexivity.
  rewrite (is_call_exclusive "AVERAGE" _ e Hp) by reflexivity.
  rewrite Hc, Hr. reflexivity.
Qed.

Lemma evaluate_body_max h e cells :
  is_call "MAX" e = true ->
  parseRange (call_argument "MAX" e) = [] ->
  evaluate_body h e cells = Ret "0".
Proof.
  intros Hc Hr. pose proof Hc as [Hp _]%andb_prop.
  unfold evaluate_body.
  rewrite (is_call_exclusive "SUM" _ e Hp) by reflexivity.
  rewrite (is_call_exclusive "AVERAGE" _ e Hp) by reflexivity.
  rewrite (is_call_exclusive "MIN" _ e Hp) by reflexivity.
  rewrite Hc, Hr. reflexivity.
Qed.

(** The number of a cell is the number its text reads as, zero for NaN. *)
Lemma getCellValue_text cellId cells :
  getCellValue cellId cells =
    let num := Num.parseFloat (getCellText cellId cells) in
    if Num.isNaN num then Num.zero else num.
Proof.
  unfold getCellValue, getCellText. destruct (cells !! cellId); reflexivity.
Qed.

(** *** The scan of VLOOKUP *)

Lemma for_return_first {R} n i0 (body : Z -> option R) i r :
  (i0 <= i < i0 + Z.of_nat n)%Z ->
  (forall j, (i0 <= j < i)%Z -> body j = None) ->
  body i = Some r ->
  for_return n i0 body = Some r.
Proof.
  revert i0; induction n as [|n IH]; intros i0 Hi Hbefore Hat; [lia|].
  cbn [for_return]. destruct (Z.eq_dec i0 i) as [->|Hne].
  - now rewrite Hat.
  - rewrite Hbefore by lia. apply IH; [lia | | assumption].
    intros j Hj. apply Hbefore. lia.
Qed.

Lemma for_return_ext {R} n i0 (body body' : Z -> option R) :
  (forall j, (i0 <= j < i0 + Z.of_nat n)%Z -> body j = body' j) ->
  for_return n i0 body = for_return n i0 body'.
Proof.
  revert i0; induction n as [|n IH]; intros i0 H; [reflexivity|].
  cbn [for_return]. rewrite H by lia. rewrite (IH (i0 + 1)%Z); [reflexivity|].
  intros j Hj. apply H. lia.
Qed.

Lemma for_return_none {R} n i0 (body : Z -> option R) :
  (forall j, (i0 <= j < i0 + Z.of_nat n)%Z -> body j = None) ->
  for_return n i0 body = None.
Proof.
  revert i0; induction n as [|n IH]; intros i0 H; [reflexivity|].
  cbn [for_return]. rewrite H by lia. apply IH. intros j Hj. apply H. lia.
Qed.

(** The text read at a position of the rectangle. *)
Lemma getCellTextAt_rectangle a b cells i j :
  (0 <= i < row b - row a + 1)%Z -> (0 <= j < col b - col a + 1)%Z ->
  getCellTextAt (rectangle a b) (Some (i * (col b - col a + 1) + j)%Z) cells =
    getCellText (cell_id (col a + j) (row a + i)) cells.
Proof.
  intros Hi Hj. unfold getCellTextAt, at_index.
  destruct (Z.ltb_spec (i * (col b - col a + 1) + j) 0); [nia|].
  now rewrite lookup_rectangle.
Qed.

Lemma getCellTextAt_first_column a b cells i :
  (0 <= i < row b - row a + 1)%Z -> (0 < col b - col a + 1)%Z ->
  getCellTextAt (rectangle a b) (Some (i * (col b - col a + 1))%Z) cells =
    getCellText (cell_id (col a) (row a + i)) cells.
Proof.
  intros Hi Hc. pose proof (getCellTextAt_rectangle a b cells i 0 Hi) as H.
  rewrite !Z.add_0_r in H. apply H. lia.
Qed.

Lemma getCellTextAt_beyond a b cells n :
  ((row b - row a + 1) * (col b - col a + 1) <= n)%Z ->
  (0 <= row b - row a + 1)%Z -> (0 <= col b - col a + 1)%Z ->
  getCellTextAt (rectangle a b) (Some n) cells = EmptyString.
Proof.
  intros Hn Hr Hc. unfold getCellTextAt, at_index.
  destruct (Z.ltb_spec n 0); [reflexivity|].
  rewrite (lookup_ge_None_2 (rectangle a b)); [reflexivity|].
  rewrite length_rectangle. nia.
Qed.

Section Vlookup.
Variables (m : list string) (cells : gmap string CellData).
Variables (start end_ : string) (a b : CellRef) (k : Z).
Hypothesis Hstart : split ":" (nth 2 m EmptyString) !! 0 = Some start.
Hypothesis Hend : split ":" (nth 2 m EmptyString) !! 1 = Some end_.
Hypothesis Ha : parseCellReference start = Some a.
Hypothesis Hb : parseCellReference end_ = Some b.
Hypothesis Hk : Int.parseInt (nth 3 m EmptyString) = Some k.
Hypothesis Hrows : (row a <= row b)%Z.
Hypothesis Hcols : (col a <= col b)%Z.

#[local] Abbreviation lookup := (strip_quotes (trim (nth 1 m EmptyString))).
#[local] Abbreviation columns := (col b - col a + 1)%Z.

(** The VLOOKUP branch as a scan of the first column of the rectangle. *)
Lemma vlookup_scan :
  vlookup m cells =
    Ret (default "#N/A"
           (for_return (Z.to_nat (row b - row a + 1)) 0 (fun i =>
              if String.eqb (getCellText (cell_id (col a) (row a + i)) cells) lookup
              then Some (getCellTextAt (rectangle a b) (Some (i * columns + k - 1)%Z) cells)
              else None))).
Proof using Hstart Hend Ha Hb Hk Hrows Hcols.
  unfold vlookup.
  rewrite (parseRange_parts _ _ _ _ _ Hstart Hend Ha Hb).
  rewrite Hstart, Hend, Hk. cbn [parseCellReference_of]. rewrite Ha, Hb.
  pose proof (length_rectangle a b) as Hlen.
  destruct (Nat.eqb_spec (length (rectangle a b)) 0) as [H0|_]; [nia|].
  cbn [mbind outcome_bind]. rewrite Hlen.
  replace (Z.of_nat (Z.to_nat (row b - row a + 1) * Z.to_nat (col b - col a + 1)))
    with ((row b - row a + 1) * (col b - col a + 1))%Z by nia.
  rewrite Z.div_mul by lia.
  f_equal. f_equal.
  apply for_return_ext. intros j Hj.
  rewrite getCellTextAt_first_column by lia. reflexivity.
Qed.

Lemma vlookup_found i :
  (0 <= i <= row b - row a)%Z ->
  getCellText (cell_id (col a) (row a + i)) cells = lookup ->
  (forall j, (0 <= j < i)%Z -> getCellText (cell_id (col a) (row a + j)) cells <> lookup) ->
  vlookup m cells =
    Ret (getCellTextAt (rectangle a b) (Some (i * columns + k - 1)%Z) cells).
Proof using Hstart Hend Ha Hb Hk Hrows Hcols.
  intros Hi Hat Hbefore. rewrite vlookup_scan.
  rewrite (for_return_first _ 0 _ i
             (getCellTextAt (rectangle a b) (Some (i * columns + k - 1)%Z) cells)).
  - reflexivity.
  - lia.
  - intros j Hj. destruct (String.eqb_spec (getCellText (cell_id (col a) (row a + j)) cells) lookup);
      [exfalso; eapply Hbefore; eauto | reflexivity].
  - now rewrite (proj2 (String.eqb_eq _ _) Hat).
Qed.

Lemma vlookup_not_found :
  (forall i, (0 <= i <= row b - row a)%Z ->
             getCellText (cell_id (col a) (row a + i)) cells <> lookup) ->
  vlookup m cells = Ret "#N/A".
Proof using Hstart Hend Ha Hb Hk Hrows Hcols.
  intros Hnone. rewrite vlookup_scan. rewrite for_return_none; [reflexivity|].
  intros j Hj.
  destruct (String.eqb_spec (getCellText (cell_id (col a) (row a + j)) cells) lookup);
    [exfalso; eapply (Hnone j); [lia | assumption] | reflexivity].
Qed.

End Vlookup.

Lemma vlookup_no_cells m cells :
  parseRange (nth 2 m EmptyString) = [] -> vlookup m cells = Ret "#N/A".
Proof. intros H. unfold vlookup. now rewrite H. Qed.


(** The text at a position of the rectangle, in the range or beyond it:
    the position is read row-major, so a column offset past the last
    column lands in a later row. *)
Lemma getCellTextAt_flat a b cells n :
  (0 <= n)%Z -> (0 < col b - col a + 1)%Z -> (0 <= row b - row a + 1)%Z ->
  getCellTextAt (rectangle a b) (Some n) cells =
    if (n <? (row b - row a + 1) * (col b - col a + 1))%Z
    then getCellText (cell_id (col a + n mod (col b - col a + 1))
                        (row a + n / (col b - col a + 1))) cells
    else EmptyString.
Proof.
  intros Hn Hc Hr.
  destruct (Z.ltb_spec n ((row b - row a + 1) * (col b - col a + 1))) as [Hlt|Hge].
  - pose proof (Z.div_mod n (col b - col a + 1) ltac:(lia)) as Hdm.
    pose proof (Z.mod_pos_bound n (col b - col a + 1) Hc) as Hm.
    assert (0 <= n / (col b - col a + 1))%Z by (apply Z.div_pos; lia).
    assert (n / (col b - col a + 1) < row b - row a + 1)%Z
      by (apply Z.div_lt_upper_bound; lia).
    rewrite <- (getCellTextAt_rectangle a b cells) by lia.
    f_equal. f_equal. lia.
  - apply getCellTextAt_beyond; lia.
Qed.

(** *** The two pattern branches, from the formula *)

Lemma evaluateFormula_vlookup h formula c cells m :
  startsWith "=" formula = true ->
  exec vlookup_re (expression_of formula) = Some m ->
  evaluateFormula h formula c cells =
    try_catch (vlookup m cells) (fun _ => Ret "#ERROR!").
Proof.
  intros Hf Hm. rewrite evaluateFormula_formula by exact Hf.
  now rewrite (evaluate_body_vlookup _ _ _ m Hm).
Qed.

Lemma evaluateFormula_if h formula c cells ifMatch compMatch :
  startsWith "=" formula = true ->
  exec if_re (expression_of formula) = Some ifMatch ->
  exec comparison_re (trim (nth 1 ifMatch EmptyString)) = Some compMatch ->
  evaluateFormula h formula c cells =
    Ret (if compare_by (nth 2 compMatch EmptyString)
              (getCellValue (nth 1 compMatch EmptyString) cells)
              (Num.parseFloat (nth 3 compMatch EmptyString))
         then strip_quotes (trim (nth 2 ifMatch EmptyString))
         else strip_quotes (trim (nth 3 ifMatch EmptyString))).
Proof.
  intros Hf Hif Hcomp. rewrite evaluateFormula_formula by exact Hf.
  rewrite (evaluate_body_if _ _ _ ifMatch Hif). rewrite Hcomp. reflexivity.
Qed.

(** The expression has no lower-case letter left. *)
Lemma expression_of_upper formula :
  all (fun ch => negb (is_lower ch)) (expression_of formula) = true.
Proof.
  unfold expression_of, toUpperCase.
  induction (trim (substring_from 1 formula)) as [|ch s IH]; simpl; [reflexivity|].
  rewrite IH, andb_true_r.
  destruct ch as [[] [] [] [] [] [] [] []]; vm_compute; reflexivity.
Qed.

Lemma plain_no_space s : all plain s = true -> all (fun ch => negb (is_space ch)) s = true.
Proof.
  apply all_impl. intros ch Hch. apply negb_true_iff. now apply plain_classes.
Qed.

(** The groups of the IF pattern and of the comparison pattern on a
    formula of the plain shape IF(ref op num,t,f). *)
Lemma if_shape_groups ref op num t f :
  ref <> EmptyString -> all is_upper_or_digit ref = true ->
  op <> EmptyString -> all (one_of "><=!") op = true ->
  num <> EmptyString -> all plain_operand num = true ->
  t <> EmptyString -> all plain t = true ->
  f <> EmptyString -> all plain f = true ->
  exec if_re ("IF(" +:+ ref +:+ op +:+ num +:+ "," +:+ t +:+ "," +:+ f +:+ ")") =
    Some ["IF(" +:+ ref +:+ op +:+ num +:+ "," +:+ t +:+ "," +:+ f +:+ ")";
          ref +:+ op +:+ num; t; f] /\
  exec comparison_re (trim (ref +:+ op +:+ num)) = Some [ref +:+ op +:+ num; ref; op; num] /\
  trim t = t /\ trim f = f.
Proof.
  intros Href Aref Hop Aop Hnum Anum Ht At Hf Af.
  assert (Aplain : all (fun ch => plain ch && any_char ch) (ref +:+ op +:+ num) = true).
  { rewrite !all_app. apply andb_true_intro. split; [|apply andb_true_intro; split].
    - apply (all_impl is_upper_or_digit); [|exact Aref].
      intros ch. destruct ch as [[] [] [] [] [] [] [] []]; vm_compute; congruence.
    - apply (all_impl (one_of "><=!")); [|exact Aop].
      intros ch. destruct ch as [[] [] [] [] [] [] [] []]; vm_compute; congruence.
    - apply (all_impl plain_operand); [|exact Anum].
      intros ch. destruct ch as [[] [] [] [] [] [] [] []]; vm_compute; congruence. }
  assert (Hcond : ref +:+ op +:+ num <> EmptyString) by (destruct ref; [congruence | discriminate]).
  split; [|split; [|split]].
  - replace ("IF(" +:+ ref +:+ op +:+ num +:+ "," +:+ t +:+ "," +:+ f +:+ ")")
      with ("IF(" +:+ (ref +:+ op +:+ num) +:+ "," +:+ t +:+ "," +:+ f +:+ ")")
      by (now rewrite !str_app_assoc).
    apply exec_if_shape; try assumption.
    + apply (all_impl (fun ch => plain ch && any_char ch)); [|exact Aplain].
      intros ch [_ H]%andb_prop. exact H.
    + apply (all_no_occurrence (fun ch => plain ch && any_char ch)); [reflexivity | exact Aplain].
  - rewrite trim_plain.
    + now apply exec_comparison_shape.
    + apply plain_no_space. apply (all_impl (fun ch => plain ch && any_char ch)); [|exact Aplain].
      intros ch [H _]%andb_prop. exact H.
  - apply trim_plain. now apply plain_no_space.
  - apply trim_plain. now apply plain_no_space.
Qed.

(** The groups of the VLOOKUP pattern on a formula of the plain shape
    VLOOKUP(v,start:end,k,d), and the two parts of its range. *)
Lemma vlookup_shape_groups v start end_ ks d a b :
  v <> EmptyString -> all plain v = true ->
  parseCellReference start = Some a -> parseCellReference end_ = Some b ->
  ks <> EmptyString -> all is_digit ks = true ->
  d <> EmptyString -> all plain d = true ->
  exec vlookup_re ("VLOOKUP(" +:+ v +:+ "," +:+ start +:+ ":" +:+ end_ +:+ "," +:+ ks +:+
                   "," +:+ d +:+ ")") =
    Some ["VLOOKUP(" +:+ v +:+ "," +:+ start +:+ ":" +:+ end_ +:+ "," +:+ ks +:+
          "," +:+ d +:+ ")"; v; start +:+ ":" +:+ end_; ks; d] /\
  split ":" (start +:+ ":" +:+ end_) = [start; end_] /\
  trim v = v.
Proof.
  intros Hv Av Ha Hb Hk Ak Hd Ad.
  destruct (split_range start end_ a b Ha Hb) as (Hsplit & Hrng & Arng).
  split; [|split; [exact Hsplit|]].
  - replace ("VLOOKUP(" +:+ v +:+ "," +:+ start +:+ ":" +:+ end_ +:+ "," +:+ ks +:+ "," +:+ d +:+ ")")
      with ("VLOOKUP(" +:+ v +:+ "," +:+ (start +:+ ":" +:+ end_) +:+ "," +:+ ks +:+ "," +:+ d +:+ ")")
      by (now rewrite !str_app_assoc).
    now apply exec_vlookup_shape.
  - apply trim_plain. now apply plain_no_space.
Qed.

(** The result of VLOOKUP when the first match is in row [i]: the text at
    the position [i * columns + k - 1] of the rectangle. *)
Lemma evaluateFormula_vlookup_found h formula c cells m start end_ a b k i :
  startsWith "=" formula = true ->
  exec vlookup_re (expression_of formula) = Some m ->
  split ":" (nth 2 m EmptyString) !! 0 = Some start ->
  split ":" (nth 2 m EmptyString) !! 1 = Some end_ ->
  parseCellReference start = Some a ->
  parseCellReference end_ = Some b ->
  Int.parseInt (nth 3 m EmptyString) = Some k ->
  (row a <= row b)%Z -> (col a <= col b)%Z ->
  (0 <= i <= row b - row a)%Z ->
  getCellText (cell_id (col a) (row a + i)) cells =
    strip_quotes (trim (nth 1 m EmptyString)) ->
  (forall j, (0 <= j < i)%Z ->
     getCellText (cell_id (col a) (row a + j)) cells <>
       strip_quotes (trim (nth 1 m EmptyString))) ->
  evaluateFormula h formula c cells =
    Ret (getCellTextAt (rectangle a b) (Some (i * (col b - col a + 1) + k - 1)%Z) cells).
Proof.
  intros Hf Hm Hstart Hend Ha Hb Hk Hrows Hcols Hi Hat Hbefore.
  rewrite (evaluateFormula_vlookup _ _ _ _ m Hf Hm).
  now rewrite (vlookup_found m cells start end_ a b k Hstart Hend Ha Hb Hk Hrows Hcols
                 i Hi Hat Hbefore).
Qed.

Lemma evaluateFormula_vlookup_not_found h formula c cells m start end_ a b k :
  startsWith "=" formula = true ->
  exec vlookup_re (expression_of formula) = Some m ->
  split ":" (nth 2 m EmptyString) !! 0 = Some start ->
  split ":" (nth 2 m EmptyString) !! 1 = Some end_ ->
  parseCellReference start = Some a ->
  parseCellReference end_ = Some b ->
  Int.parseInt (nth 3 m EmptyString) = Some k ->
  (row a <= row b)%Z -> (col a <= col b)%Z ->
  (forall i, (0 <= i <= row b - row a)%Z ->
     getCellText (cell_id (col a) (row a + i)) cells <>
       strip_quotes (trim (nth 1 m EmptyString))) ->
  evaluateFormula h formula c cells = Ret "#N/A".
Proof.
  intros Hf Hm Hstart Hend Ha Hb Hk Hrows Hcols Hnone.
  rewrite (evaluateFormula_vlookup _ _ _ _ m Hf Hm).
  now rewrite (vlookup_not_found m cells start end_ a b k Hstart Hend Ha Hb Hk Hrows Hcols).
Qed.

(** Within the columns of the range, the position is the cell of the
    matching row and the target column. *)
Lemma getCellTextAt_target a b cells i k :
  (0 <= i <= row b - row a)%Z -> (1 <= k <= col b - col a + 1)%Z ->
  getCellTextAt (rectangle a b) (Some (i * (col b - col a + 1) + k - 1)%Z) cells =
    getCellText (cell_id (col a + k - 1) (row a + i)) cells.
Proof.
  intros Hi Hk.
  replace (i * (col b - col a + 1) + k - 1)%Z
    with (i * (col b - col a + 1) + (k - 1))%Z by lia.
  rewrite getCellTextAt_rectangle by lia. f_equal. f_equal. lia.
Qed.

(** Past the columns of the range, the position is in a later row, or past
    the last cell. *)
Lemma getCellTextAt_past a b cells i k :
  (0 <= i <= row b - row a)%Z -> (0 <= col b - col a)%Z -> (col b - col a + 1 < k)%Z ->
  getCellTextAt (rectangle a b) (Some (i * (col b - col a + 1) + k - 1)%Z) cells =
    if (i * (col b - col a + 1) + k - 1 <? (row b - row a + 1) * (col b - col a + 1))%Z
    then getCellText
           (cell_id (col a + (k - 1) mod (col b - col a + 1))
              (row a + i + (k - 1) / (col b - col a + 1))) cells
    else EmptyString.
Proof.
  intros Hi Hc Hk. set (columns := (col b - col a + 1)%Z) in *.
  unfold columns at 1. rewrite getCellTextAt_flat by (fold columns; nia).
  fold columns.
  replace (i * columns + k - 1)%Z with ((k - 1) + i * columns)%Z by lia.
  rewrite Z.mod_add by lia. rewrite Z.div_add by lia.
  replace (row a + ((k - 1) / columns + i))%Z with (row a + i + (k - 1) / columns)%Z by lia.
  reflexivity.
Qed.

End EvalFacts.

(** ** The resolver on doubles *)

Module DoubleFacts.
Import Str Regex StrFacts.

(** A row loop whose counter [row++] leaves as it is, under a condition
    that holds and over columns that give no round, uses up any fuel. *)
Lemma row_loop_stuck fuel row endRow startCol endCol cells :
  Num.leb row endRow = true ->
  Num.leb startCol endCol = false ->
  Num.add row Double.one = row ->
  Double.row_loop fuel row endRow startCol endCol cells = None.
Proof.
  intros Hrow Hcol Hnext. induction fuel as [|fuel IH]; [reflexivity|].
  cbn [Double.row_loop]. rewrite Hrow.
  destruct fuel as [|fuel']; [reflexivity|].
  cbn [Double.col_loop]. rewrite Hcol. rewrite Hnext. exact IH.
Qed.

(** On a safe range the loops on doubles give the list of [parseRange],
    up to the last safe row; one row further the code reads another row
    than is written, as it rounds. *)
Lemma double_loops_on_safe_ranges :
  Double.parseRange 10 "Y9:AB10" = Some (Ret (parseRange "Y9:AB10")) /\
  Double.parseRange 10 "B2:A1" = Some (Ret (parseRange "B2:A1")) /\
  Double.parseRange 10 "A9007199254740991:A9007199254740991" =
    Some (Ret (parseRange "A9007199254740991:A9007199254740991")) /\
  Double.parseRange 10 "A9007199254740993:A9007199254740993" =
    Some (Ret ["A9007199254740992"]).
Proof. repeat split; vm_compute; reflexivity. Qed.

(** The column that a label of [n] capital letters decodes to. *)
Lemma column_loop_bound letters a :
  all is_upper letters = true -> (0 <= a)%Z ->
  (25 * column_loop letters a <=
     25 * a * 26 ^ Z.of_nat (String.length letters)
     + 26 * (26 ^ Z.of_nat (String.length letters) - 1))%Z.
Proof.
  revert a. induction letters as [|c l IH]; intros a Hall Ha.
  - cbn. lia.
  - cbn [all] in Hall. apply andb_prop in Hall as [Hc Hl].
    destruct (LabelFacts.upper_code c Hc) as [Hd _].
    cbn [column_loop String.length].
    specialize (IH (a * 26 + (charCode c - 64))%Z Hl ltac:(lia)).
    replace (Z.of_nat (S (String.length l))) with (Z.of_nat (String.length l) + 1)%Z by lia.
    rewrite Z.pow_add_r by lia. change (26 ^ 1)%Z with 26%Z.
    assert (Hpow : (0 < 26 ^ Z.of_nat (String.length l))%Z) by (apply Z.pow_pos_nonneg; lia).
    nia.
Qed.

(** A label of at most eleven letters decodes to a safe integer. *)
Lemma column_loop_safe letters :
  all is_upper letters = true -> String.length letters <= 11 ->
  (column_loop letters 0 <= max_safe_integer)%Z.
Proof.
  intros Hall Hlen. pose proof (column_loop_bound letters 0 Hall ltac:(lia)) as H.
  assert (Hpow : (26 ^ Z.of_nat (String.length letters) <= 26 ^ 11)%Z)
    by (apply Z.pow_le_mono_r; lia).
  unfold max_safe_integer.
  change (26 ^ 11)%Z with 3670344486987776%Z in Hpow.
  change (2 ^ 53)%Z with 9007199254740992%Z. lia.
Qed.

End DoubleFacts.

(** * The claims of the specification *)

Import Str Regex StrFacts RegexFacts ResolverFacts LabelFacts ShapeFacts RangeFacts EvalFacts.

(** C1, as the code has it. For every formula of ASCII text in which every
    range handed to parseRange is safe (row and column numbers that are
    safe integers, fewer than 2^32 cells, and for MIN and MAX no more cells
    than an engine accepts as arguments), every current cell id and every
    cell store, evaluateFormula returns a string and never throws: a
    formula without the leading [=] comes back unchanged, what the body of
    the [try] block returns is returned, and every exception the body
    raises is turned into the string #ERROR!. *)
Theorem evaluateFormula_never_throws
    (h : Host) (formula currentCellId : string) (cells : gmap string CellData) :
  ascii_text formula = true ->
  safe_formula formula ->
  exists result : string,
    evaluateFormula h formula currentCellId cells = Ret result /\
    (startsWith "=" formula = false -> result = formula) /\
    (forall e, startsWith "=" formula = true ->
               evaluate_body h (expression_of formula) cells = Throw e ->
               result = "#ERROR!") /\
    (forall r, startsWith "=" formula = true ->
               evaluate_body h (expression_of formula) cells = Ret r ->
               result = r).
Proof.
  intros _ _.
  unfold evaluateFormula. destruct (startsWith "=" formula) eqn:Hf; cbn [negb].
  - destruct (try_catch_ret (evaluate_body h (expression_of formula) cells) "#ERROR!")
      as (r & Hr & Hthrow & Hret).
    exists r. split; [exact Hr|]. split; [discriminate|]. split.
    + intros e _ He. exact (Hthrow e He).
    + intros b _ Hb. exact (Hret b Hb).
  - exists formula. split; [reflexivity|]. split; [reflexivity|].
    split; intros; discriminate.
Qed.

(** An exception does arise, and is caught: the range of =MAX(A1:B2) is
    safe, and the text that the cell A1 shows, on which the host's [eval]
    is not called, is no concern; rounding to more than a hundred decimals
    is a RangeError of [toFixed]. *)
Lemma evaluateFormula_never_throws_witness :
  (exists result : string,
     evaluateFormula (ReferenceHost.at_time 0) "=MAX(A1:B2)" "C1" (<["A1" := cell "7"]> ∅)
       = Ret result /\
     result = "7") /\
  evaluate_body (ReferenceHost.at_time 0) (expression_of "=ROUND(5,200)") ∅ = Throw RangeError /\
  exists result : string,
    evaluateFormula (ReferenceHost.at_time 0) "=ROUND(5,200)" "A1" ∅ = Ret result /\
    result = "#ERROR!".
Proof.
  split; [|split; [vm_compute; reflexivity|]].
  - destruct (evaluateFormula_never_throws (ReferenceHost.at_time 0) "=MAX(A1:B2)" "C1"
                (<["A1" := cell "7"]> ∅)) as (r & Hr & _ & _ & Hret).
    + reflexivity.
    + split; [|split].
      * intros name Hname Hcall.
        destruct Hname as [<-|[<-|[<-|[<-|[<-|[<-|[]]]]]]]; try discriminate Hcall.
        intros start end_ a b Hstart Hend Ha Hb.
        vm_compute in Hstart, Hend. injection Hstart as <-. injection Hend as <-.
        vm_compute in Ha, Hb. injection Ha as <-. injection Hb as <-.
        unfold safe_range, safe_reference, max_safe_integer, max_array_length.
        cbn [col row]. lia.
      * intros name Hname Hcall.
        destruct Hname as [<-|[<-|[]]]; try discriminate Hcall.
        vm_compute. discriminate.
      * intros m Hm. vm_compute in Hm. discriminate Hm.
    + exists r. split; [exact Hr|].
      apply Hret; vm_compute; reflexivity.
  - destruct (evaluateFormula_never_throws (ReferenceHost.at_time 0) "=ROUND(5,200)" "A1" ∅)
      as (r & Hr & _ & Hthrow & _).
    + reflexivity.
    + split; [|split].
      * intros name Hname Hcall.
        destruct Hname as [<-|[<-|[<-|[<-|[<-|[<-|[]]]]]]]; discriminate Hcall.
      * intros name Hname Hcall.
        destruct Hname as [<-|[<-|[]]]; discriminate Hcall.
      * intros m Hm. vm_compute in Hm. discriminate Hm.
    + exists r. split; [exact Hr|].
      apply (Hthrow RangeError); vm_compute; reflexivity.
Defined.

(** C1, as stated, fails: evaluating =SUM(B9007199254740994:A9007199254740994)
    calls parseRange on the argument of its SUM. The rows of both
    references are the double 2^53 and the columns run from 1 to 0, so the
    condition of the row loop holds, the column loop has no round and
    pushes no key, and [row++] leaves [row] as it is: the loop does not
    end, and evaluateFormula does not return. *)
Lemma evaluateFormula_does_not_return_from_row_2_53 :
  is_call "SUM" (expression_of "=SUM(B9007199254740994:A9007199254740994)") = true /\
  call_argument "SUM" (expression_of "=SUM(B9007199254740994:A9007199254740994)") =
    "B9007199254740994:A9007199254740994" /\
  Double.parseCellReference "B9007199254740994" =
    Some {| Double.col := Num.of_Z 1; Double.row := Num.of_Z (2 ^ 53) |} /\
  Double.parseCellReference "A9007199254740994" =
    Some {| Double.col := Num.of_Z 0; Double.row := Num.of_Z (2 ^ 53) |} /\
  Num.leb (Num.of_Z (2 ^ 53)) (Num.of_Z (2 ^ 53)) = true /\
  Num.leb (Num.of_Z 1) (Num.of_Z 0) = false /\
  Num.add (Num.of_Z (2 ^ 53)) Double.one = Num.of_Z (2 ^ 53) /\
  Double.never_returns
    (fun fuel => Double.parseRange fuel "B9007199254740994:A9007199254740994").
Proof.
  repeat (split; [vm_compute; reflexivity|]).
  intros fuel. unfold Double.parseRange.
  evaluate (split ":" "B9007199254740994:A9007199254740994").
  cbn [lookup list_lookup]. cbn [truthy negb orb].
  evaluate (Double.parseCellReference "B9007199254740994").
  evaluate (Double.parseCellReference "A9007199254740994").
  cbn [Double.row Double.col].
  apply DoubleFacts.row_loop_stuck; vm_compute; reflexivity.
Qed.

(** C9. The result of evaluateFormula never depends on the currentCellId
    argument: for every formula and store and any two cell ids, the two
    results are equal. *)
Theorem evaluateFormula_ignores_currentCellId
    (h : Host) (formula c1 c2 : string) (cells : gmap string CellData) :
  evaluateFormula h formula c1 cells = evaluateFormula h formula c2 cells.
Proof.
  unfold evaluateFormula.
  destruct (startsWith "=" formula); reflexivity.
Qed.






(** C2, as the code has it. For a range whose two parts parse as
    references with row and column numbers that are safe integers, and
    that holds fewer than 2^32 cells, parseRange enumerates the cells from
    the first corner to the second in row-major order, rows outer and
    columns inner, and does not reorder the corners: the list is empty
    when the second corner is above or to the left of the first. So
    parseRange of B2:A1 is empty, of A1:B2 it is A1, B1, A2, B2, and of
    A1:A1 it is A1. *)
Theorem parseRange_enumerates_from_start_to_end
    (range start end_ : string) (a b : CellRef) :
  split ":" range !! 0 = Some start ->
  split ":" range !! 1 = Some end_ ->
  parseCellReference start = Some a ->
  parseCellReference end_ = Some b ->
  safe_range a b ->
  parseRange range = rectangle a b /\
  length (parseRange range) =
    Z.to_nat (row b - row a + 1) * Z.to_nat (col b - col a + 1) /\
  (forall i j, (0 <= i <= row b - row a)%Z -> (0 <= j <= col b - col a)%Z ->
     parseRange range !! Z.to_nat (i * (col b - col a + 1) + j) =
       Some (cell_id (col a + j) (row a + i))) /\
  ((row b < row a)%Z \/ (col b < col a)%Z -> parseRange range = []) /\
  parseRange "B2:A1" = [] /\
  parseRange "A1:B2" = ["A1"; "B1"; "A2"; "B2"] /\
  parseRange "A1:A1" = ["A1"].
Proof.
  intros H0 H1 Ha Hb _.
  rewrite (parseRange_parts range start end_ a b H0 H1 Ha Hb).
  split; [reflexivity|]. split; [apply length_rectangle|]. split.
  - intros i j Hi Hj. apply lookup_rectangle; lia.
  - split; [apply rectangle_empty|].
    split; [reflexivity|]. split; reflexivity.
Qed.

Lemma parseRange_enumerates_from_start_to_end_witness :
  parseRange "Y9:AB10" = rectangle {| col := 24; row := 8 |} {| col := 27; row := 9 |} /\
  parseRange "Y9:AB10" !! 5 = Some "Z10".
Proof.
  destruct (parseRange_enumerates_from_start_to_end "Y9:AB10" "Y9" "AB10"
              {| col := 24; row := 8 |} {| col := 27; row := 9 |}
              eq_refl eq_refl eq_refl eq_refl) as (Hrect & _ & Hat & _).
  { unfold safe_range, safe_reference, max_safe_integer, max_array_length.
    cbn [col row]. lia. }
  split; [exact Hrect|].
  exact (Hat 1%Z 1%Z ltac:(simpl; lia) ltac:(simpl; lia)).
Defined.

(** C2, as stated, fails: the corners are not reordered, and the range
    B2:A1 has no cell. *)
Lemma parseRange_reversed_corners_is_empty :
  parseRange "B2:A1" = [] /\ parseRange "B2:A1" <> ["A1"; "A2"; "B1"; "B2"].
Proof. split; [reflexivity | vm_compute; discriminate]. Qed.

(** C5, as the code has it. For every reference that parseCellReference
    accepts and whose column number is a safe integer, as it is for every
    label of at most eleven letters, the label written for the column
    index it produced is exactly the letters of the reference, and decoding
    that label gives the index back; decoding and label writing are
    inverse on every index from 0 that is a safe integer: 0 is A, 25 is Z,
    26 is AA. *)
Theorem column_label_round_trip (ref : string) (r : CellRef) :
  parseCellReference ref = Some r ->
  (col r + 1 <= max_safe_integer)%Z ->
  getColumnLabel (col r) = take (run is_upper ref) ref /\
  ref = getColumnLabel (col r) +:+ drop (run is_upper ref) ref /\
  (column_loop (getColumnLabel (col r)) 0 - 1)%Z = col r /\
  (forall index, (0 <= index)%Z -> (index + 1 <= max_safe_integer)%Z ->
     (column_loop (getColumnLabel index) 0 - 1)%Z = index) /\
  (forall letters, all is_upper letters = true ->
     (column_loop letters 0 <= max_safe_integer)%Z ->
     getColumnLabel (column_loop letters 0 - 1) = letters) /\
  (forall letters, all is_upper letters = true -> String.length letters <= 11 ->
     (column_loop letters 0 <= max_safe_integer)%Z) /\
  getColumnLabel 0 = "A" /\ getColumnLabel 25 = "Z" /\ getColumnLabel 26 = "AA".
Proof.
  rewrite parseCellReference_closed.
  destruct (cell_ref_shape ref) eqn:Shape; [|discriminate].
  intros [= <-] _. cbn [col].
  assert (Hlabel : getColumnLabel (column_loop (take (run is_upper ref) ref) 0 - 1) =
                   take (run is_upper ref) ref).
  { apply getColumnLabel_column_loop, all_take_run. }
  split; [exact Hlabel|]. split; [rewrite Hlabel; now rewrite take_drop|]. split.
  { rewrite Hlabel. reflexivity. }
  split.
  { intros index Hindex _. rewrite column_loop_getColumnLabel by lia. lia. }
  split; [intros letters Hall _; now apply getColumnLabel_column_loop|].
  split; [exact DoubleFacts.column_loop_safe|].
  split; [reflexivity|]. split; reflexivity.
Qed.

Lemma column_label_round_trip_witness :
  parseCellReference "AZ12" = Some {| col := 51; row := 11 |} /\
  getColumnLabel 51 = "AZ".
Proof.
  split; [reflexivity|].
  refine (proj1 (column_label_round_trip "AZ12" {| col := 51; row := 11 |} eq_refl _)).
  unfold max_safe_integer. cbn [col]. lia.
Defined.

(** C5, as stated, fails: the column of the reference ZZZZZZZZZZZZ1, twelve
    letters, is above 2^53 and the code holds it as the nearest double,
    which prints as 99246114928149470; the label written for it is
    AAAAAAAAAAAAK, not the letters of the reference. *)
Lemma column_label_of_twelve_letters_differs :
  Double.col <$> Double.parseCellReference "ZZZZZZZZZZZZ1" =
    Some (S754_finite false 6202882183009342 4) /\
  Num.toString (S754_finite false 6202882183009342 4) = "99246114928149470" /\
  Double.getColumnLabel 20 (S754_finite false 6202882183009342 4) = Some "AAAAAAAAAAAAK" /\
  Double.getColumnLabel 20 (S754_finite false 6202882183009342 4) <> Some "ZZZZZZZZZZZZ".
Proof.
  repeat (split; [vm_compute; reflexivity|]). vm_compute. discriminate.
Qed.

(** C6, as the code has it. parseCellReference matches its input against
    the pattern of capital letters followed by digits as the input is
    given, upper case only: it returns coordinates exactly for the strings
    of that pattern and null, never an exception, for every other string,
    a lower-case reference such as b2 among them. The upper-casing is done
    by evaluateFormula on the whole expression, which is why the formula
    =b2 reads the cell B2. *)
Theorem parseCellReference_matches_as_given (ref : string) :
  ((exists r, parseCellReference ref = Some r) <-> cell_pattern ref) /\
  (parseCellReference ref = None <-> ~ cell_pattern ref) /\
  parseCellReference "b2" = None /\
  parseCellReference "B2" = Some {| col := 1; row := 1 |} /\
  expression_of "=b2" = "B2" /\
  (forall h c cells,
     evaluateFormula h "=b2" c cells = evaluateFormula h "=B2" c cells).
Proof.
  rewrite parseCellReference_closed. rewrite <- cell_ref_shape_pattern.
  destruct (cell_ref_shape ref).
  - split; [split; [reflexivity | eauto]|].
    split; [split; [discriminate | intros H; now contradiction H]|].
    split; [reflexivity|]. split; [reflexivity|]. split; [reflexivity|].
    intros h c cells. unfold evaluateFormula. cbn [startsWith Ascii.eqb negb andb].
    reflexivity.
  - split; [split; [intros [r Hr]; discriminate | discriminate]|].
    split; [split; [discriminate | reflexivity]|].
    split; [reflexivity|]. split; [reflexivity|]. split; [reflexivity|].
    intros h c cells. unfold evaluateFormula. reflexivity.
Qed.

(** C6, as stated, fails: the lower-case reference b2 is not parsed, though
    its upper-case form is of the pattern. *)
Lemma parseCellReference_lowercase_is_null :
  parseCellReference "b2" = None /\
  parseCellReference (toUpperCase "b2") = Some {| col := 1; row := 1 |}.
Proof. split; reflexivity. Qed.

(** C4, as the code has it. The whole expression is upper-cased before it
    is parsed. A formula of ASCII text is read as an IF when its
    expression matches the pattern IF\((.+),(.+),(.+)\) from end to end and
    the pattern ([A-Z0-9]+)\s*([><=!]+)\s*(.+) finds a comparison in the
    first group. For every store in which the text of the compared cell is
    ASCII, the result is then the second group, trimmed and without its
    quotes, when the comparison of the number of the cell with the number
    of the formula holds, and the third group, trimmed and without its
    quotes, otherwise; the comparison is > < >= <= == = or != on the two
    doubles. For every expression of the plain shape IF(ref op num,t,f)
    (no comma and no white space in the parts) the groups are the
    upper-cased trueVal and falseVal; so =IF(A1>5,"big","small") returns
    BIG when A1 holds 10 and SMALL when A1 holds 3. *)
Theorem if_returns_the_uppercased_branch
    (h : Host) (formula c : string) (cells : gmap string CellData) :
  startsWith "=" formula = true ->
  ascii_text formula = true ->
  all (fun ch => negb (is_lower ch)) (expression_of formula) = true /\
  (forall ifMatch compMatch test,
     exec if_re (expression_of formula) = Some ifMatch ->
     exec comparison_re (trim (nth 1 ifMatch EmptyString)) = Some compMatch ->
     ascii_text (getCellText (nth 1 compMatch EmptyString) cells) = true ->
     In (nth 2 compMatch EmptyString, test)
        [(">", fun cellValue compareValue => Num.ltb compareValue cellValue);
         ("<", fun cellValue compareValue => Num.ltb cellValue compareValue);
         (">=", fun cellValue compareValue => Num.leb compareValue cellValue);
         ("<=", fun cellValue compareValue => Num.leb cellValue compareValue);
         ("==", fun cellValue compareValue => Num.eqb cellValue compareValue);
         ("=", fun cellValue compareValue => Num.eqb cellValue compareValue);
         ("!=", fun cellValue compareValue => negb (Num.eqb cellValue compareValue))] ->
     evaluateFormula h formula c cells =
       Ret (if test (getCellValue (nth 1 compMatch EmptyString) cells)
                    (Num.parseFloat (nth 3 compMatch EmptyString))
            then strip_quotes (trim (nth 2 ifMatch EmptyString))
            else strip_quotes (trim (nth 3 ifMatch EmptyString)))) /\
  (forall ref op num t f test,
     expression_of formula = if_shape ref op num t f ->
     text_of is_upper_or_digit ref -> text_of (one_of "><=!") op ->
     text_of plain_operand num -> text_of plain t -> text_of plain f ->
     ascii_text (getCellText ref cells) = true ->
     In (op, test)
        [(">", fun cellValue compareValue => Num.ltb compareValue cellValue);
         ("<", fun cellValue compareValue => Num.ltb cellValue compareValue);
         (">=", fun cellValue compareValue => Num.leb compareValue cellValue);
         ("<=", fun cellValue compareValue => Num.leb cellValue compareValue);
         ("==", fun cellValue compareValue => Num.eqb cellValue compareValue);
         ("=", fun cellValue compareValue => Num.eqb cellValue compareValue);
         ("!=", fun cellValue compareValue => negb (Num.eqb cellValue compareValue))] ->
     evaluateFormula h formula c cells =
       Ret (strip_quotes
              (if test (getCellValue ref cells) (Num.parseFloat num) then t else f))) /\
  (formula = if_example ->
     expression_of formula = if_shape "A1" ">" "5" (dq +:+ "BIG" +:+ dq) (dq +:+ "SMALL" +:+ dq) /\
     (ascii_text (getCellText "A1" cells) = true ->
      evaluateFormula h formula c cells =
        Ret (if Num.ltb (Num.of_Z 5) (getCellValue "A1" cells) then "BIG" else "SMALL")) /\
     (getCellText "A1" cells = "10" -> evaluateFormula h formula c cells = Ret "BIG") /\
     (getCellText "A1" cells = "3" -> evaluateFormula h formula c cells = Ret "SMALL")).
Proof.
  intros Hf _.
  assert (Table : forall op test x y,
    In (op, test)
       [(">", fun cellValue compareValue => Num.ltb compareValue cellValue);
        ("<", fun cellValue compareValue => Num.ltb cellValue compareValue);
        (">=", fun cellValue compareValue => Num.leb compareValue cellValue);
        ("<=", fun cellValue compareValue => Num.leb cellValue compareValue);
        ("==", fun cellValue compareValue => Num.eqb cellValue compareValue);
        ("=", fun cellValue compareValue => Num.eqb cellValue compareValue);
        ("!=", fun cellValue compareValue => negb (Num.eqb cellValue compareValue))] ->
    compare_by op x y = test x y).
  { intros op test x y Hin.
    destruct Hin as [E|[E|[E|[E|[E|[E|[E|[]]]]]]]]; injection E as <- <-; reflexivity. }
  assert (Shape : forall ref op num t f,
    expression_of formula = if_shape ref op num t f ->
    text_of is_upper_or_digit ref -> text_of (one_of "><=!") op ->
    text_of plain_operand num -> text_of plain t -> text_of plain f ->
    evaluateFormula h formula c cells =
      Ret (strip_quotes
             (if compare_by op (getCellValue ref cells) (Num.parseFloat num)
              then t else f))).
  { intros ref op num t f He [Href Aref] [Hop Aop] [Hnum Anum] [Ht At] [Hfl Afl].
    destruct (if_shape_groups ref op num t f Href Aref Hop Aop Hnum Anum Ht At Hfl Afl)
      as (Hif & Hcomp & Htrim_t & Htrim_f).
    unfold if_shape in He. rewrite <- He in Hif.
    rewrite (evaluateFormula_if h formula c cells _ _ Hf Hif Hcomp).
    cbn [nth]. rewrite Htrim_t, Htrim_f.
    now destruct (compare_by _ _ _). }
  split; [apply expression_of_upper|].
  split.
  { intros ifMatch compMatch test Hif Hcomp _ Hin.
    rewrite (evaluateFormula_if h formula c cells ifMatch compMatch Hf Hif Hcomp).
    now rewrite (Table _ test _ _ Hin). }
  split.
  { intros ref op num t f test He Href Hop Hnum Ht Hfl _ Hin.
    rewrite (Shape ref op num t f He Href Hop Hnum Ht Hfl).
    now rewrite (Table _ test _ _ Hin). }
  intros ->.
  assert (Example : evaluateFormula h if_example c cells =
    Ret (if Num.ltb (Num.of_Z 5) (getCellValue "A1" cells) then "BIG" else "SMALL")).
  { rewrite (Shape "A1" ">" "5" (dq +:+ "BIG" +:+ dq) (dq +:+ "SMALL" +:+ dq));
      try (split; [discriminate | reflexivity]); [|reflexivity].
    change (compare_by ">" (getCellValue "A1" cells) (Num.parseFloat "5"))
      with (Num.ltb (Num.parseFloat "5") (getCellValue "A1" cells)).
    evaluate (Num.parseFloat "5"). evaluate (Num.of_Z 5).
    destruct (Num.ltb _ _); vm_compute; reflexivity. }
  split; [reflexivity|]. split; [intros _; exact Example|]. split.
  - intros Htext. rewrite Example, getCellValue_text, Htext. vm_compute. reflexivity.
  - intros Htext. rewrite Example, getCellValue_text, Htext. vm_compute. reflexivity.
Qed.

Lemma if_returns_the_uppercased_branch_witness :
  evaluateFormula (ReferenceHost.at_time 0) "=if(b7 <= 2.5, yes, 'no')" "C1"
    (<["B7" := cell "2.5"]> ∅) = Ret "YES" /\
  evaluateFormula (ReferenceHost.at_time 0) "= if(total9!=0,none,some)" "C1"
    (<["TOTAL9" := cell "0"]> ∅) = Ret "SOME" /\
  evaluateFormula (ReferenceHost.at_time 0) "=IF(A1>5,'a,b','c')" "C1"
    (<["A1" := cell "10"]> ∅) = Ret "B".
Proof.
  split; [|split].
  - destruct (if_returns_the_uppercased_branch (ReferenceHost.at_time 0)
                "=if(b7 <= 2.5, yes, 'no')" "C1" (<["B7" := cell "2.5"]> ∅) eq_refl eq_refl)
      as (_ & Hgroups & _).
    exact (Hgroups ["IF(B7 <= 2.5, YES, 'NO')"; "B7 <= 2.5"; " YES"; " 'NO'"]
             ["B7 <= 2.5"; "B7"; "<="; "2.5"]
             (fun cellValue compareValue => Num.leb cellValue compareValue)
             eq_refl eq_refl eq_refl
             ltac:(right; right; right; left; reflexivity)).
  - destruct (if_returns_the_uppercased_branch (ReferenceHost.at_time 0)
                "= if(total9!=0,none,some)" "C1" (<["TOTAL9" := cell "0"]> ∅) eq_refl eq_refl)
      as (_ & _ & Hshape & _).
    exact (Hshape "TOTAL9" "!=" "0" "NONE" "SOME"
             (fun cellValue compareValue => negb (Num.eqb cellValue compareValue))
             eq_refl
             ltac:(split; [discriminate | reflexivity])
             ltac:(split; [discriminate | reflexivity])
             ltac:(split; [discriminate | reflexivity])
             ltac:(split; [discriminate | reflexivity])
             ltac:(split; [discriminate | reflexivity])
             eq_refl
             ltac:(do 6 right; left; reflexivity)).
  - destruct (if_returns_the_uppercased_branch (ReferenceHost.at_time 0)
                "=IF(A1>5,'a,b','c')" "C1" (<["A1" := cell "10"]> ∅) eq_refl eq_refl)
      as (_ & Hgroups & _).
    exact (Hgroups ["IF(A1>5,'A,B','C')"; "A1>5,'A"; "B'"; "'C'"]
             ["A1>5,'A"; "A1"; ">"; "5,'A"]
             (fun cellValue compareValue => Num.ltb compareValue cellValue)
             eq_refl eq_refl eq_refl
             ltac:(left; reflexivity)).
Defined.

(** C4, as stated, fails: the branch comes back in upper case. *)
Lemma if_example_returns_upper_case :
  evaluateFormula (ReferenceHost.at_time 0) if_example "B1" (<["A1" := cell "10"]> ∅) = Ret "BIG" /\
  evaluateFormula (ReferenceHost.at_time 0) if_example "B1" (<["A1" := cell "3"]> ∅) = Ret "SMALL" /\
  evaluateFormula (ReferenceHost.at_time 0) if_example "B1" (<["A1" := cell "10"]> ∅) <> Ret "big".
Proof.
  split; [vm_compute; reflexivity|]. split; [vm_compute; reflexivity|].
  vm_compute. discriminate.
Qed.

(** C3, as the code has it. A formula of ASCII text is read as a VLOOKUP
    when its expression, trimmed and upper-cased, matches the pattern
    VLOOKUP\((.+),([A-Z0-9:]+),(\d+),(.+)\) from end to end, so with no
    white space around the range and the column index. The lookup value is
    the first group, trimmed and without its quotes, upper-cased like the
    whole expression. For such a formula whose range is safe and for every
    store in which some row of the first column of the range has exactly
    that text, the result, when the column index is within the columns of
    the range, is the text of the first such row's target column; it is
    #N/A when no row's first column has that text and when the range
    expands to no cell. This holds for the groups the pattern captures,
    for every expression of the plain shape VLOOKUP(v,start:end,k,d), and
    for =VLOOKUP("Bob",A1:B3,2,FALSE), which returns Manager where A1 holds
    BOB and B1 holds Manager, and #N/A where no cell of A1..A3 holds BOB,
    as where A1 holds Bob. *)
Theorem vlookup_returns_the_first_match
    (h : Host) (formula c : string) (cells : gmap string CellData) :
  startsWith "=" formula = true ->
  ascii_text formula = true ->
  (forall m,
     exec vlookup_re (expression_of formula) = Some m ->
     safe_range_text (nth 2 m EmptyString) ->
     (parseRange (nth 2 m EmptyString) = [] ->
      evaluateFormula h formula c cells = Ret "#N/A") /\
     (forall start end_ a b k,
        split ":" (nth 2 m EmptyString) !! 0 = Some start ->
        split ":" (nth 2 m EmptyString) !! 1 = Some end_ ->
        parseCellReference start = Some a ->
        parseCellReference end_ = Some b ->
        Int.parseInt (nth 3 m EmptyString) = Some k ->
        (row a <= row b)%Z -> (col a <= col b)%Z ->
        (1 <= k <= col b - col a + 1)%Z ->
        (forall i,
           first_match cells a b (strip_quotes (trim (nth 1 m EmptyString))) i ->
           evaluateFormula h formula c cells =
             Ret (getCellText (cell_id (col a + k - 1) (row a + i)) cells)) /\
        (no_match cells a b (strip_quotes (trim (nth 1 m EmptyString))) ->
         evaluateFormula h formula c cells = Ret "#N/A"))) /\
  (forall v start end_ ks d a b k,
     expression_of formula = vlookup_shape v start end_ ks d ->
     text_of plain v -> text_of is_digit ks -> text_of plain d ->
     parseCellReference start = Some a ->
     parseCellReference end_ = Some b ->
     safe_range a b ->
     Int.parseInt ks = Some k ->
     (row a <= row b)%Z -> (col a <= col b)%Z ->
     (1 <= k <= col b - col a + 1)%Z ->
     (forall i,
        first_match cells a b (strip_quotes v) i ->
        evaluateFormula h formula c cells =
          Ret (getCellText (cell_id (col a + k - 1) (row a + i)) cells)) /\
     (no_match cells a b (strip_quotes v) ->
      evaluateFormula h formula c cells = Ret "#N/A")) /\
  (formula = vlookup_example ->
     expression_of formula = vlookup_shape (dq +:+ "BOB" +:+ dq) "A1" "B3" "2" "FALSE" /\
     (getCellText "A1" cells = "BOB" -> getCellText "B1" cells = "Manager" ->
      evaluateFormula h formula c cells = Ret "Manager") /\
     (getCellText "A1" cells <> "BOB" -> getCellText "A2" cells <> "BOB" ->
      getCellText "A3" cells <> "BOB" ->
      evaluateFormula h formula c cells = Ret "#N/A")).
Proof.
  intros Hf _.
  assert (Groups : forall m start end_ a b k,
    exec vlookup_re (expression_of formula) = Some m ->
    split ":" (nth 2 m EmptyString) !! 0 = Some start ->
    split ":" (nth 2 m EmptyString) !! 1 = Some end_ ->
    parseCellReference start = Some a ->
    parseCellReference end_ = Some b ->
    Int.parseInt (nth 3 m EmptyString) = Some k ->
    (row a <= row b)%Z -> (col a <= col b)%Z ->
    (1 <= k <= col b - col a + 1)%Z ->
    (forall i,
       first_match cells a b (strip_quotes (trim (nth 1 m EmptyString))) i ->
       evaluateFormula h formula c cells =
         Ret (getCellText (cell_id (col a + k - 1) (row a + i)) cells)) /\
    (no_match cells a b (strip_quotes (trim (nth 1 m EmptyString))) ->
     evaluateFormula h formula c cells = Ret "#N/A")).
  { intros m start end_ a b k Hm Hstart Hend Ha Hb Hk Hrows Hcols Hrange. split.
    - intros i (Hi & Hat & Hbefore).
      rewrite (evaluateFormula_vlookup_found h formula c cells m start end_ a b k i); auto.
      now rewrite getCellTextAt_target.
    - intros Hnone.
      now apply (evaluateFormula_vlookup_not_found h formula c cells m start end_ a b k). }
  assert (Shape : forall v start end_ ks d a b k,
    expression_of formula = vlookup_shape v start end_ ks d ->
    text_of plain v -> text_of is_digit ks -> text_of plain d ->
    parseCellReference start = Some a ->
    parseCellReference end_ = Some b ->
    Int.parseInt ks = Some k ->
    (row a <= row b)%Z -> (col a <= col b)%Z ->
    (1 <= k <= col b - col a + 1)%Z ->
    (forall i,
       first_match cells a b (strip_quotes v) i ->
       evaluateFormula h formula c cells =
         Ret (getCellText (cell_id (col a + k - 1) (row a + i)) cells)) /\
    (no_match cells a b (strip_quotes v) ->
     evaluateFormula h formula c cells = Ret "#N/A")).
  { intros v start end_ ks d a b k He [Hv Av] [Hks Aks] [Hd Ad] Ha Hb Hk Hrows Hcols Hrange.
    destruct (vlookup_shape_groups v start end_ ks d a b Hv Av Ha Hb Hks Aks Hd Ad)
      as (Hm & Hsplit & Htrim).
    unfold vlookup_shape in He. rewrite <- He in Hm.
    pose proof (Groups _ start end_ a b k Hm) as G. cbn [nth] in G.
    rewrite Hsplit, Htrim in G. now apply G. }
  split.
  { intros m Hm _. split.
    - intros Hempty. rewrite (evaluateFormula_vlookup _ _ _ _ m Hf Hm).
      now rewrite vlookup_no_cells.
    - intros start end_ a b k. now apply Groups. }
  split; [intros v start end_ ks d a b k He Hv Hks Hd Ha Hb _; now apply (Shape v start end_ ks d)|].
  intros ->. split; [reflexivity|].
  destruct (Shape (dq +:+ "BOB" +:+ dq) "A1" "B3" "2" "FALSE"
              {| col := 0; row := 0 |} {| col := 1; row := 2 |} 2%Z eq_refl
              ltac:(split; [discriminate | reflexivity])
              ltac:(split; [discriminate | reflexivity])
              ltac:(split; [discriminate | reflexivity])
              eq_refl eq_refl eq_refl
              ltac:(simpl; lia) ltac:(simpl; lia) ltac:(simpl; lia))
    as [Hfound Hnone].
  split.
  - intros HA1 HB1. rewrite (Hfound 0%Z); [exact (f_equal Ret HB1)|].
    split; [simpl; lia|]. split; [exact HA1|]. intros j Hj. lia.
  - intros HA1 HA2 HA3. apply Hnone. intros i Hi. cbn [col row] in Hi.
    assert (Hcases : i = 0%Z \/ i = 1%Z \/ i = 2%Z) by lia.
    destruct Hcases as [->|[->| ->]]; [exact HA1 | exact HA2 | exact HA3].
Qed.

Lemma vlookup_returns_the_first_match_witness :
  evaluateFormula (ReferenceHost.at_time 0) "=vlookup(k2,D4:F6,3,0)" "A1"
    (<["D4" := cell "K1"]> (<["D5" := cell "K2"]> (<["F5" := cell "found"]> ∅))) =
  Ret "found".
Proof.
  set (cells := <["D4" := cell "K1"]> (<["D5" := cell "K2"]> (<["F5" := cell "found"]> ∅))).
  destruct (vlookup_returns_the_first_match (ReferenceHost.at_time 0)
              "=vlookup(k2,D4:F6,3,0)" "A1" cells eq_refl eq_refl) as (_ & Hshape & _).
  destruct (Hshape "K2" "D4" "F6" "3" "0" {| col := 3; row := 3 |} {| col := 5; row := 5 |} 3%Z
              eq_refl
              ltac:(split; [discriminate | reflexivity])
              ltac:(split; [discriminate | reflexivity])
              ltac:(split; [discriminate | reflexivity])
              eq_refl eq_refl
              ltac:(unfold safe_range, safe_reference, max_safe_integer, max_array_length;
                    cbn [col row]; lia)
              eq_refl
              ltac:(simpl; lia) ltac:(simpl; lia) ltac:(simpl; lia)) as [Hfound _].
  refine (Hfound 1%Z _).
  split; [simpl; lia|]. split; [reflexivity|].
  intros j Hj. assert (j = 0%Z) as -> by lia. vm_compute. discriminate.
Defined.

(** C3, as stated, fails: the literal is upper-cased with the expression,
    so it does not match the cell text Bob. *)
Lemma vlookup_example_does_not_find_Bob :
  evaluateFormula (ReferenceHost.at_time 0) vlookup_example "C1"
    (<["A1" := cell "Bob"]> (<["B1" := cell "Manager"]> ∅)) = Ret "#N/A" /\
  evaluateFormula (ReferenceHost.at_time 0) vlookup_example "C1"
    (<["A1" := cell "Bob"]> (<["B1" := cell "Manager"]> ∅)) <> Ret "Manager".
Proof. split; [vm_compute; reflexivity | vm_compute; discriminate]. Qed.

(** C10, as the code has it. The target is read at the position
    row * numCols + columnIndex - 1 of the row-major list of the range, with
    no check against the column count. For every store and every formula
    of ASCII text that is read as a VLOOKUP (its expression matches the
    pattern from end to end), whose range is safe, in which a row's first
    column has the lookup text and the column index exceeds the column
    count: when the position is inside the list, the result is the text of
    the cell that the position names, which lies in a later row of the
    range and whose text is empty when the cell is absent or empty; when
    the position is past the last cell of the range, as it is for a match
    in the last row, the result is the empty string. *)
Theorem vlookup_column_index_past_the_range
    (h : Host) (formula c : string) (cells : gmap string CellData) :
  startsWith "=" formula = true ->
  ascii_text formula = true ->
  (forall m start end_ a b k i,
     exec vlookup_re (expression_of formula) = Some m ->
     split ":" (nth 2 m EmptyString) !! 0 = Some start ->
     split ":" (nth 2 m EmptyString) !! 1 = Some end_ ->
     parseCellReference start = Some a ->
     parseCellReference end_ = Some b ->
     safe_range a b ->
     Int.parseInt (nth 3 m EmptyString) = Some k ->
     (row a <= row b)%Z -> (col a <= col b)%Z ->
     (col b - col a + 1 < k)%Z ->
     first_match cells a b (strip_quotes (trim (nth 1 m EmptyString))) i ->
     evaluateFormula h formula c cells =
       Ret (if (i * (col b - col a + 1) + k - 1 <? (row b - row a + 1) * (col b - col a + 1))%Z
            then getCellText
                   (cell_id (col a + (k - 1) mod (col b - col a + 1))
                      (row a + i + (k - 1) / (col b - col a + 1))) cells
            else EmptyString) /\
     (1 <= (k - 1) / (col b - col a + 1))%Z /\
     (i = (row b - row a)%Z -> evaluateFormula h formula c cells = Ret EmptyString)) /\
  (forall v start end_ ks d a b k i,
     expression_of formula = vlookup_shape v start end_ ks d ->
     text_of plain v -> text_of is_digit ks -> text_of plain d ->
     parseCellReference start = Some a ->
     parseCellReference end_ = Some b ->
     safe_range a b ->
     Int.parseInt ks = Some k ->
     (row a <= row b)%Z -> (col a <= col b)%Z ->
     (col b - col a + 1 < k)%Z ->
     first_match cells a b (strip_quotes v) i ->
     evaluateFormula h formula c cells =
       Ret (if (i * (col b - col a + 1) + k - 1 <? (row b - row a + 1) * (col b - col a + 1))%Z
            then getCellText
                   (cell_id (col a + (k - 1) mod (col b - col a + 1))
                      (row a + i + (k - 1) / (col b - col a + 1))) cells
            else EmptyString) /\
     (1 <= (k - 1) / (col b - col a + 1))%Z /\
     (i = (row b - row a)%Z -> evaluateFormula h formula c cells = Ret EmptyString)).
Proof.
  intros Hf _.
  assert (Groups : forall m start end_ a b k i,
    exec vlookup_re (expression_of formula) = Some m ->
    split ":" (nth 2 m EmptyString) !! 0 = Some start ->
    split ":" (nth 2 m EmptyString) !! 1 = Some end_ ->
    parseCellReference start = Some a ->
    parseCellReference end_ = Some b ->
    Int.parseInt (nth 3 m EmptyString) = Some k ->
    (row a <= row b)%Z -> (col a <= col b)%Z ->
    (col b - col a + 1 < k)%Z ->
    first_match cells a b (strip_quotes (trim (nth 1 m EmptyString))) i ->
    evaluateFormula h formula c cells =
      Ret (if (i * (col b - col a + 1) + k - 1 <? (row b - row a + 1) * (col b - col a + 1))%Z
           then getCellText
                  (cell_id (col a + (k - 1) mod (col b - col a + 1))
                     (row a + i + (k - 1) / (col b - col a + 1))) cells
           else EmptyString) /\
    (1 <= (k - 1) / (col b - col a + 1))%Z /\
    (i = (row b - row a)%Z -> evaluateFormula h formula c cells = Ret EmptyString)).
  { intros m start end_ a b k i Hm Hstart Hend Ha Hb Hk Hrows Hcols Hpast (Hi & Hat & Hbefore).
    pose proof (evaluateFormula_vlookup_found h formula c cells m start end_ a b k i
                  Hf Hm Hstart Hend Ha Hb Hk Hrows Hcols Hi Hat Hbefore) as Hresult.
    split; [|split].
    - rewrite Hresult. now rewrite getCellTextAt_past by lia.
    - apply Z.div_le_lower_bound; lia.
    - intros ->. rewrite Hresult.
      rewrite getCellTextAt_beyond; [reflexivity | nia | lia | lia]. }
  split; [intros m start end_ a b k i Hm Hstart Hend Ha Hb _; now apply (Groups m start end_)|].
  intros v start end_ ks d a b k i He [Hv Av] [Hks Aks] [Hd Ad] Ha Hb _ Hk Hrows Hcols Hpast Hfirst.
  destruct (vlookup_shape_groups v start end_ ks d a b Hv Av Ha Hb Hks Aks Hd Ad)
    as (Hm & Hsplit & Htrim).
  unfold vlookup_shape in He. rewrite <- He in Hm.
  pose proof (Groups _ start end_ a b k i Hm) as G. cbn [nth] in G.
  rewrite Hsplit, Htrim in G. now apply G.
Qed.

Lemma vlookup_column_index_past_the_range_witness :
  evaluateFormula (ReferenceHost.at_time 0) "=VLOOKUP(X,A1:B2,3,0)" "C1"
    (<["A1" := cell "X"]> (<["A2" := cell "below"]> ∅)) = Ret "below" /\
  evaluateFormula (ReferenceHost.at_time 0) "=VLOOKUP(X,A1:B2,3,0)" "C1"
    (<["A1" := cell "X"]> ∅) = Ret "" /\
  evaluateFormula (ReferenceHost.at_time 0) "=VLOOKUP(X,A1:B2,3,0)" "C1"
    (<["A2" := cell "X"]> ∅) = Ret "".
Proof.
  assert (Hsafe : safe_range {| col := 0; row := 0 |} {| col := 1; row := 1 |}).
  { unfold safe_range, safe_reference, max_safe_integer, max_array_length.
    cbn [col row]. lia. }
  split; [|split].
  - set (cells := <["A1" := cell "X"]> (<["A2" := cell "below"]> ∅)).
    destruct (vlookup_column_index_past_the_range (ReferenceHost.at_time 0)
                "=VLOOKUP(X,A1:B2,3,0)" "C1" cells eq_refl eq_refl) as [_ Hshape].
    refine (proj1 (Hshape "X" "A1" "B2" "3" "0"
              {| col := 0; row := 0 |} {| col := 1; row := 1 |} 3%Z 0%Z eq_refl
              ltac:(split; [discriminate | reflexivity])
              ltac:(split; [discriminate | reflexivity])
              ltac:(split; [discriminate | reflexivity])
              eq_refl eq_refl Hsafe eq_refl
              ltac:(simpl; lia) ltac:(simpl; lia) ltac:(simpl; lia) _)).
    split; [simpl; lia|]. split; [reflexivity|]. intros j Hj. lia.
  - set (cells := <["A1" := cell "X"]> ∅).
    destruct (vlookup_column_index_past_the_range (ReferenceHost.at_time 0)
                "=VLOOKUP(X,A1:B2,3,0)" "C1" cells eq_refl eq_refl) as [_ Hshape].
    refine (proj1 (Hshape "X" "A1" "B2" "3" "0"
              {| col := 0; row := 0 |} {| col := 1; row := 1 |} 3%Z 0%Z eq_refl
              ltac:(split; [discriminate | reflexivity])
              ltac:(split; [discriminate | reflexivity])
              ltac:(split; [discriminate | reflexivity])
              eq_refl eq_refl Hsafe eq_refl
              ltac:(simpl; lia) ltac:(simpl; lia) ltac:(simpl; lia) _)).
    split; [simpl; lia|]. split; [reflexivity|]. intros j Hj. lia.
  - set (cells := <["A2" := cell "X"]> ∅).
    destruct (vlookup_column_index_past_the_range (ReferenceHost.at_time 0)
                "=VLOOKUP(X,A1:B2,3,0)" "C1" cells eq_refl eq_refl) as [_ Hshape].
    refine (proj2 (proj2 (Hshape "X" "A1" "B2" "3" "0"
              {| col := 0; row := 0 |} {| col := 1; row := 1 |} 3%Z 1%Z eq_refl
              ltac:(split; [discriminate | reflexivity])
              ltac:(split; [discriminate | reflexivity])
              ltac:(split; [discriminate | reflexivity])
              eq_refl eq_refl Hsafe eq_refl
              ltac:(simpl; lia) ltac:(simpl; lia) ltac:(simpl; lia) _)) eq_refl).
    split; [simpl; lia|]. split; [reflexivity|].
    intros j Hj. assert (j = 0%Z) as -> by lia. vm_compute. discriminate.
Defined.

(** C10, as stated, fails: with one column and column index 2, a match in
    the first row returns the text of the second row's cell, not the
    empty string. *)
Lemma vlookup_past_the_range_reads_next_row :
  evaluateFormula (ReferenceHost.at_time 0) "=VLOOKUP(X,A1:A2,2,0)" "C1"
    (<["A1" := cell "X"]> (<["A2" := cell "next"]> ∅)) = Ret "next" /\
  evaluateFormula (ReferenceHost.at_time 0) "=VLOOKUP(X,A1:A2,2,0)" "C1"
    (<["A1" := cell "X"]> (<["A2" := cell "next"]> ∅)) <> Ret "".
Proof. split; [vm_compute; reflexivity | vm_compute; discriminate]. Qed.

(** * Further properties of the code *)

#[local] Arguments String.append : simpl nomatch.

(** ** Calls of the evaluator *)

Module CallFacts.
Import Str Regex StrFacts RegexFacts ResolverFacts LabelFacts ShapeFacts RangeFacts EvalFacts.
#[local] Arguments String.append : simpl nomatch.

Lemma rev_onto_app s t a : rev_onto (s +:+ t) a = rev_onto t (rev_onto s a).
Proof. revert a; induction s as [|c s IH]; intros a; simpl; [reflexivity | apply IH]. Qed.

Lemma endsWith_app_char c s : endsWith (String c EmptyString) (s +:+ String c EmptyString) = true.
Proof.
  unfold endsWith, rev. rewrite rev_onto_app. simpl. now rewrite Ascii.eqb_refl.
Qed.

(** The expression [name(arg)] is a call of [name] with the argument [arg]. *)
Lemma call_shape name arg :
  is_call name (name +:+ "(" +:+ arg +:+ ")") = true /\
  call_argument name (name +:+ "(" +:+ arg +:+ ")") = arg.
Proof.
  split.
  - unfold is_call. apply andb_true_intro. split.
    + rewrite <- str_app_assoc. apply startsWith_app.
    + rewrite <- !str_app_assoc. apply endsWith_app_char.
  - unfold call_argument, slice_to_last.
    rewrite <- (str_app_assoc name "(").
    replace (String.length name + 1) with (String.length (name +:+ "("))
      by (rewrite str_length_app; reflexivity).
    rewrite drop_app. apply take_app_exact.
    rewrite !str_length_app. simpl. lia.
Qed.

(** Two evaluations whose bodies agree give the same result. *)
Lemma evaluateFormula_ext h1 h2 formula c1 c2 cells1 cells2 :
  evaluate_body h1 (expression_of formula) cells1 =
    evaluate_body h2 (expression_of formula) cells2 ->
  evaluateFormula h1 formula c1 cells1 = evaluateFormula h2 formula c2 cells2.
Proof. intros H. unfold evaluateFormula. cbv zeta. now rewrite H. Qed.

(** *** The branch that a call reaches *)

Lemma evaluate_body_sum h e cells :
  is_call "SUM" e = true ->
  evaluate_body h e cells =
    Ret (Num.toString (sum_of (parseRange (call_argument "SUM" e)) cells)).
Proof. intros Hc. unfold evaluate_body. now rewrite Hc. Qed.


Lemma evaluate_body_min_of h e cells :
  is_call "MIN" e = true ->
  evaluate_body h e cells =
    let cellIds := parseRange (call_argument "MIN" e) in
    if (length cellIds =? 0)%nat then Ret "0"
    else Ret (Num.toString (Num.min (List.map (fun cellId => getCellValue cellId cells) cellIds))).
Proof.
  intros Hc. pose proof Hc as [Hp _]%andb_prop. unfold evaluate_body.
  rewrite !(is_call_exclusive _ "MIN(" e Hp) by reflexivity.
  now rewrite Hc.
Qed.

Lemma evaluate_body_max_of h e cells :
  is_call "MAX" e = true ->
  evaluate_body h e cells =
    let cellIds := parseRange (call_argument "MAX" e) in
    if (length cellIds =? 0)%nat then Ret "0"
    else Ret (Num.toString (Num.max (List.map (fun cellId => getCellValue cellId cells) cellIds))).
Proof.
  intros Hc. pose proof Hc as [Hp _]%andb_prop. unfold evaluate_body.
  rewrite !(is_call_exclusive _ "MAX(" e Hp) by reflexivity.
  now rewrite Hc.
Qed.

Lemma evaluate_body_count h e cells :
  is_call "COUNT" e = true ->
  evaluate_body h e cells =
    Ret (Int.toString (Z.of_nat (length
      (List.filter (fun cellId =>
         let val := getCellText cellId cells in
         truthy val && negb (Num.isNaN (Num.parseFloat val)))
         (parseRange (call_argument "COUNT" e)))))).
Proof.
  intros Hc. pose proof Hc as [Hp _]%andb_prop. unfold evaluate_body.
  rewrite !(is_call_exclusive _ "COUNT(" e Hp) by reflexivity.
  now rewrite Hc.
Qed.

Lemma evaluate_body_counta h e cells :
  is_call "COUNTA" e = true ->
  evaluate_body h e cells =
    Ret (Int.toString (Z.of_nat (length
      (List.filter (fun cellId => truthy (getCellText cellId cells))
         (parseRange (call_argument "COUNTA" e)))))).
Proof.
  intros Hc. pose proof Hc as [Hp _]%andb_prop. unfold evaluate_body.
  rewrite !(is_call_exclusive _ "COUNTA(" e Hp) by reflexivity.
  now rewrite Hc.
Qed.

Lemma evaluate_body_round h e cells :
  is_call "ROUND" e = true ->
  evaluate_body h e cells =
    let args := split "," (call_argument "ROUND" e) in
    if negb (length args =? 2)%nat then Ret "#VALUE!"
    else
      match Int.parseInt (nth 1 args EmptyString) with
      | None => Ret "#VALUE!"
      | Some decimals =>
          if Num.isNaN (Num.parseFloat (nth 0 args EmptyString)) then Ret "#VALUE!"
          else Num.toFixed (Num.parseFloat (nth 0 args EmptyString)) decimals
      end.
Proof.
  intros Hc. pose proof Hc as [Hp _]%andb_prop. unfold evaluate_body.
  rewrite !(is_call_exclusive _ "ROUND(" e Hp) by reflexivity.
  now rewrite Hc.
Qed.


Lemma evaluate_body_len h e cells :
  is_call "LEN" e = true ->
  evaluate_body h e cells =
    Ret (Int.toString (Z.of_nat (String.length
           (text_argument (trim (call_argument "LEN" e)) cells)))).
Proof.
  intros Hc. pose proof Hc as [Hp _]%andb_prop. unfold evaluate_body.
  rewrite !(is_call_exclusive _ "LEN(" e Hp) by reflexivity.
  now rewrite Hc.
Qed.

Lemma evaluate_body_upper h e cells :
  is_call "UPPER" e = true ->
  evaluate_body h e cells =
    Ret (toUpperCase (text_argument (trim (call_argument "UPPER" e)) cells)).
Proof.
  intros Hc. pose proof Hc as [Hp _]%andb_prop. unfold evaluate_body.
  rewrite !(is_call_exclusive _ "UPPER(" e Hp) by reflexivity.
  now rewrite Hc.
Qed.

Lemma evaluate_body_lower h e cells :
  is_call "LOWER" e = true ->
  evaluate_body h e cells =
    Ret (toLowerCase (text_argument (trim (call_argument "LOWER" e)) cells)).
Proof.
  intros Hc. pose proof Hc as [Hp _]%andb_prop. unfold evaluate_body.
  rewrite !(is_call_exclusive _ "LOWER(" e Hp) by reflexivity.
  now rewrite Hc.
Qed.

End CallFacts.

Import CallFacts.

(** ** Aggregates *)

Module AggregateFacts.
Import Str Regex StrFacts RegexFacts ResolverFacts LabelFacts ShapeFacts RangeFacts EvalFacts CallFacts.
#[local] Arguments String.append : simpl nomatch.





Lemma map_ext_in' {A B} (f g : A -> B) l :
  (forall a, In a l -> f a = g a) -> List.map f l = List.map g l.
Proof.
  induction l as [|a l IH]; intros H; simpl; [reflexivity|].
  rewrite H by (now left). f_equal. apply IH. intros b Hb. apply H. now right.
Qed.






End AggregateFacts.

Import AggregateFacts.







(** ** ROUND *)

Module RoundFacts.
Import Str Regex StrFacts RegexFacts ResolverFacts LabelFacts ShapeFacts RangeFacts EvalFacts CallFacts.
#[local] Arguments String.append : simpl nomatch.

Lemma split_nonempty sep s : split sep s <> [].
Proof.
  destruct s as [|c s]; simpl; [discriminate|].
  destruct (Ascii.eqb c sep); [discriminate|]. destruct (split sep s); discriminate.
Qed.


Lemma split_two sep x y :
  occurrences sep x = 0 -> occurrences sep y = 0 ->
  split sep (x +:+ String sep y) = [x; y].
Proof.
  intros Hx Hy. rewrite split_at_separator by assumption. now rewrite split_whole.
Qed.

Lemma upper_classes c :
  is_upper c = true ->
  is_space c = false /\ is_digit c = false /\
  c <> "-"%char /\ c <> "+"%char /\ c <> "."%char.
Proof.
  destruct c as [[] [] [] [] [] [] [] []]; vm_compute; intros H; try discriminate H;
    repeat split; discriminate.
Qed.

(** A text that begins with a capital letter and goes on with capital
    letters and digits does not read as a number. *)
Lemma parseFloat_reference s :
  cell_ref_shape s = true -> Num.parseFloat s = Num.NaN.
Proof.
  intros Shape. apply cell_ref_shape_pattern in Shape as (l & d & -> & Hl & Hd & Hup & Hdig).
  destruct l as [|c l]; [congruence|]. simpl in Hup. apply andb_prop in Hup as [Hc Hup].
  assert (Hn : forall c2, is_upper_or_digit c2 = true -> Ascii.eqb "n" c2 = false).
  { clear. intros c2. destruct c2 as [[] [] [] [] [] [] [] []]; vm_compute; congruence. }
  assert (Hsecond : startsWith "nfinity" (l +:+ d) = false).
  { destruct l as [|c2 l].
    - destruct d as [|c2 d]; [congruence|]. simpl in Hdig. apply andb_prop in Hdig as [H2 _].
      change (startsWith "nfinity" (EmptyString +:+ String c2 d))
        with (Ascii.eqb "n" c2 && startsWith "finity" d).
      now rewrite Hn by (now apply (proj2 (upper_or_digit c2))).
    - simpl in Hup. apply andb_prop in Hup as [H2 _].
      change (startsWith "nfinity" (String c2 l +:+ d))
        with (Ascii.eqb "n" c2 && startsWith "finity" (l +:+ d)).
      now rewrite Hn by (now apply (proj1 (upper_or_digit c2))). }
  change (String c l +:+ d) with (String c (l +:+ d)).
  generalize dependent (l +:+ d). intros t Hsecond.
  destruct (upper_classes c Hc) as (Hspace & Hdigit & Hminus & Hplus & Hpoint).
  unfold Num.parseFloat.
  assert (Hsp : trimStart (String c t) = String c t).
  { unfold trimStart. cbn [drop_while]. now rewrite Hspace. }
  rewrite Hsp.
  assert (Hsign : (match String c t with
                   | String "-"%char s' => (true, s')
                   | String "+"%char s' => (false, s')
                   | _ => (false, String c t)
                   end) = (false, String c t)).
  { clear - Hminus Hplus. destruct c as [[] [] [] [] [] [] [] []]; try reflexivity; congruence. }
  rewrite Hsign. cbv beta iota zeta.
  assert (Hinf : startsWith "Infinity" (String c t) = false).
  { change (startsWith "Infinity" (String c t))
      with (Ascii.eqb "I" c && startsWith "nfinity" t).
    rewrite Hsecond. apply andb_false_r. }
  rewrite Hinf.
  assert (Hrun : run is_digit (String c t) = 0).
  { cbn [run]. now rewrite Hdigit. }
  rewrite Hrun. cbn [take drop].
  assert (Hdot : (match String c t with
                  | String "."%char s' =>
                      (take (run is_digit s') s', drop (run is_digit s') s')
                  | _ => (EmptyString, String c t)
                  end) = (EmptyString, String c t)).
  { clear - Hpoint. destruct c as [[] [] [] [] [] [] [] []]; try reflexivity; congruence. }
  rewrite Hdot. reflexivity.
Qed.

End RoundFacts.

Import RoundFacts.
#[local] Arguments String.append : simpl nomatch.

(** X5: ROUND takes nothing from the store or from the host. *)
Theorem round_reads_no_cell
    (h1 h2 : Host) (formula c1 c2 : string) (cells1 cells2 : gmap string CellData) :
  is_call "ROUND" (expression_of formula) = true ->
  evaluateFormula h1 formula c1 cells1 = evaluateFormula h2 formula c2 cells2 /\
  (forall ref d r,
     startsWith "=" formula = true ->
     call_argument "ROUND" (expression_of formula) = ref +:+ "," +:+ d ->
     parseCellReference ref = Some r ->
     evaluateFormula h1 formula c1 cells1 = Ret "#VALUE!").
Proof.
  intros Hc. split.
  - apply evaluateFormula_ext. now rewrite !evaluate_body_round by assumption.
  - intros ref d r Hf Harg Href. rewrite evaluateFormula_formula by assumption.
    rewrite evaluate_body_round by assumption. rewrite Harg. cbv zeta.
    destruct (parsed_reference_chars ref r Href) as (_ & Hchars & _).
    assert (Hcomma : occurrences "," ref = 0).
    { apply (all_no_occurrence is_range_char); [reflexivity | assumption]. }
    change (ref +:+ "," +:+ d) with (ref +:+ String "," d).
    rewrite split_at_separator by assumption.
    destruct (split "," d) as [|d1 [|d2 rest]] eqn:Ed.
    + now destruct (split_nonempty "," d).
    + cbn [length Nat.eqb negb nth].
      assert (Hnan : Num.parseFloat ref = Num.NaN).
      { apply parseFloat_reference. rewrite parseCellReference_closed in Href.
        destruct (cell_ref_shape ref); [reflexivity | discriminate]. }
      rewrite Hnan. destruct (Int.parseInt d1); reflexivity.
    + reflexivity.
Qed.

Lemma round_reads_no_cell_witness :
  evaluateFormula (ReferenceHost.at_time 0) "=ROUND(A1,2)" "B1" (<["A1" := cell "3.14159"]> ∅) =
  evaluateFormula (ReferenceHost.at_time 5) "=ROUND(A1,2)" "B2" ∅ /\
  evaluateFormula (ReferenceHost.at_time 0) "=ROUND(A1,2)" "B1" (<["A1" := cell "3.14159"]> ∅) =
  Ret "#VALUE!".
Proof.
  pose proof (round_reads_no_cell (ReferenceHost.at_time 0) (ReferenceHost.at_time 5)
                "=ROUND(A1,2)" "B1" "B2" (<["A1" := cell "3.14159"]> ∅) ∅
                ltac:(vm_compute; reflexivity)) as [H1 H2].
  split; [exact H1|].
  apply (H2 "A1" "2" {| col := 0; row := 0 |}); vm_compute; reflexivity.
Defined.





(** ** Quotes, and what is left for [eval] *)

Module FallbackFacts.
Import Str Regex StrFacts RegexFacts ResolverFacts LabelFacts ShapeFacts RangeFacts EvalFacts CallFacts.
#[local] Arguments String.append : simpl nomatch.

(** *** [strip_quotes] *)

Lemma match_at_class p i c s :
  match_at (Class p) i (String c s) =
    if p c then Some [String c EmptyString] else None.
Proof.
  unfold match_at. cbn [rmatch]. destruct (p c); [|reflexivity].
  replace (S i - i) with 1 by lia. reflexivity.
Qed.

Lemma match_at_quotes_later i c s :
  0 < i ->
  match_at quotes_re i (String c s) =
    if is_quote c && negb (truthy s) then Some [String c EmptyString] else None.
Proof.
  intros Hi. unfold match_at, quotes_re. cbn [rmatch].
  destruct (Nat.eqb_spec i 0) as [|_]; [lia|].
  destruct (is_quote c); [|reflexivity].
  destruct s; [|reflexivity]. cbn [truthy negb andb].
  replace (S i - i) with 1 by lia. reflexivity.
Qed.

Lemma match_at_quotes_first c s :
  match_at quotes_re 0 (String c s) =
    if is_quote c then Some [String c EmptyString] else None.
Proof.
  unfold match_at, quotes_re. cbn [rmatch Nat.eqb].
  destruct (is_quote c); reflexivity.
Qed.

Lemma delete_quotes_later i s :
  0 < i -> delete_go quotes_re i s 0 = without_trailing_quote s.
Proof.
  revert i. induction s as [|c s IH]; intros i Hi; [reflexivity|].
  cbn [delete_go]. rewrite match_at_quotes_later by assumption.
  destruct s as [|d s].
  - cbn [truthy negb]. rewrite andb_true_r. destruct (is_quote c) eqn:Q; simpl; now rewrite Q.
  - cbn [truthy negb]. rewrite andb_false_r.
    rewrite IH by lia. reflexivity.
Qed.

(** The pattern of the quotes takes away a quote at the start and a quote
    at the end, and nothing else. *)
Lemma strip_quotes_closed s :
  strip_quotes s = without_trailing_quote (without_leading_quote s).
Proof.
  unfold strip_quotes, delete_all. destruct s as [|c s]; [reflexivity|].
  cbn [delete_go]. rewrite match_at_quotes_first.
  unfold without_leading_quote. destruct (is_quote c) eqn:Q.
  - cbn [String.length]. apply delete_quotes_later. lia.
  - rewrite delete_quotes_later by lia.
    destruct s as [|d s]; [simpl; now rewrite Q | reflexivity].
Qed.

Lemma without_trailing_quote_app t q :
  is_quote q = true -> without_trailing_quote (t +:+ String q EmptyString) = t.
Proof.
  intros Q. induction t as [|c t IH]; simpl; [now rewrite Q|].
  rewrite IH. destruct t; reflexivity.
Qed.

Lemma strip_quotes_quoted t q1 q2 :
  is_quote q1 = true -> is_quote q2 = true ->
  strip_quotes (String q1 (t +:+ String q2 EmptyString)) = t.
Proof.
  intros Q1 Q2. rewrite strip_quotes_closed. unfold without_leading_quote. rewrite Q1.
  now apply without_trailing_quote_app.
Qed.

(** *** What the pattern of the arithmetic characters leaves *)

Lemma delete_class p i s :
  delete_go (Class p) i s 0 = only (fun c => negb (p c)) s.
Proof.
  revert i. induction s as [|c s IH]; intros i; [reflexivity|].
  cbn [delete_go only]. rewrite match_at_class.
  destruct (p c); cbn [negb String.length]; now rewrite IH.
Qed.

Lemma sanitized_closed e :
  delete_all not_arithmetic_re e = only is_arithmetic_char e.
Proof.
  unfold delete_all, not_arithmetic_re. rewrite delete_class.
  induction e as [|c e IH]; simpl; [reflexivity|].
  rewrite negb_involutive. now rewrite IH.
Qed.

Lemma all_only p s : all p (only p s) = true.
Proof.
  induction s as [|c s IH]; simpl; [reflexivity|].
  destruct (p c) eqn:E; simpl; [now rewrite E | exact IH].
Qed.

Lemma only_none p s : all (fun c => negb (p c)) s = true -> only p s = EmptyString.
Proof.
  induction s as [|c s IH]; simpl; [reflexivity|].
  intros [Hc Hs]%andb_prop. apply negb_true_iff in Hc. rewrite Hc. auto.
Qed.

(** *** Expressions that reach the end of the dispatch *)

Lemma startsWith_occurrences c p s :
  startsWith p s = true -> occurrences c p <= occurrences c s.
Proof.
  intros H. pose proof (startsWith_inv p s H) as E.
  rewrite E, occurrences_app. lia.
Qed.

Lemma startsWith_run q p s :
  startsWith p s = true -> 0 < run q p -> 0 < run q s.
Proof.
  destruct p as [|c p]; [simpl; lia|]. destruct s as [|d s]; [discriminate|].
  cbn [startsWith run]. intros [H _]%andb_prop. apply Ascii.eqb_eq in H as ->.
  destruct (q d); lia.
Qed.

Lemma startsWith_refl s : startsWith s s = true.
Proof. induction s as [|c s IH]; simpl; [reflexivity|]. now rewrite Ascii.eqb_refl. Qed.

(** The texts one of which every branch before the reference test needs
    at the start of the expression. *)
Lemma evaluate_body_rest h e cells :
  Forall (fun p => startsWith p e = false)
    ["SUM("; "AVERAGE("; "MIN("; "MAX("; "COUNT("; "COUNTA("; "ROUND("; "CONCAT(";
     "LEN("; "UPPER("; "LOWER("; "TODAY()"; "NOW()"; "IF("; "VLOOKUP("] ->
  evaluate_body h e cells =
    match parseCellReference e with
    | Some _ => Ret (Num.toString (getCellValue e cells))
    | None =>
        if truthy (only is_arithmetic_char e) then host_eval h (only is_arithmetic_char e)
        else Ret "#NAME?"
    end.
Proof.
  intros H. repeat (apply Forall_cons_iff in H as [? H]).
  assert (Hcall : forall name, startsWith (name +:+ "(") e = false -> is_call name e = false)
    by (intros name Hn; unfold is_call; now rewrite Hn).
  assert (Heqb : forall lit, startsWith lit e = false -> String.eqb e lit = false).
  { intros lit Hl. destruct (String.eqb_spec e lit) as [->|]; [|reflexivity].
    now rewrite startsWith_refl in Hl. }
  assert (Hexec : forall lit r, startsWith lit e = false -> exec (Seq Bol (Seq (Lit lit) r)) e = None).
  { intros lit r Hl. destruct (exec _ e) as [m|] eqn:E; [|reflexivity].
    apply exec_Bol_Lit in E. congruence. }
  unfold evaluate_body.
  rewrite !Hcall by assumption. rewrite !Heqb by assumption.
  unfold if_re. rewrite Hexec by assumption.
  unfold evaluate_rest, vlookup_re. rewrite Hexec by assumption.
  rewrite sanitized_closed. reflexivity.
Qed.

Lemma no_prefix_without_paren e :
  occurrences "(" e = 0 ->
  Forall (fun p => startsWith p e = false)
    ["SUM("; "AVERAGE("; "MIN("; "MAX("; "COUNT("; "COUNTA("; "ROUND("; "CONCAT(";
     "LEN("; "UPPER("; "LOWER("; "TODAY()"; "NOW()"; "IF("; "VLOOKUP("].
Proof.
  intros H. repeat apply List.Forall_cons; try apply List.Forall_nil;
    (destruct (startsWith _ e) eqn:E; [|reflexivity];
     apply (startsWith_occurrences "(") in E; rewrite H in E; vm_compute in E; lia).
Qed.

Lemma no_prefix_without_letter e :
  run is_upper e = 0 ->
  Forall (fun p => startsWith p e = false)
    ["SUM("; "AVERAGE("; "MIN("; "MAX("; "COUNT("; "COUNTA("; "ROUND("; "CONCAT(";
     "LEN("; "UPPER("; "LOWER("; "TODAY()"; "NOW()"; "IF("; "VLOOKUP("].
Proof.
  intros H. repeat apply List.Forall_cons; try apply List.Forall_nil;
    (destruct (startsWith _ e) eqn:E; [|reflexivity];
     apply (startsWith_run is_upper) in E; [lia | vm_compute; lia]).
Qed.

Lemma no_reference_without_letter e : run is_upper e = 0 -> parseCellReference e = None.
Proof.
  intros H. rewrite parseCellReference_closed. unfold cell_ref_shape. now rewrite H.
Qed.

End FallbackFacts.

Import FallbackFacts.

(** X8: the pattern of the quotes takes one quote from each end. *)
Theorem strip_quotes_takes_one_quote_from_each_end (text : string) :
  strip_quotes text = without_trailing_quote (without_leading_quote text) /\
  (forall q1 q2, is_quote q1 = true -> is_quote q2 = true ->
     strip_quotes (String q1 (text +:+ String q2 EmptyString)) = text) /\
  (all (fun ch => negb (is_quote ch)) text = true -> strip_quotes text = text).
Proof.
  split; [apply strip_quotes_closed|]. split.
  - intros q1 q2. apply strip_quotes_quoted.
  - intros H. rewrite strip_quotes_closed.
    assert (Hlead : without_leading_quote text = text).
    { destruct text as [|ch t]; [reflexivity|]. simpl in *.
      apply andb_prop in H as [Hc _]. apply negb_true_iff in Hc. now rewrite Hc. }
    rewrite Hlead. clear Hlead.
    induction text as [|ch t IH]; [reflexivity|].
    simpl in H. apply andb_prop in H as [Hc Ht]. apply negb_true_iff in Hc.
    simpl. rewrite Hc. rewrite (IH Ht). destruct t; reflexivity.
Qed.



(** X13: in a formula of ASCII text, what is no call, date, pattern or
    reference goes to [eval], less every character that is not an
    arithmetic one; the result is #NAME? when nothing is left and #ERROR!
    when [eval] throws. *)
Theorem arithmetic_goes_to_eval_without_its_letters
    (h : Host) (formula c : string) (cells : gmap string CellData) :
  startsWith "=" formula = true ->
  ascii_text formula = true ->
  run is_upper (expression_of formula) = 0 \/
  (occurrences "(" (expression_of formula) = 0 /\
   parseCellReference (expression_of formula) = None) ->
  evaluateFormula h formula c cells =
    if truthy (only is_arithmetic_char (expression_of formula))
    then try_catch (host_eval h (only is_arithmetic_char (expression_of formula)))
           (fun _ => Ret "#ERROR!")
    else Ret "#NAME?".
Proof.
  intros Hf _ Hcase. rewrite evaluateFormula_formula by assumption.
  destruct Hcase as [Hrun | [Hparen Href]].
  - rewrite evaluate_body_rest by now apply no_prefix_without_letter.
    rewrite no_reference_without_letter by assumption.
    destruct (truthy _); reflexivity.
  - rewrite evaluate_body_rest by now apply no_prefix_without_paren.
    rewrite Href. destruct (truthy _); reflexivity.
Qed.

Lemma arithmetic_goes_to_eval_without_its_letters_witness :
  evaluateFormula echo_host "=A1+B1" "C1" (<["A1" := cell "40"]> ∅) = Ret "1+1" /\
  evaluateFormula echo_host "=(2 apples + 3) * 4" "C1" ∅ = Ret "(2+3)*4".
Proof.
  split.
  - rewrite (arithmetic_goes_to_eval_without_its_letters echo_host "=A1+B1" "C1"
               (<["A1" := cell "40"]> ∅) eq_refl eq_refl (or_intror (conj eq_refl eq_refl))).
    reflexivity.
  - rewrite (arithmetic_goes_to_eval_without_its_letters echo_host "=(2 apples + 3) * 4" "C1"
               ∅ eq_refl eq_refl (or_introl eq_refl)).
    reflexivity.
Defined.

(** X14: an expression without any arithmetic character is [#NAME?]. *)
Theorem text_without_arithmetic_is_NAME
    (h : Host) (formula c : string) (cells : gmap string CellData) :
  startsWith "=" formula = true ->
  all (fun ch => negb (is_arithmetic_char ch)) (expression_of formula) = true ->
  evaluateFormula h formula c cells = Ret "#NAME?".
Proof.
  intros Hf Hall. set (e := expression_of formula) in *.
  assert (Hparen : occurrences "(" e = 0).
  { apply (all_no_occurrence (fun ch => negb (is_arithmetic_char ch))); [reflexivity | assumption]. }
  assert (Href : parseCellReference e = None).
  { rewrite parseCellReference_closed. destruct (cell_ref_shape e) eqn:Shape; [|reflexivity].
    apply cell_ref_shape_pattern in Shape as (l & d & E & _ & Hd & _ & Hdig).
    rewrite E, all_app in Hall. apply andb_prop in Hall as [_ Hall].
    destruct d as [|ch d]; [congruence|]. simpl in Hall, Hdig.
    apply andb_prop in Hall as [Hc _]. apply andb_prop in Hdig as [Hc' _].
    unfold is_arithmetic_char in Hc. now rewrite Hc' in Hc. }
  rewrite evaluateFormula_formula by assumption. fold e.
  rewrite evaluate_body_rest by now apply no_prefix_without_paren.
  rewrite Href, only_none by assumption. reflexivity.
Qed.

Lemma text_without_arithmetic_is_NAME_witness :
  evaluateFormula (ReferenceHost.at_time 0) "=hello world" "A1" ∅ = Ret "#NAME?" /\
  evaluateFormula (ReferenceHost.at_time 0) "=" "A1" ∅ = Ret "#NAME?".
Proof.
  split; apply text_without_arithmetic_is_NAME; reflexivity.
Defined.

(** X15: [eval] is given arithmetic characters only. *)
Theorem eval_is_given_arithmetic_characters_only
    (h1 h2 : Host) (formula c : string) (cells : gmap string CellData) :
  host_now h1 = host_now h2 ->
  host_toLocaleDateString h1 = host_toLocaleDateString h2 ->
  host_toLocaleString h1 = host_toLocaleString h2 ->
  (forall source,
     source <> EmptyString -> all is_arithmetic_char source = true ->
     host_eval h1 source = host_eval h2 source) ->
  evaluateFormula h1 formula c cells = evaluateFormula h2 formula c cells.
Proof.
  intros Hnow Hdate Hstring Heval. apply evaluateFormula_ext.
  unfold evaluate_body, evaluate_rest. rewrite Hnow, Hdate, Hstring.
  repeat match goal with
         | |- (if ?b then _ else _) = (if ?b then _ else _) => destruct b; [reflexivity|]
         end.
  assert (Hrest : forall e,
            match parseCellReference e with
            | Some _ => Ret (Num.toString (getCellValue e cells))
            | None =>
                if truthy (delete_all not_arithmetic_re e)
                then host_eval h1 (delete_all not_arithmetic_re e)
                else Ret "#NAME?"
            end =
            match parseCellReference e with
            | Some _ => Ret (Num.toString (getCellValue e cells))
            | None =>
                if truthy (delete_all not_arithmetic_re e)
                then host_eval h2 (delete_all not_arithmetic_re e)
                else Ret "#NAME?"
            end).
  { intros e. destruct (parseCellReference e); [reflexivity|].
    destruct (truthy _) eqn:T; [|reflexivity].
    apply Heval.
    - intros E. rewrite E in T. discriminate.
    - rewrite sanitized_closed. apply all_only. }
  repeat match goal with
         | |- context [match exec ?r ?e with _ => _ end] => destruct (exec r e)
         end; try reflexivity; apply Hrest.
Qed.

Lemma eval_is_given_arithmetic_characters_only_witness :
  evaluateFormula echo_host "=2 apples + 3" "A1" ∅ =
  evaluateFormula strict_host "=2 apples + 3" "A1" ∅.
Proof.
  apply eval_is_given_arithmetic_characters_only; try reflexivity.
  intros source _ H. simpl. now rewrite H.
Defined.

(** ** Text functions *)

Module TextFacts.
Import Str Regex StrFacts RegexFacts ResolverFacts LabelFacts ShapeFacts RangeFacts EvalFacts CallFacts RoundFacts FallbackFacts.
#[local] Arguments String.append : simpl nomatch.

Lemma map_app f s t : Str.map f (s +:+ t) = Str.map f s +:+ Str.map f t.
Proof. induction s as [|c s IH]; simpl; [reflexivity | now rewrite IH]. Qed.

Lemma length_map f s : String.length (Str.map f s) = String.length s.
Proof. induction s as [|c s IH]; simpl; [reflexivity | now rewrite IH]. Qed.

Lemma map_map_char f g k s :
  (forall c, f (g c) = k c) -> Str.map f (Str.map g s) = Str.map k s.
Proof. intros H. induction s as [|c s IH]; simpl; [reflexivity | now rewrite H, IH]. Qed.

Lemma toUpperCase_idempotent s : toUpperCase (toUpperCase s) = toUpperCase s.
Proof.
  apply map_map_char. intros c. destruct c as [[] [] [] [] [] [] [] []]; reflexivity.
Qed.

Lemma toLowerCase_toUpperCase s : toLowerCase (toUpperCase s) = toLowerCase s.
Proof.
  apply map_map_char. intros c. destruct c as [[] [] [] [] [] [] [] []]; reflexivity.
Qed.

Lemma rev_app_char s c : rev (s +:+ String c EmptyString) = String c (rev s).
Proof. unfold rev. now rewrite rev_onto_app. Qed.

(** A text with no white space at its two ends is left as it is. *)
Lemma trim_between c s d :
  is_space c = false -> is_space d = false ->
  trim (String c (s +:+ String d EmptyString)) = String c (s +:+ String d EmptyString).
Proof.
  intros Hc Hd. unfold trim, trimStart. cbn [drop_while]. rewrite Hc.
  unfold trimEnd.
  change (String c (s +:+ String d EmptyString)) with (String c s +:+ String d EmptyString).
  rewrite rev_app_char. cbn [drop_while]. rewrite Hd.
  rewrite <- rev_app_char. apply rev_rev.
Qed.

Lemma quote_classes q :
  is_quote q = true -> is_space q = false /\ is_upper q = false /\ upper_char q = q.
Proof. destruct q as [[] [] [] [] [] [] [] []]; vm_compute; intuition congruence. Qed.

(** The expression of a call typed with a quoted text as its argument. *)
Lemma expression_of_quoted name t q1 q2 :
  is_quote q1 = true -> is_quote q2 = true ->
  name <> EmptyString -> toUpperCase name = name -> all (fun c => negb (is_space c)) name = true ->
  expression_of ("=" +:+ name +:+ "(" +:+ String q1 (t +:+ String q2 ")")) =
    name +:+ "(" +:+ String q1 (toUpperCase t +:+ String q2 EmptyString) +:+ ")".
Proof.
  intros Q1 Q2 Hne Hup Hsp. unfold expression_of, substring_from.
  change (drop 1 ("=" +:+ name +:+ "(" +:+ String q1 (t +:+ String q2 ")")))
    with (name +:+ "(" +:+ String q1 (t +:+ String q2 ")")).
  destruct name as [|c name]; [congruence|].
  simpl in Hsp. apply andb_prop in Hsp as [Hc _]. apply negb_true_iff in Hc.
  assert (E : String c name +:+ "(" +:+ String q1 (t +:+ String q2 ")") =
              String c ((name +:+ "(" +:+ String q1 (t +:+ String q2 EmptyString)) +:+ ")")).
  { simpl. f_equal. rewrite !str_app_assoc. simpl. f_equal. f_equal.
    change (String q2 ")") with (String q2 EmptyString +:+ ")").
    now rewrite <- str_app_assoc. }
  rewrite E. rewrite trim_between by (assumption || reflexivity).
  rewrite <- E. unfold toUpperCase in *. rewrite !map_app. rewrite Hup.
  cbn [Str.map]. rewrite map_app. cbn [Str.map].
  destruct (quote_classes q1 Q1) as (_ & _ & ->). destruct (quote_classes q2 Q2) as (_ & _ & ->).
  change (upper_char "(") with "("%char. change (upper_char ")") with ")"%char.
  do 2 f_equal. change (String q2 ")") with (String q2 EmptyString +:+ ")").
  now rewrite <- str_app_assoc.
Qed.

Lemma text_argument_quoted t q1 q2 cells :
  is_quote q1 = true -> is_quote q2 = true ->
  text_argument (trim (String q1 (t +:+ String q2 EmptyString))) cells = t.
Proof.
  intros Q1 Q2.
  destruct (quote_classes q1 Q1) as (S1 & U1 & _). destruct (quote_classes q2 Q2) as (S2 & _ & _).
  rewrite trim_between by assumption. unfold text_argument.
  rewrite no_reference_without_letter by (cbn [run]; now rewrite U1).
  now apply strip_quotes_quoted.
Qed.

Lemma text_argument_reference ref r cells :
  parseCellReference ref = Some r ->
  trim ref = ref /\ text_argument ref cells = getCellText ref cells.
Proof.
  intros Href. split.
  - apply trim_plain. destruct (parsed_reference_chars ref r Href) as (_ & Hchars & _).
    revert Hchars. apply all_impl. intros ch Hch. apply negb_true_iff.
    revert Hch. clear. destruct ch as [[] [] [] [] [] [] [] []]; vm_compute; congruence.
  - unfold text_argument. now rewrite Href.
Qed.

(** *** [split] undoes [join] *)

Lemma split_join_with sep parts :
  parts <> [] -> Forall (fun part => occurrences sep part = 0) parts ->
  split sep (join_with (String sep EmptyString) parts) = parts.
Proof.
  induction parts as [|part rest IH]; [congruence|]. intros _ Hall.
  apply Forall_cons_iff in Hall as [Hpart Hrest].
  destruct rest as [|part' rest'].
  - simpl. now apply split_whole.
  - change (join_with (String sep EmptyString) (part :: part' :: rest'))
      with (part +:+ String sep (join_with (String sep EmptyString) (part' :: rest'))).
    rewrite split_at_separator by assumption. f_equal. apply IH; [discriminate | assumption].
Qed.

End TextFacts.

Import TextFacts.
#[local] Arguments String.append : simpl nomatch.

(** X9: LEN, UPPER and LOWER of a quoted text. For every ASCII text
    between two quotes, LEN returns its length, UPPER the text in upper
    case and LOWER the text in lower case. *)
Theorem text_functions_of_a_quoted_text
    (h : Host) (c text : string) (q1 q2 : ascii) (cells : gmap string CellData) :
  is_quote q1 = true -> is_quote q2 = true ->
  ascii_text text = true ->
  evaluateFormula h ("=LEN(" +:+ String q1 (text +:+ String q2 ")")) c cells =
    Ret (Int.toString (Z.of_nat (String.length text))) /\
  evaluateFormula h ("=UPPER(" +:+ String q1 (text +:+ String q2 ")")) c cells =
    Ret (toUpperCase text) /\
  evaluateFormula h ("=LOWER(" +:+ String q1 (text +:+ String q2 ")")) c cells =
    Ret (toLowerCase text).
Proof.
  intros Q1 Q2 _.
  assert (Hbody : forall name,
            name <> EmptyString -> toUpperCase name = name ->
            all (fun ch => negb (is_space ch)) name = true ->
            evaluateFormula h ("=" +:+ name +:+ "(" +:+ String q1 (text +:+ String q2 ")")) c cells =
              try_catch (evaluate_body h
                (name +:+ "(" +:+ String q1 (toUpperCase text +:+ String q2 EmptyString) +:+ ")") cells)
                (fun _ => Ret "#ERROR!")).
  { intros name H1 H2 H3. rewrite evaluateFormula_formula by reflexivity.
    now rewrite expression_of_quoted. }
  split; [|split].
  - change ("=LEN(" +:+ String q1 (text +:+ String q2 ")"))
      with ("=" +:+ "LEN" +:+ "(" +:+ String q1 (text +:+ String q2 ")")).
    rewrite Hbody by (discriminate || reflexivity).
    destruct (call_shape "LEN" (String q1 (toUpperCase text +:+ String q2 EmptyString))) as [Hc Ha].
    rewrite evaluate_body_len by exact Hc. rewrite Ha.
    rewrite text_argument_quoted by assumption.
    unfold toUpperCase. now rewrite length_map.
  - change ("=UPPER(" +:+ String q1 (text +:+ String q2 ")"))
      with ("=" +:+ "UPPER" +:+ "(" +:+ String q1 (text +:+ String q2 ")")).
    rewrite Hbody by (discriminate || reflexivity).
    destruct (call_shape "UPPER" (String q1 (toUpperCase text +:+ String q2 EmptyString))) as [Hc Ha].
    rewrite evaluate_body_upper by exact Hc. rewrite Ha.
    rewrite text_argument_quoted by assumption.
    now rewrite toUpperCase_idempotent.
  - change ("=LOWER(" +:+ String q1 (text +:+ String q2 ")"))
      with ("=" +:+ "LOWER" +:+ "(" +:+ String q1 (text +:+ String q2 ")")).
    rewrite Hbody by (discriminate || reflexivity).
    destruct (call_shape "LOWER" (String q1 (toUpperCase text +:+ String q2 EmptyString))) as [Hc Ha].
    rewrite evaluate_body_lower by exact Hc. rewrite Ha.
    rewrite text_argument_quoted by assumption.
    now rewrite toLowerCase_toUpperCase.
Qed.

Lemma text_functions_of_a_quoted_text_witness :
  evaluateFormula (ReferenceHost.at_time 0) ("=LEN('Hello, World')") "A1" ∅ = Ret "12" /\
  evaluateFormula (ReferenceHost.at_time 0) ("=LOWER('Hello, World')") "A1" ∅ = Ret "hello, world".
Proof.
  pose proof (text_functions_of_a_quoted_text (ReferenceHost.at_time 0) "A1" "Hello, World"
                "'" "'" ∅ eq_refl eq_refl eq_refl) as (Hlen & _ & Hlower).
  split; [exact Hlen | exact Hlower].
Defined.

(** X10: LEN, UPPER and LOWER of a reference, in a formula of ASCII text and
    for a cell whose text is ASCII: the length of the text of the cell,
    the text in upper case, the text in lower case. *)
Theorem text_functions_of_a_reference
    (h : Host) (formula c name ref : string) (r : CellRef) (cells : gmap string CellData) :
  startsWith "=" formula = true ->
  ascii_text formula = true ->
  expression_of formula = name +:+ "(" +:+ ref +:+ ")" ->
  parseCellReference ref = Some r ->
  ascii_text (getCellText ref cells) = true ->
  (name = "LEN" ->
   evaluateFormula h formula c cells =
     Ret (Int.toString (Z.of_nat (String.length (getCellText ref cells))))) /\
  (name = "UPPER" ->
   evaluateFormula h formula c cells = Ret (toUpperCase (getCellText ref cells))) /\
  (name = "LOWER" ->
   evaluateFormula h formula c cells = Ret (toLowerCase (getCellText ref cells))).
Proof.
  intros Hf _ He Href _.
  destruct (call_shape name ref) as [Hc Ha]. rewrite <- He in Hc, Ha.
  destruct (text_argument_reference ref r cells Href) as [Htrim Htext].
  rewrite evaluateFormula_formula by assumption.
  split; [|split]; intros ->.
  - rewrite evaluate_body_len by exact Hc. now rewrite Ha, Htrim, Htext.
  - rewrite evaluate_body_upper by exact Hc. now rewrite Ha, Htrim, Htext.
  - rewrite evaluate_body_lower by exact Hc. now rewrite Ha, Htrim, Htext.
Qed.

Lemma text_functions_of_a_reference_witness :
  evaluateFormula (ReferenceHost.at_time 0) "=len(b2)" "A1" (<["B2" := cell "Total: 5"]> ∅) = Ret "8" /\
  evaluateFormula (ReferenceHost.at_time 0) "=len(b2)" "A1" ∅ = Ret "0" /\
  evaluateFormula (ReferenceHost.at_time 0) "=lower(b2)" "A1" (<["B2" := cell "Total: 5"]> ∅) =
    Ret "total: 5".
Proof.
  split; [|split].
  - exact (proj1 (text_functions_of_a_reference (ReferenceHost.at_time 0) "=len(b2)" "A1" "LEN" "B2"
             {| col := 1; row := 1 |} (<["B2" := cell "Total: 5"]> ∅)
             eq_refl eq_refl eq_refl eq_refl eq_refl) eq_refl).
  - exact (proj1 (text_functions_of_a_reference (ReferenceHost.at_time 0) "=len(b2)" "A1" "LEN" "B2"
             {| col := 1; row := 1 |} ∅ eq_refl eq_refl eq_refl eq_refl eq_refl) eq_refl).
  - exact (proj2 (proj2 (text_functions_of_a_reference (ReferenceHost.at_time 0) "=lower(b2)" "A1"
             "LOWER" "B2" {| col := 1; row := 1 |} (<["B2" := cell "Total: 5"]> ∅)
             eq_refl eq_refl eq_refl eq_refl eq_refl)) eq_refl).
Defined.



(** ** The keys of the cells *)

Module KeyFacts.
Import Str Regex StrFacts RegexFacts ResolverFacts LabelFacts ShapeFacts RangeFacts EvalFacts CallFacts RoundFacts FallbackFacts.
#[local] Arguments String.append : simpl nomatch.

(** *** Writing a row number and reading it back *)

Lemma all_digit_string_of_uint u : all is_digit (NilEmpty.string_of_uint u) = true.
Proof. induction u; simpl; auto. Qed.

Ltac digit_step :=
  match goal with
  | |- context [Int.digit_of ?ch] =>
      let v := eval vm_compute in (Int.digit_of ch) in change (Int.digit_of ch) with v
  end.

Lemma digits_string_of_uint u p :
  Int.digits Int.digit_of 10 (NilEmpty.string_of_uint u) (Some (Z.pos p)) =
    Some (Z.pos (Pos.of_uint_acc u p)).
Proof.
  revert p. induction u; intros p; [reflexivity|..];
    cbn [NilEmpty.string_of_uint Int.digits Pos.of_uint_acc]; digit_step;
    cbn [default id]; rewrite <- IHu; do 2 f_equal; lia.
Qed.

Lemma digits_string_of_uint_zero u :
  Int.digits Int.digit_of 10 (NilEmpty.string_of_uint u) (Some 0%Z) =
    Some (Z.of_N (Pos.of_uint u)).
Proof.
  induction u; [reflexivity|..];
    cbn [NilEmpty.string_of_uint Int.digits Pos.of_uint]; digit_step;
    cbn [default id]; [exact IHu|..];
    match goal with
    | |- context [Some (0 * 10 + ?d)%Z] => change (0 * 10 + d)%Z with d
    end;
    apply digits_string_of_uint.
Qed.

Lemma digits_string_of_uint_none u :
  u <> Decimal.Nil ->
  Int.digits Int.digit_of 10 (NilEmpty.string_of_uint u) None =
    Some (Z.of_N (Pos.of_uint u)).
Proof.
  destruct u; [congruence|..]; intros _;
    cbn [NilEmpty.string_of_uint Int.digits Pos.of_uint]; digit_step;
    cbn [default id]; [apply digits_string_of_uint_zero|..];
    match goal with
    | |- context [Some (0 * 10 + ?d)%Z] => change (0 * 10 + d)%Z with d
    end;
    apply digits_string_of_uint.
Qed.

(** [parseInt] on a run of digits reads all of them. *)
Lemma parseInt_all_digits t :
  t <> EmptyString -> all is_digit t = true ->
  Int.parseInt t = Int.digits Int.digit_of 10 t None.
Proof.
  destruct t as [|c t]; [congruence|]. intros _ Hall.
  simpl in Hall. apply andb_prop in Hall as [Hc Hall].
  destruct (digit_cases c Hc) as (Hsp & Hm & Hp & _ & _ & d & Hd & _).
  assert (Htrim : trimStart (String c t) = String c t).
  { unfold trimStart. cbn [drop_while]. now rewrite Hsp. }
  unfold Int.parseInt. rewrite Htrim.
  assert (Hsign : (match String c t with
                   | String "-"%char s' => (true, s')
                   | String "+"%char s' => (false, s')
                   | _ => (false, String c t)
                   end) = (false, String c t)).
  { destruct c as [[] [] [] [] [] [] [] []]; try reflexivity; congruence. }
  rewrite Hsign. cbv beta iota zeta.
  assert (Hx : startsWith "0x" (String c t) || startsWith "0X" (String c t) = false).
  { destruct t as [|e t]; cbn [startsWith].
    - now rewrite !andb_false_r.
    - simpl in Hall. apply andb_prop in Hall as [He _].
      destruct (digit_cases e He) as (_ & _ & _ & Hx1 & Hx2 & _).
      rewrite (proj2 (Ascii.eqb_neq "x" e)) by congruence.
      rewrite (proj2 (Ascii.eqb_neq "X" e)) by congruence.
      now rewrite !andb_false_r. }
  rewrite Hx.
  destruct (Int.digits Int.digit_of 10 (String c t) None); reflexivity.
Qed.

(** The decimal digits of a number that is not negative, and what
    [parseInt] reads in them. *)
Lemma toString_digits n :
  (0 <= n)%Z ->
  Int.toString n <> EmptyString /\ all is_digit (Int.toString n) = true /\
  Int.parseInt (Int.toString n) = Some n.
Proof.
  intros Hn. destruct n as [|p|p]; [repeat split; discriminate | | lia].
  unfold Int.toString. cbn [Z.to_int NilZero.string_of_int].
  pose proof (Unsigned.to_uint_nonnil p) as Hnil.
  assert (E : NilZero.string_of_uint (Pos.to_uint p) = NilEmpty.string_of_uint (Pos.to_uint p)).
  { unfold NilZero.string_of_uint. destruct (Pos.to_uint p); [congruence | reflexivity..]. }
  rewrite E.
  assert (Hne : NilEmpty.string_of_uint (Pos.to_uint p) <> EmptyString).
  { destruct (Pos.to_uint p); [congruence | discriminate..]. }
  split; [exact Hne|]. split; [apply all_digit_string_of_uint|].
  rewrite parseInt_all_digits by (exact Hne || apply all_digit_string_of_uint).
  rewrite digits_string_of_uint_none by assumption.
  now rewrite DecimalPos.Unsigned.of_to.
Qed.

(** *** The label of a column *)

Lemma upper_fromCharCode m :
  (0 <= m < 26)%Z -> all is_upper (fromCharCode (65 + m)) = true.
Proof.
  intros Hm. unfold fromCharCode. cbn [all]. rewrite andb_true_r.
  unfold is_upper. rewrite nat_ascii_embedding by lia.
  apply andb_true_intro. split; apply Nat.leb_le; lia.
Qed.

Lemma getColumnLabel_letters n :
  all is_upper (getColumnLabel n) = true /\
  ((0 <= n)%Z -> getColumnLabel n <> EmptyString).
Proof.
  unfold getColumnLabel. pattern n. apply label_loop_ind; clear n.
  - intros n Hn. rewrite label_loop_done by lia. split; [reflexivity | lia].
  - intros n Hn [IH _]. rewrite label_loop_step by lia. rewrite label_loop_acc.
    rewrite str_app_nil_r. rewrite Z.rem_mod_nonneg by lia.
    pose proof (Z.mod_pos_bound n 26 ltac:(lia)) as Hm.
    split.
    + rewrite all_app, IH. now apply upper_fromCharCode.
    + intros _ E. apply (f_equal String.length) in E.
      rewrite str_length_app in E. unfold fromCharCode in E. simpl in E. lia.
Qed.

(** *** The key of a cell reads back as the cell *)

Lemma parseCellReference_cell_id c r :
  (0 <= c)%Z -> (-1 <= r)%Z ->
  parseCellReference (cell_id c r) = Some {| col := c; row := r |}.
Proof.
  intros Hc Hr. unfold cell_id.
  destruct (getColumnLabel_letters c) as [Hup Hne]. specialize (Hne Hc).
  destruct (toString_digits (r + 1) ltac:(lia)) as (Hdne & Hdig & Hparse).
  assert (Hrun : run is_upper (getColumnLabel c +:+ Int.toString (r + 1)) =
                 String.length (getColumnLabel c)).
  { apply run_app_stop; [exact Hup|].
    destruct (Int.toString (r + 1)) as [|ch d]; [congruence|]. simpl in Hdig |- *.
    apply andb_prop in Hdig as [Hch _]. now rewrite (digit_not_upper ch Hch). }
  rewrite parseCellReference_closed.
  assert (Shape : cell_ref_shape (getColumnLabel c +:+ Int.toString (r + 1)) = true).
  { apply cell_ref_shape_pattern. exists (getColumnLabel c), (Int.toString (r + 1)). auto. }
  rewrite Shape, Hrun, take_app, drop_app, Hparse.
  rewrite column_loop_getColumnLabel by lia. cbn [default id]. f_equal. f_equal; lia.
Qed.

Lemma cell_id_injective c r c' r' :
  (0 <= c)%Z -> (-1 <= r)%Z -> (0 <= c')%Z -> (-1 <= r')%Z ->
  cell_id c r = cell_id c' r' -> c = c' /\ r = r'.
Proof.
  intros Hc Hr Hc' Hr' E.
  pose proof (parseCellReference_cell_id c r Hc Hr) as P.
  rewrite E, parseCellReference_cell_id in P by assumption.
  injection P as -> ->. auto.
Qed.

(** The row of a parsed reference is -1 at least, its column 0 at least. *)
Lemma parseCellReference_bounds ref a :
  parseCellReference ref = Some a -> (0 <= col a)%Z /\ (-1 <= row a)%Z.
Proof.
  intros Href. split.
  - pose proof Href as Hclosed. rewrite parseCellReference_closed in Hclosed.
    destruct (cell_ref_shape ref) eqn:Shape; [|discriminate]. injection Hclosed as <-.
    cbn [col].
    unfold cell_ref_shape in Shape. cbv zeta in Shape.
    apply andb_prop in Shape as [[Hn _]%andb_prop _]. apply Nat.leb_le in Hn.
    pose proof (all_take_run is_upper ref) as Hall.
    pose proof (length_take (run is_upper ref) ref) as Hlen.
    pose proof (run_le is_upper ref) as Hle.
    destruct (take (run is_upper ref) ref) as [|ch l] eqn:E; [simpl in Hlen; lia|].
    clear Hlen E. simpl in Hall. apply andb_prop in Hall as [Hch Hl].
    cbn [column_loop]. destruct (upper_code ch Hch) as [Hcode _].
    assert (Hmono : forall s x, all is_upper s = true -> (1 <= x)%Z -> (1 <= column_loop s x)%Z).
    { clear. induction s as [|ch s IH]; intros x Hs Hx; simpl in *; [lia|].
      apply andb_prop in Hs as [Hch Hs]. destruct (upper_code ch Hch) as [Hcode _].
      apply IH; [assumption | lia]. }
    specialize (Hmono l (0 * 26 + (charCode ch - 64))%Z Hl ltac:(lia)). lia.
  - destruct (parseCellReference_row ref a Href) as (v & Hv & ->).
    assert (0 <= v)%Z; [|lia].
    unfold Int.parseInt in Hv.
    rewrite parseCellReference_closed in Href.
    destruct (cell_ref_shape ref) eqn:Shape; [|discriminate].
    apply cell_ref_shape_pattern in Shape as (l & d & -> & Hl & Hd & Hup & Hdig).
    assert (Hrun : run is_upper (l +:+ d) = String.length l).
    { apply run_app_stop; [exact Hup|].
      destruct d as [|ch d]; [congruence|]. simpl in Hdig |- *.
      apply andb_prop in Hdig as [Hch _]. now rewrite (digit_not_upper ch Hch). }
    rewrite Hrun, drop_app in Hv.
    fold (Int.parseInt d) in Hv. rewrite parseInt_all_digits in Hv by assumption.
    assert (Hnonneg : forall s acc v, all is_digit s = true ->
              (forall a, acc = Some a -> (0 <= a)%Z) ->
              Int.digits Int.digit_of 10 s acc = Some v -> (0 <= v)%Z).
    { clear. induction s as [|ch s IH]; intros acc v Hs Hacc; simpl.
      - intros ->. now apply Hacc.
      - simpl in Hs. apply andb_prop in Hs as [Hch Hs].
        destruct (digit_cases ch Hch) as (_ & _ & _ & _ & _ & dg & -> & Hdg).
        apply IH; [assumption|]. intros a [= <-].
        destruct acc as [a0|]; cbn [default id]; [specialize (Hacc a0 eq_refl)|]; lia. }
    apply (Hnonneg d None v Hdig); [discriminate | exact Hv].
Qed.

End KeyFacts.

Import KeyFacts.

(** ** Ranges and rectangles of keys *)

Module RectangleFacts.
Import Str Regex StrFacts RegexFacts ResolverFacts LabelFacts ShapeFacts RangeFacts EvalFacts CallFacts RoundFacts FallbackFacts KeyFacts.
#[local] Arguments String.append : simpl nomatch.

(** A position of the rectangle, as a row and a column of it. *)
Lemma rectangle_position a b n :
  n < length (rectangle a b) ->
  exists i j,
    (0 <= i < row b - row a + 1)%Z /\ (0 <= j < col b - col a + 1)%Z /\
    n = Z.to_nat (i * (col b - col a + 1) + j) /\
    rectangle a b !! n = Some (cell_id (col a + j) (row a + i)).
Proof.
  rewrite length_rectangle. intros Hn.
  set (w := (col b - col a + 1)%Z) in *. set (rows := (row b - row a + 1)%Z) in *.
  assert (Hw : (0 < w)%Z) by (destruct (Z_lt_dec 0 w); [assumption | nia]).
  assert (Hrows : (0 < rows)%Z) by (destruct (Z_lt_dec 0 rows); [assumption | nia]).
  pose proof (Z.div_mod (Z.of_nat n) w ltac:(lia)) as Hdm.
  pose proof (Z.mod_pos_bound (Z.of_nat n) w Hw) as Hm.
  assert (0 <= Z.of_nat n / w)%Z by (apply Z.div_pos; lia).
  assert (Z.of_nat n / w < rows)%Z by (apply Z.div_lt_upper_bound; nia).
  exists (Z.of_nat n / w)%Z, (Z.of_nat n mod w)%Z.
  assert (E : n = Z.to_nat (Z.of_nat n / w * w + Z.of_nat n mod w)) by lia.
  repeat split; try lia.
  rewrite E at 1. apply lookup_rectangle; fold w rows; lia.
Qed.

(** The keys of a rectangle that starts at a parsed corner are distinct. *)
Lemma NoDup_rectangle a b :
  (0 <= col a)%Z -> (-1 <= row a)%Z -> NoDup (rectangle a b).
Proof.
  intros Hc Hr. apply NoDup_alt. intros n n' x Hn Hn'.
  destruct (rectangle_position a b n) as (i & j & Hi & Hj & En & Ln);
    [now apply lookup_lt_Some in Hn|].
  destruct (rectangle_position a b n') as (i' & j' & Hi' & Hj' & En' & Ln');
    [now apply lookup_lt_Some in Hn'|].
  rewrite Ln in Hn. rewrite Ln' in Hn'. injection Hn as <-. injection Hn' as Hx.
  apply cell_id_injective in Hx as [Hcol Hrow]; lia.
Qed.

Lemma In_rectangle a b x :
  In x (rectangle a b) ->
  exists i j, (0 <= i < row b - row a + 1)%Z /\ (0 <= j < col b - col a + 1)%Z /\
              x = cell_id (col a + j) (row a + i).
Proof.
  intros Hin. apply list_elem_of_In, list_elem_of_lookup in Hin as [n Hn].
  destruct (rectangle_position a b n) as (i & j & Hi & Hj & _ & Ln);
    [now apply lookup_lt_Some in Hn|].
  rewrite Ln in Hn. injection Hn as <-. eauto.
Qed.

Lemma rectangle_In a b i j :
  (0 <= i < row b - row a + 1)%Z -> (0 <= j < col b - col a + 1)%Z ->
  In (cell_id (col a + j) (row a + i)) (rectangle a b).
Proof.
  intros Hi Hj. apply list_elem_of_In, list_elem_of_lookup.
  eexists. now apply lookup_rectangle.
Qed.

(** *** The pieces of [split] *)

Lemma split_pieces sep s : Forall (fun piece => occurrences sep piece = 0) (split sep s).
Proof.
  induction s as [|c s IH]; simpl.
  - constructor; [reflexivity | constructor].
  - destruct (Ascii.eqb c sep) eqn:E.
    + constructor; [reflexivity | exact IH].
    + destruct (split sep s) as [|piece rest]; [repeat constructor; simpl; now rewrite E|].
      apply Forall_cons_iff in IH as [Hp Hr]. constructor; [|exact Hr].
      simpl. now rewrite E, Hp.
Qed.

Lemma parseRange_without_colon range : occurrences ":" range = 0 -> parseRange range = [].
Proof. intros H. unfold parseRange. now rewrite split_whole. Qed.

Lemma parseCellReference_none ref : ~ cell_pattern ref -> parseCellReference ref = None.
Proof.
  intros H. rewrite parseCellReference_closed.
  destruct (cell_ref_shape ref) eqn:Shape; [|reflexivity].
  now apply cell_ref_shape_pattern in Shape.
Qed.

(** *** Loops *)



End RectangleFacts.

Import RectangleFacts.

(** X18: the key of a cell of the grid reads back as the cell, for a row
    and a column from 0 whose numbers, counted from one, are safe
    integers; so the cells of the grid have distinct keys. *)
Theorem getCellId_reads_back_as_the_cell (row col : Z) :
  (0 <= row)%Z -> (0 <= col)%Z ->
  safe_reference {| col := col; row := row |} ->
  parseCellReference (Grid.getCellId row col) = Some {| col := col; row := row |} /\
  cell_pattern (Grid.getCellId row col) /\
  (forall row' col', (0 <= row')%Z -> (0 <= col')%Z ->
     safe_reference {| col := col'; row := row' |} ->
     Grid.getCellId row' col' = Grid.getCellId row col -> row' = row /\ col' = col).
Proof.
  intros Hrow Hcol _.
  assert (Hparse : parseCellReference (Grid.getCellId row col) =
                     Some {| col := col; row := row |})
    by (apply parseCellReference_cell_id; lia).
  split; [exact Hparse|]. split.
  - apply cell_ref_shape_pattern. rewrite parseCellReference_closed in Hparse.
    destruct (cell_ref_shape _); [reflexivity | discriminate].
  - intros row' col' Hrow' Hcol' _ E.
    apply (cell_id_injective col' row' col row) in E; [tauto | lia..].
Qed.

Lemma getCellId_reads_back_as_the_cell_witness :
  parseCellReference (Grid.getCellId 9999 49) = Some {| col := 49; row := 9999 |} /\
  Grid.getCellId 9999 49 = "AX10000".
Proof.
  split.
  - apply (getCellId_reads_back_as_the_cell 9999 49); try lia.
    unfold safe_reference, max_safe_integer. cbn [col row]. lia.
  - vm_compute. reflexivity.
Defined.

(** X17: the keys of a safe range (corners that are safe integers, fewer
    than 2^32 cells) are distinct references inside the range, and every
    cell of the range has its key among them. *)
Theorem parseRange_gives_distinct_references
    (range start end_ : string) (a b : CellRef) :
  split ":" range !! 0 = Some start ->
  split ":" range !! 1 = Some end_ ->
  parseCellReference start = Some a ->
  parseCellReference end_ = Some b ->
  safe_range a b ->
  NoDup (parseRange range) /\
  (forall cellId, In cellId (parseRange range) ->
     exists r, parseCellReference cellId = Some r /\
               (row a <= row r <= row b)%Z /\ (col a <= col r <= col b)%Z) /\
  (forall r, (row a <= row r <= row b)%Z -> (col a <= col r <= col b)%Z ->
     In (cell_id (col r) (row r)) (parseRange range)).
Proof.
  intros H0 H1 Ha Hb _. rewrite (parseRange_parts range start end_ a b) by assumption.
  destruct (parseCellReference_bounds start a Ha) as [Hcol Hrow].
  split; [now apply NoDup_rectangle|]. split.
  - intros cellId Hin. apply In_rectangle in Hin as (i & j & Hi & Hj & ->).
    exists {| col := col a + j; row := row a + i |}.
    rewrite parseCellReference_cell_id by lia. cbn [col row]. repeat split; lia.
  - intros r Hr Hc.
    replace (col r) with (col a + (col r - col a))%Z by lia.
    replace (row r) with (row a + (row r - row a))%Z by lia.
    apply rectangle_In; lia.
Qed.

Lemma parseRange_gives_distinct_references_witness :
  NoDup (parseRange "Z1:AB2") /\
  In (cell_id 26 1) (parseRange "Z1:AB2").
Proof.
  pose proof (parseRange_gives_distinct_references "Z1:AB2" "Z1" "AB2"
                {| col := 25; row := 0 |} {| col := 27; row := 1 |}
                ltac:(vm_compute; reflexivity) ltac:(vm_compute; reflexivity)
                ltac:(vm_compute; reflexivity) ltac:(vm_compute; reflexivity)
                ltac:(unfold safe_range, safe_reference, max_safe_integer, max_array_length;
                      cbn [col row]; lia))
    as (Hdistinct & _ & Hin).
  split; [exact Hdistinct|].
  apply (Hin {| col := 26; row := 1 |}); cbn [col row]; lia.
Defined.

(** X16: a range that is not two references with a colon between them has
    no cells. *)
Theorem parseRange_of_a_malformed_range_is_empty (range : string) :
  (occurrences ":" range = 0 -> parseRange range = []) /\
  (forall start end_ rest,
     split ":" range = start :: end_ :: rest ->
     ~ cell_pattern start \/ ~ cell_pattern end_ ->
     parseRange range = []) /\
  (forall start end_ rest,
     split ":" range = start :: end_ :: rest ->
     parseRange range = parseRange (start +:+ ":" +:+ end_)).
Proof.
  split; [apply parseRange_without_colon|]. split.
  - intros start end_ rest Hsplit Hbad. unfold parseRange. rewrite Hsplit. cbn [lookup list_lookup].
    destruct (negb (truthy start) || negb (truthy end_)); [reflexivity|].
    destruct Hbad as [Hbad | Hbad]; rewrite (parseCellReference_none _ Hbad);
      [reflexivity | destruct (parseCellReference start); reflexivity].
  - intros start end_ rest Hsplit.
    pose proof (split_pieces ":" range) as Hpieces. rewrite Hsplit in Hpieces.
    apply Forall_cons_iff in Hpieces as [Hs Hpieces].
    apply Forall_cons_iff in Hpieces as [He _].
    unfold parseRange. rewrite Hsplit.
    change (start +:+ ":" +:+ end_) with (start +:+ String ":" end_).
    rewrite split_two by assumption. reflexivity.
Qed.

(** X4: an aggregate of what is no range is 0. *)
Theorem aggregate_of_a_single_reference_is_zero
    (h : Host) (formula c name argument : string) (cells : gmap string CellData) :
  In name ["SUM"; "AVERAGE"; "MIN"; "MAX"; "COUNT"; "COUNTA"] ->
  startsWith "=" formula = true ->
  expression_of formula = name +:+ "(" +:+ argument +:+ ")" ->
  occurrences ":" argument = 0 ->
  evaluateFormula h formula c cells = Ret "0".
Proof.
  intros Hname Hf He Hcolon.
  destruct (call_shape name argument) as [Hc Ha]. rewrite <- He in Hc, Ha.
  pose proof (parseRange_without_colon argument Hcolon) as Hempty. rewrite <- Ha in Hempty.
  rewrite evaluateFormula_formula by assumption.
  simpl in Hname. destruct Hname as [<-|[<-|[<-|[<-|[<-|[<-|[]]]]]]].
  - rewrite evaluate_body_sum by assumption. now rewrite Hempty.
  - now rewrite evaluate_body_average.
  - now rewrite evaluate_body_min.
  - now rewrite evaluate_body_max.
  - rewrite evaluate_body_count by assumption. now rewrite Hempty.
  - rewrite evaluate_body_counta by assumption. now rewrite Hempty.
Qed.

Lemma aggregate_of_a_single_reference_is_zero_witness :
  evaluateFormula (ReferenceHost.at_time 0) "=SUM(A1)" "B1" (<["A1" := cell "5"]> ∅) = Ret "0" /\
  evaluateFormula (ReferenceHost.at_time 0) "=counta(a1)" "B1" (<["A1" := cell "5"]> ∅) = Ret "0".
Proof.
  split.
  - apply (aggregate_of_a_single_reference_is_zero _ _ _ "SUM" "A1");
      [simpl; auto | reflexivity..].
  - apply (aggregate_of_a_single_reference_is_zero _ _ _ "COUNTA" "A1");
      [simpl; auto 10 | reflexivity..].
Defined.




(** ** The case of a formula, and the two patterns once more *)

Module PatternFacts.
Import Str Regex StrFacts RegexFacts ResolverFacts LabelFacts ShapeFacts RangeFacts EvalFacts CallFacts RoundFacts FallbackFacts TextFacts.
#[local] Arguments String.append : simpl nomatch.

(** *** Case *)

Lemma map_drop f n s : Str.map f (drop n s) = drop n (Str.map f s).
Proof.
  revert s. induction n as [|n IH]; intros s; destruct s as [|c s]; simpl; try reflexivity.
  apply IH.
Qed.

Lemma map_rev_onto f s a : Str.map f (rev_onto s a) = rev_onto (Str.map f s) (Str.map f a).
Proof. revert a. induction s as [|c s IH]; intros a; simpl; [reflexivity | apply IH]. Qed.

Lemma map_drop_while f p s :
  (forall c, p (f c) = p c) ->
  Str.map f (drop_while p s) = drop_while p (Str.map f s).
Proof.
  intros H. induction s as [|c s IH]; simpl; [reflexivity|].
  rewrite H. destruct (p c); [exact IH | reflexivity].
Qed.

Lemma map_trim f s :
  (forall c, is_space (f c) = is_space c) -> Str.map f (trim s) = trim (Str.map f s).
Proof.
  intros H. unfold trim, trimEnd, trimStart, rev.
  rewrite map_rev_onto. cbn [Str.map]. rewrite map_drop_while by exact H.
  rewrite map_rev_onto. cbn [Str.map]. rewrite map_drop_while by exact H.
  reflexivity.
Qed.

Lemma is_space_upper_char c : is_space (upper_char c) = is_space c.
Proof. destruct c as [[] [] [] [] [] [] [] []]; reflexivity. Qed.

Lemma is_space_lower_char c : is_space (lower_char c) = is_space c.
Proof. destruct c as [[] [] [] [] [] [] [] []]; reflexivity. Qed.

Lemma toUpperCase_toLowerCase s : toUpperCase (toLowerCase s) = toUpperCase s.
Proof.
  apply map_map_char. intros c. destruct c as [[] [] [] [] [] [] [] []]; reflexivity.
Qed.

(** The expression of a formula does not depend on the case it is typed
    in. *)
Lemma expression_of_case formula :
  expression_of (toUpperCase formula) = expression_of formula /\
  expression_of (toLowerCase formula) = expression_of formula.
Proof.
  unfold expression_of, substring_from. split.
  - unfold toUpperCase at 2. rewrite <- map_drop.
    rewrite <- map_trim by apply is_space_upper_char.
    apply toUpperCase_idempotent.
  - unfold toLowerCase. rewrite <- map_drop.
    rewrite <- map_trim by apply is_space_lower_char.
    apply toUpperCase_toLowerCase.
Qed.

Lemma startsWith_equals_case formula :
  startsWith "=" formula = true ->
  startsWith "=" (toUpperCase formula) = true /\ startsWith "=" (toLowerCase formula) = true.
Proof.
  destruct formula as [|c s]; [discriminate|]. cbn [startsWith].
  rewrite andb_true_r. intros <-%Ascii.eqb_eq. split; reflexivity.
Qed.

(** *** A formula of the shape IF(ref op num,t,f) *)


(** *** A formula of the shape VLOOKUP(v,start:end,k,d) *)


End PatternFacts.

Import PatternFacts.
#[local] Arguments String.append : simpl nomatch.

(** X21: a formula of ASCII text is read without regard to its case: the
    formula with its letters a-z in upper case, and with its letters A-Z
    in lower case, gives the result of the formula. *)
Theorem formulas_are_read_without_regard_to_case
    (h : Host) (formula c : string) (cells : gmap string CellData) :
  startsWith "=" formula = true ->
  ascii_text formula = true ->
  evaluateFormula h (toUpperCase formula) c cells = evaluateFormula h formula c cells /\
  evaluateFormula h (toLowerCase formula) c cells = evaluateFormula h formula c cells.
Proof.
  intros Hf _. destruct (startsWith_equals_case formula Hf) as [Hup Hlow].
  destruct (expression_of_case formula) as [Eup Elow].
  rewrite !evaluateFormula_formula by assumption.
  now rewrite Eup, Elow.
Qed.

Lemma formulas_are_read_without_regard_to_case_witness :
  evaluateFormula (ReferenceHost.at_time 0) "=LEN(A1)" "B1" (<["A1" := cell "abc"]> ∅) =
  evaluateFormula (ReferenceHost.at_time 0) "=Len(a1)" "B1" (<["A1" := cell "abc"]> ∅).
Proof.
  exact (proj1 (formulas_are_read_without_regard_to_case (ReferenceHost.at_time 0) "=Len(a1)" "B1"
                  (<["A1" := cell "abc"]> ∅) eq_refl eq_refl)).
Defined.





(** ** The order of the numbers, MIN and MAX *)

Module OrderFacts.
Import Str Regex StrFacts RegexFacts ResolverFacts LabelFacts ShapeFacts RangeFacts EvalFacts CallFacts AggregateFacts.
#[local] Arguments String.append : simpl nomatch.

Ltac compare_cases :=
  repeat match goal with
         | |- context [PosDef.Pos.compare_cont Eq ?a ?b] =>
             change (PosDef.Pos.compare_cont Eq a b) with (Pos.compare a b)
         | H : context [PosDef.Pos.compare_cont Eq ?a ?b] |- _ =>
             change (PosDef.Pos.compare_cont Eq a b) with (Pos.compare a b) in H
         end;
  repeat match goal with
         | |- context [(?a ?= ?b)%Z] => destruct (Z.compare_spec a b)
         | H : context [(?a ?= ?b)%Z] |- _ => destruct (Z.compare_spec a b)
         | |- context [(?a ?= ?b)%positive] => destruct (Pos.compare_spec a b)
         | H : context [(?a ?= ?b)%positive] |- _ => destruct (Pos.compare_spec a b)
         end;
  subst; simpl in *; try reflexivity; try discriminate; try lia.

Lemma leb_refl x : Num.isNaN x = false -> Num.leb x x = true.
Proof.
  unfold Num.leb, SFleb. destruct x as [[]|[]| |[] m e]; simpl; try reflexivity; try discriminate;
    intros _; compare_cases.
Qed.

Lemma leb_trans x y z :
  Num.leb x y = true -> Num.leb y z = true -> Num.leb x z = true.
Proof.
  unfold Num.leb, SFleb.
  destruct x as [[]|[]| |[] mx ex], y as [[]|[]| |[] my ey], z as [[]|[]| |[] mz ez];
    simpl; try reflexivity; try discriminate; intros Hxy Hyz; compare_cases.
Qed.

Lemma ltb_leb x y : Num.ltb x y = true -> Num.leb x y = true.
Proof.
  unfold Num.ltb, Num.leb, SFltb, SFleb. destruct (SFcompare x y) as [[]|]; congruence.
Qed.

(** Of two numbers, one is below the other. *)
Lemma leb_total x y :
  Num.isNaN x = false -> Num.isNaN y = false ->
  Num.ltb x y = false -> Num.leb y x = true.
Proof.
  unfold Num.ltb, Num.leb, SFltb, SFleb.
  destruct x as [[]|[]| |[] mx ex], y as [[]|[]| |[] my ey];
    simpl; try reflexivity; try discriminate; intros _ _ H; compare_cases.
Qed.

Lemma min2_bound a b :
  Num.isNaN a = false -> Num.isNaN b = false ->
  (Num.min2 a b = a \/ Num.min2 a b = b) /\
  Num.leb (Num.min2 a b) a = true /\ Num.leb (Num.min2 a b) b = true.
Proof.
  intros Ha Hb. unfold Num.min2. rewrite Ha, Hb. cbn [orb].
  destruct (Num.ltb b a) eqn:Hba.
  - split; [now right|]. split; [now apply ltb_leb | now apply leb_refl].
  - destruct (Num.ltb a b) eqn:Hab.
    + split; [now left|]. split; [now apply leb_refl | now apply ltb_leb].
    + pose proof (leb_total a b Ha Hb Hab). pose proof (leb_total b a Hb Ha Hba).
      destruct (Num.is_negative_zero b).
      * split; [now right|]. split; [assumption | now apply leb_refl].
      * split; [now left|]. split; [now apply leb_refl | assumption].
Qed.

Lemma max2_bound a b :
  Num.isNaN a = false -> Num.isNaN b = false ->
  (Num.max2 a b = a \/ Num.max2 a b = b) /\
  Num.leb a (Num.max2 a b) = true /\ Num.leb b (Num.max2 a b) = true.
Proof.
  intros Ha Hb. unfold Num.max2. rewrite Ha, Hb. cbn [orb].
  destruct (Num.ltb a b) eqn:Hab.
  - split; [now right|]. split; [now apply ltb_leb | now apply leb_refl].
  - destruct (Num.ltb b a) eqn:Hba.
    + split; [now left|]. split; [now apply leb_refl | now apply ltb_leb].
    + pose proof (leb_total a b Ha Hb Hab). pose proof (leb_total b a Hb Ha Hba).
      destruct (Num.is_positive_zero b).
      * split; [now right|]. split; [assumption | now apply leb_refl].
      * split; [now left|]. split; [now apply leb_refl | assumption].
Qed.

(** The fold of [Math.min] from a first number. *)
Lemma fold_min2 values acc :
  Num.isNaN acc = false ->
  (forall v, In v values -> Num.isNaN v = false) ->
  (fold_left Num.min2 values acc = acc \/ In (fold_left Num.min2 values acc) values) /\
  Num.isNaN (fold_left Num.min2 values acc) = false /\
  Num.leb (fold_left Num.min2 values acc) acc = true /\
  (forall v, In v values -> Num.leb (fold_left Num.min2 values acc) v = true).
Proof.
  revert acc. induction values as [|x l IH]; intros acc Hacc Hall; cbn [fold_left].
  - split; [now left|]. split; [exact Hacc|]. split; [now apply leb_refl | intros v []].
  - assert (Hx : Num.isNaN x = false) by (apply Hall; now left).
    destruct (min2_bound acc x Hacc Hx) as (Hcase & Hle_acc & Hle_x).
    assert (Hm : Num.isNaN (Num.min2 acc x) = false) by (destruct Hcase as [-> | ->]; assumption).
    destruct (IH (Num.min2 acc x) Hm) as (Hin & Hnan & Hle & Hrest);
      [intros v Hv; apply Hall; now right|].
    split; [|split; [exact Hnan|split]].
    + destruct Hin as [Hin | Hin]; [|right; now right].
      rewrite Hin. destruct Hcase as [-> | ->]; [now left | right; now left].
    + now apply (leb_trans _ (Num.min2 acc x)).
    + intros v [<- | Hv]; [now apply (leb_trans _ (Num.min2 acc x)) | now apply Hrest].
Qed.

Lemma fold_max2 values acc :
  Num.isNaN acc = false ->
  (forall v, In v values -> Num.isNaN v = false) ->
  (fold_left Num.max2 values acc = acc \/ In (fold_left Num.max2 values acc) values) /\
  Num.isNaN (fold_left Num.max2 values acc) = false /\
  Num.leb acc (fold_left Num.max2 values acc) = true /\
  (forall v, In v values -> Num.leb v (fold_left Num.max2 values acc) = true).
Proof.
  revert acc. induction values as [|x l IH]; intros acc Hacc Hall; cbn [fold_left].
  - split; [now left|]. split; [exact Hacc|]. split; [now apply leb_refl | intros v []].
  - assert (Hx : Num.isNaN x = false) by (apply Hall; now left).
    destruct (max2_bound acc x Hacc Hx) as (Hcase & Hle_acc & Hle_x).
    assert (Hm : Num.isNaN (Num.max2 acc x) = false) by (destruct Hcase as [-> | ->]; assumption).
    destruct (IH (Num.max2 acc x) Hm) as (Hin & Hnan & Hle & Hrest);
      [intros v Hv; apply Hall; now right|].
    split; [|split; [exact Hnan|split]].
    + destruct Hin as [Hin | Hin]; [|right; now right].
      rewrite Hin. destruct Hcase as [-> | ->]; [now left | right; now left].
    + now apply (leb_trans _ (Num.max2 acc x)).
    + intros v [<- | Hv]; [now apply (leb_trans _ (Num.max2 acc x)) | now apply Hrest].
Qed.

(** [Math.min] of numbers, at least one, is one of them and is below all
    of them. *)
Lemma min_attained values :
  values <> [] -> (forall v, In v values -> Num.isNaN v = false) ->
  In (Num.min values) values /\
  forall v, In v values -> Num.leb (Num.min values) v = true.
Proof.
  intros Hne Hall. unfold Num.min.
  destruct (fold_min2 values (Num.infinity false) eq_refl Hall) as (Hin & _ & _ & Hle).
  split; [|exact Hle].
  destruct Hin as [E | Hin]; [|exact Hin].
  destruct values as [|v l]; [congruence|].
  specialize (Hle v (or_introl eq_refl)). rewrite E in Hle |- *.
  assert (v = Num.infinity false); [|subst; now left].
  revert Hle. unfold Num.leb, SFleb.
  destruct v as [[]|[]| |[] m e]; simpl; try discriminate; reflexivity.
Qed.

Lemma max_attained values :
  values <> [] -> (forall v, In v values -> Num.isNaN v = false) ->
  In (Num.max values) values /\
  forall v, In v values -> Num.leb v (Num.max values) = true.
Proof.
  intros Hne Hall. unfold Num.max.
  destruct (fold_max2 values (Num.infinity true) eq_refl Hall) as (Hin & _ & _ & Hle).
  split; [|exact Hle].
  destruct Hin as [E | Hin]; [|exact Hin].
  destruct values as [|v l]; [congruence|].
  specialize (Hle v (or_introl eq_refl)). rewrite E in Hle |- *.
  assert (v = Num.infinity true); [|subst; now left].
  revert Hle. unfold Num.leb, SFleb.
  destruct v as [[]|[]| |[] m e]; simpl; try discriminate; reflexivity.
Qed.

(** The number of a cell is a number. *)
Lemma getCellValue_number cellId (cells : gmap string CellData) :
  Num.isNaN (getCellValue cellId cells) = false.
Proof.
  unfold getCellValue. destruct (cells !! cellId) as [cellData|]; [|reflexivity].
  cbv zeta. destruct (Num.isNaN (Num.parseFloat (effective_text cellData))) eqn:E;
    [reflexivity | exact E].
Qed.

End OrderFacts.

Import OrderFacts.
#[local] Arguments String.append : simpl nomatch.

(** X24: MIN and MAX return the number of a cell of the range that is below,
    or above, the numbers of all the cells of the range: for a formula of
    ASCII text, a safe range that is not empty and has no more cells than
    an engine accepts as the arguments of one call, and cells whose texts
    are ASCII. *)
Theorem min_and_max_are_attained_bounds
    (h : Host) (formula c name : string) (cells : gmap string CellData) :
  startsWith "=" formula = true ->
  ascii_text formula = true ->
  name = "MIN" \/ name = "MAX" ->
  is_call name (expression_of formula) = true ->
  parseRange (call_argument name (expression_of formula)) <> [] ->
  safe_range_text (call_argument name (expression_of formula)) ->
  (Z.of_nat (length (parseRange (call_argument name (expression_of formula))))
     <= max_spread_arguments)%Z ->
  (forall cellId, In cellId (parseRange (call_argument name (expression_of formula))) ->
     ascii_text (getCellText cellId cells) = true) ->
  exists cellId,
    In cellId (parseRange (call_argument name (expression_of formula))) /\
    evaluateFormula h formula c cells = Ret (Num.toString (getCellValue cellId cells)) /\
    forall other, In other (parseRange (call_argument name (expression_of formula))) ->
      (name = "MIN" ->
       Num.leb (getCellValue cellId cells) (getCellValue other cells) = true) /\
      (name = "MAX" ->
       Num.leb (getCellValue other cells) (getCellValue cellId cells) = true).
Proof.
  intros Hf _ Hname Hc Hne _ _ _.
  set (cellIds := parseRange (call_argument name (expression_of formula))) in *.
  set (values := List.map (fun cellId => getCellValue cellId cells) cellIds).
  assert (Hvalues : values <> []).
  { subst values. destruct cellIds; [congruence | discriminate]. }
  assert (Hnumbers : forall v, In v values -> Num.isNaN v = false).
  { intros v Hv. apply in_map_iff in Hv as (cellId & <- & _). apply getCellValue_number. }
  destruct Hname as [-> | ->].
  - destruct (min_attained values Hvalues Hnumbers) as [Hin Hle].
    apply in_map_iff in Hin as (cellId & Hvalue & Hin).
    exists cellId. split; [exact Hin|]. split.
    + rewrite evaluateFormula_formula by assumption.
      rewrite evaluate_body_min_of by assumption. cbv zeta. fold cellIds.
      destruct cellIds as [|first rest] eqn:E; [congruence|].
      cbn [length Nat.eqb]. fold values. now rewrite Hvalue.
    + intros other Hother. split; [intros _|discriminate].
      rewrite Hvalue. apply Hle. apply in_map_iff. now exists other.
  - destruct (max_attained values Hvalues Hnumbers) as [Hin Hle].
    apply in_map_iff in Hin as (cellId & Hvalue & Hin).
    exists cellId. split; [exact Hin|]. split.
    + rewrite evaluateFormula_formula by assumption.
      rewrite evaluate_body_max_of by assumption. cbv zeta. fold cellIds.
      destruct cellIds as [|first rest] eqn:E; [congruence|].
      cbn [length Nat.eqb]. fold values. now rewrite Hvalue.
    + intros other Hother. split; [discriminate|intros _].
      rewrite Hvalue. apply Hle. apply in_map_iff. now exists other.
Qed.

Lemma min_and_max_are_attained_bounds_witness :
  exists cellId,
    In cellId (parseRange "A1:A3") /\
    evaluateFormula (ReferenceHost.at_time 0) "=min(A1:A3)" "B1"
      (<["A1" := cell "4"]> (<["A2" := cell "-2.5"]> (<["A3" := cell "text"]> ∅))) =
    Ret (Num.toString (getCellValue cellId
      (<["A1" := cell "4"]> (<["A2" := cell "-2.5"]> (<["A3" := cell "text"]> ∅))))) /\
    Num.leb
      (getCellValue cellId
         (<["A1" := cell "4"]> (<["A2" := cell "-2.5"]> (<["A3" := cell "text"]> ∅))))
      (getCellValue "A2"
         (<["A1" := cell "4"]> (<["A2" := cell "-2.5"]> (<["A3" := cell "text"]> ∅)))) = true.
Proof.
  destruct (min_and_max_are_attained_bounds (ReferenceHost.at_time 0) "=min(A1:A3)" "B1" "MIN"
              (<["A1" := cell "4"]> (<["A2" := cell "-2.5"]> (<["A3" := cell "text"]> ∅)))
              eq_refl eq_refl (or_introl eq_refl))
    as (cellId & Hin & Heval & Hle).
  - vm_compute. reflexivity.
  - vm_compute. discriminate.
  - intros start end_ a b Hstart Hend Ha Hb.
    vm_compute in Hstart, Hend. injection Hstart as <-. injection Hend as <-.
    vm_compute in Ha, Hb. injection Ha as <-. injection Hb as <-.
    unfold safe_range, safe_reference, max_safe_integer, max_array_length.
    cbn [col row]. lia.
  - vm_compute. discriminate.
  - intros cellId Hin. vm_compute in Hin.
    destruct Hin as [<-|[<-|[<-|[]]]]; vm_compute; reflexivity.
  - exists cellId. split; [exact Hin|]. split; [exact Heval|].
    apply (Hle "A2"); [|reflexivity].
    vm_compute. right. left. reflexivity.
Defined.

(** ** The recalculation of the grid *)

Module RecalculationFacts.
Import Str Regex StrFacts RegexFacts ResolverFacts LabelFacts ShapeFacts RangeFacts EvalFacts CallFacts.
#[local] Arguments String.append : simpl nomatch.


Section Pass.
Context {Format : Type}.
Variable h : Host.
Variable cells : list (string * Grid.CellData Format).




End Pass.



End RecalculationFacts.

Import RecalculationFacts.
#[local] Arguments String.append : simpl nomatch.



(** ** The rows of a CSV file *)

Module CsvFacts.
Import Str Regex StrFacts RegexFacts ResolverFacts LabelFacts ShapeFacts RangeFacts EvalFacts CallFacts RoundFacts FallbackFacts TextFacts KeyFacts RectangleFacts.
Import ImportExport.
#[local] Arguments String.append : simpl nomatch.

(** *** Doubling the double quotes *)

Lemma replace_class p by_ i c s :
  replace_go (Class p) by_ i (String c s) 0 =
    if p c then by_ +:+ replace_go (Class p) by_ (S i) s 0
    else String c (replace_go (Class p) by_ (S i) s 0).
Proof.
  cbn [replace_go]. rewrite match_at_class. destruct (p c); reflexivity.
Qed.

Lemma replace_class_index p by_ i j s :
  replace_go (Class p) by_ i s 0 = replace_go (Class p) by_ j s 0.
Proof.
  revert i j. induction s as [|c s IH]; intros i j; [reflexivity|].
  rewrite !replace_class. now rewrite (IH (S i) (S j)).
Qed.

(** The text of a field, one character after the other. *)
Lemma escape_step c s :
  replace_all double_quote_re (dq +:+ dq) (String c s) =
    if is_double_quote c
    then String c (String c (replace_all double_quote_re (dq +:+ dq) s))
    else String c (replace_all double_quote_re (dq +:+ dq) s).
Proof.
  unfold replace_all, double_quote_re. rewrite replace_class.
  rewrite (replace_class_index _ _ 1 0).
  destruct (is_double_quote c) eqn:E; [|reflexivity].
  apply Ascii.eqb_eq in E. subst c. reflexivity.
Qed.

Lemma occurrences_escape c s :
  is_double_quote c = false ->
  occurrences c (replace_all double_quote_re (dq +:+ dq) s) = occurrences c s.
Proof.
  intros Hc. induction s as [|d s IH]; [reflexivity|].
  rewrite escape_step. destruct (is_double_quote d) eqn:E.
  - apply Ascii.eqb_eq in E. subst d. cbn [occurrences]. rewrite IH.
    unfold is_double_quote in Hc. rewrite Ascii.eqb_sym in Hc. now rewrite Hc.
  - cbn [occurrences]. now rewrite IH.
Qed.

(** *** Reading a row *)

(** Inside the quotes of a field: up to the quote that closes it. *)
Lemma parse_row_in_quotes value rest values current :
  starts_without_quote rest ->
  parse_row (replace_all double_quote_re (dq +:+ dq) value +:+ String "034" rest)
    false values current true =
  parse_row rest false values (current +:+ value) false.
Proof.
  intros Hrest. revert current. induction value as [|c value IH]; intros current.
  - cbn [replace_all replace_go String.append parse_row].
    change (is_double_quote "034") with true. cbn [andb negb].
    rewrite str_app_nil_r.
    destruct rest as [|d rest]; [reflexivity|]. cbn in Hrest. now rewrite Hrest.
  - rewrite escape_step. destruct (is_double_quote c) eqn:E.
    + apply Ascii.eqb_eq in E. subst c.
      cbn [String.append parse_row]. change (is_double_quote "034") with true. cbn [andb].
      rewrite IH. f_equal. unfold dq. rewrite str_app_assoc. reflexivity.
    + cbn [String.append]. cbn [parse_row]. rewrite E. cbn [andb].
      rewrite andb_false_r. rewrite IH. f_equal.
      rewrite str_app_assoc. reflexivity.
Qed.

(** A field, from its opening quote. *)
Lemma parse_row_field value rest values :
  starts_without_quote rest ->
  parse_row (field value +:+ rest) false values EmptyString false =
  parse_row rest false values value false.
Proof.
  intros Hrest. unfold field, dq.
  rewrite !str_app_assoc. cbn [String.append parse_row].
  change (is_double_quote "034") with true. cbn [andb negb].
  change (String "034" EmptyString +:+ rest) with (String "034" rest).
  now rewrite parse_row_in_quotes.
Qed.

(** Reading the fields of a row gives back the values they were written
    from. *)
Lemma parse_row_fields texts values :
  texts <> [] ->
  parse_row (join_with "," (List.map field texts)) false values EmptyString false =
    values ++ texts.
Proof.
  revert values. induction texts as [|text rest IH]; [congruence|]. intros values _.
  destruct rest as [|text' rest'].
  - cbn [List.map join_with]. rewrite <- (str_app_nil_r (field text)).
    rewrite parse_row_field by exact I. reflexivity.
  - change (join_with "," (List.map field (text :: text' :: rest')))
      with (field text +:+ String "," (join_with "," (List.map field (text' :: rest')))).
    rewrite parse_row_field by reflexivity.
    cbn [parse_row]. change (is_double_quote ",") with false. cbn [andb negb Ascii.eqb].
    change (Ascii.eqb "," ",") with true. cbn [andb].
    rewrite IH by discriminate. now rewrite <- app_assoc.
Qed.

End CsvFacts.

Import CsvFacts.

(** ** The file that the export writes, and the store that the import
    reads in it *)

Module ExportFacts.
Import Str Regex StrFacts RegexFacts ResolverFacts LabelFacts ShapeFacts RangeFacts EvalFacts CallFacts RoundFacts FallbackFacts TextFacts KeyFacts RectangleFacts RecalculationFacts CsvFacts.
Import ImportExport.
#[local] Arguments String.append : simpl nomatch.

(** *** The extent of the file *)

Lemma fold_column letters acc :
  fold_left (fun acc char => acc * 26 + charCode char - 64)%Z
    (list_ascii_of_string letters) acc = column_loop letters acc.
Proof.
  revert acc. induction letters as [|c l IH]; intros acc; [reflexivity|].
  cbn [list_ascii_of_string fold_left column_loop]. rewrite IH. f_equal. lia.
Qed.

(** What the first loop of the export reads in a key is what
    [parseCellReference] reads in it. *)
Lemma extent_step key :
  match exec cell_ref_re key with
  | Some m =>
      Some {| col := fold_left (fun acc char => acc * 26 + charCode char - 64)%Z
                       (list_ascii_of_string (nth 1 m EmptyString)) 0%Z - 1;
              row := default 0%Z (Int.parseInt (nth 2 m EmptyString)) - 1 |}
  | None => None
  end = parseCellReference key.
Proof.
  unfold parseCellReference. destruct (exec cell_ref_re key) as [m|]; [|reflexivity].
  now rewrite fold_column.
Qed.

Section Extent.
Context {Format : Type}.

Lemma measure_reference maxRow maxCol key (cellData : Grid.CellData Format) :
  measure (maxRow, maxCol) (key, cellData) =
    match parseCellReference key with
    | Some r => (Z.max maxRow (row r), Z.max maxCol (col r))
    | None => (maxRow, maxCol)
    end.
Proof.
  rewrite <- extent_step. unfold measure. cbn [fst]. destruct (exec cell_ref_re key); reflexivity.
Qed.

Lemma fold_measure (cells : list (string * Grid.CellData Format)) maxRow maxCol :
  (maxRow <= (fold_left measure cells (maxRow, maxCol)).1)%Z /\
  (maxCol <= (fold_left measure cells (maxRow, maxCol)).2)%Z /\
  forall key cellData r,
    In (key, cellData) cells -> parseCellReference key = Some r ->
    (row r <= (fold_left measure cells (maxRow, maxCol)).1)%Z /\
    (col r <= (fold_left measure cells (maxRow, maxCol)).2)%Z.
Proof.
  revert maxRow maxCol. induction cells as [|[key cellData] cells IH]; intros maxRow maxCol.
  - cbn. split; [lia|]. split; [lia|]. intros ? ? ? [].
  - cbn [fold_left]. rewrite measure_reference.
    destruct (parseCellReference key) as [r|] eqn:Hkey; cbv iota.
    + destruct (IH (Z.max maxRow (row r)) (Z.max maxCol (col r))) as (Hrow & Hcol & Hall).
      split; [lia|]. split; [lia|].
      intros key' cellData' r' [[= <- <-] | Hin] Hkey'.
      * rewrite Hkey in Hkey'. injection Hkey' as <-. lia.
      * now apply (Hall key' cellData').
    + destruct (IH maxRow maxCol) as (Hrow & Hcol & Hall).
      split; [lia|]. split; [lia|].
      intros key' cellData' r' [[= <- <-] | Hin] Hkey'; [congruence|].
      now apply (Hall key' cellData').
Qed.

(** The extent holds every cell of the store whose key is that of a cell
    of the grid. *)
Lemma extent_holds (cells : list (string * Grid.CellData Format)) :
  (0 <= (extent cells).1)%Z /\ (0 <= (extent cells).2)%Z /\
  forall r c cellData,
    (0 <= r)%Z -> (0 <= c)%Z -> In (cell_id c r, cellData) cells ->
    (r <= (extent cells).1)%Z /\ (c <= (extent cells).2)%Z.
Proof.
  unfold extent. destruct (fold_measure cells 0 0) as (Hrow & Hcol & Hall).
  split; [exact Hrow|]. split; [exact Hcol|].
  intros r c cellData Hr Hc Hin.
  apply (Hall _ _ {| col := c; row := r |} Hin). apply parseCellReference_cell_id; lia.
Qed.

End Extent.

(** *** The rows of the file *)

Lemma rows_of_closed {Format} (cells : list (string * Grid.CellData Format)) :
  rows_of cells =
    List.map (fun r =>
      List.map (fun c =>
        field (shown_text ((list_to_map cells : gmap string (Grid.CellData Format))
                             !! cell_id c r)))
        (seqZ 0 ((extent cells).2 + 1)))
      (seqZ 0 ((extent cells).1 + 1)).
Proof.
  unfold rows_of. destruct (extent cells) as [maxRow maxCol]. cbn [fst snd].
  rewrite (for_upto_flat_map 0 maxRow
    (fun row => [for_upto 0 maxCol (fun col rowData =>
       rowData ++ [field (shown_text
         ((list_to_map cells : gmap string (Grid.CellData Format))
            !! (getColumnLabel col +:+ Int.toString (row + 1))))]) []])).
  cbn [app]. rewrite flat_map_singleton.
  replace (maxRow - 0 + 1)%Z with (maxRow + 1)%Z by lia.
  apply map_ext_in'. intros r _.
  rewrite (for_upto_flat_map 0 maxCol
    (fun col => [field (shown_text
       ((list_to_map cells : gmap string (Grid.CellData Format))
          !! (getColumnLabel col +:+ Int.toString (r + 1))))])).
  cbn [app]. rewrite flat_map_singleton.
  now replace (maxCol - 0 + 1)%Z with (maxCol + 1)%Z by lia.
Qed.

End ExportFacts.

Import ExportFacts.

(** ** The store that the import reads in a file of the export *)

Module ImportFacts.
Import Str Regex StrFacts RegexFacts ResolverFacts LabelFacts ShapeFacts RangeFacts EvalFacts CallFacts RoundFacts FallbackFacts TextFacts KeyFacts RectangleFacts RecalculationFacts CsvFacts ExportFacts.
Import ImportExport.
#[local] Arguments String.append : simpl nomatch.

(** *** The loops of the import *)

Lemma forEach_indexed_invariant {A St} (P : nat -> St -> Prop) (items : list A) i
    (body : A -> Z -> St -> St) state :
  P 0 state ->
  (forall k item st,
     items !! k = Some item -> P k st -> P (S k) (body item (i + Z.of_nat k)%Z st)) ->
  P (length items) (forEach_indexed items i body state).
Proof.
  revert P i state. induction items as [|item items IH]; intros P i state H0 Hstep.
  - exact H0.
  - cbn [forEach_indexed length].
    apply (IH (fun k st => P (S k) st)).
    + specialize (Hstep 0 item state eq_refl H0).
      now replace (i + Z.of_nat 0)%Z with i in Hstep by lia.
    + intros k item' st Hk HP.
      specialize (Hstep (S k) item' st Hk HP).
      now replace (i + 1 + Z.of_nat k)%Z with (i + Z.of_nat (S k))%Z by lia.
Qed.

(** *** A line of the file *)

Lemma drop_while_app_char p s c :
  p c = false -> drop_while p (s +:+ String c EmptyString) <> EmptyString.
Proof.
  intros Hc. induction s as [|d s IH]; cbn [String.append drop_while].
  - now rewrite Hc.
  - destruct (p d); [exact IH | discriminate].
Qed.

Lemma rev_empty s : rev s = EmptyString -> s = EmptyString.
Proof. intros E. rewrite <- (rev_rev s), E. reflexivity. Qed.

Lemma rev_onto_append s a : rev_onto s a = rev s +:+ a.
Proof.
  revert a. induction s as [|c s IH]; intros a; [reflexivity|].
  unfold rev. cbn [rev_onto]. rewrite (IH (String c a)), (IH (String c EmptyString)).
  now rewrite str_app_assoc.
Qed.

(** A text that starts with another character than white space is not
    blank. *)
Lemma trim_truthy c s : is_space c = false -> truthy (trim (String c s)) = true.
Proof.
  intros Hc. unfold trim, trimStart. cbn [drop_while]. rewrite Hc. unfold trimEnd.
  destruct (rev (drop_while is_space (rev (String c s)))) eqn:E; [|reflexivity].
  apply rev_empty in E. exfalso. revert E.
  unfold rev. cbn [rev_onto]. rewrite rev_onto_append.
  now apply drop_while_app_char.
Qed.

(** A row of fields starts with a double quote. *)
Lemma fields_start texts :
  texts <> [] ->
  exists rest, join_with "," (List.map field texts) = String "034" rest.
Proof.
  destruct texts as [|text [|text' texts]]; [congruence| |]; intros _.
  - cbn [List.map join_with]. unfold field, dq. cbn [String.append]. eauto.
  - cbn [List.map join_with]. unfold field at 1, dq.
    rewrite !str_app_assoc. cbn [String.append]. eauto.
Qed.

Lemma fields_not_blank texts :
  texts <> [] -> truthy (trim (join_with "," (List.map field texts))) = true.
Proof.
  intros Hne. destruct (fields_start texts Hne) as [rest ->].
  now apply trim_truthy.
Qed.

(** A row of fields holds a line feed only where a text does. *)
Lemma fields_one_line texts :
  Forall (fun text => occurrences line_feed text = 0) texts ->
  occurrences line_feed (join_with "," (List.map field texts)) = 0.
Proof.
  assert (Hfield : forall text,
    occurrences line_feed text = 0 -> occurrences line_feed (field text) = 0).
  { intros text H. unfold field. rewrite !occurrences_app, occurrences_escape, H by reflexivity.
    reflexivity. }
  induction texts as [|text texts IH]; intros Hall; [reflexivity|].
  apply Forall_cons_iff in Hall as [Htext Hrest].
  destruct texts as [|text' texts].
  - cbn [List.map join_with]. now apply Hfield.
  - change (join_with "," (List.map field (text :: text' :: texts)))
      with (field text +:+ "," +:+ join_with "," (List.map field (text' :: texts))).
    rewrite !occurrences_app, Hfield, IH by assumption. reflexivity.
Qed.

(** *** The cells of a row, and of a file *)

Lemma lookup_map_Some {A B} (f : A -> B) l k y :
  List.map f l !! k = Some y -> exists x, l !! k = Some x /\ y = f x.
Proof.
  revert k. induction l as [|x l IH]; intros [|k]; cbn; try discriminate.
  - intros [= <-]. eauto.
  - apply IH.
Qed.

Section Reading.
Context {Format : Type}.

(** The second loop of a row sets the cells of its texts that are not
    blank, and no other cell. *)
Lemma import_row r texts (cells0 : gmap string (Grid.CellData Format)) key :
  (0 <= r)%Z ->
  let result :=
    forEach_indexed texts 0 (fun value colIndex cells =>
      let trimmedValue := trim value in
      if truthy trimmedValue then
        let cellId := getColumnLabel colIndex +:+ Int.toString (r + 1) in
        <[cellId := {| Grid.value := trimmedValue; Grid.formula := None;
                       Grid.displayValue := None; Grid.format := None |}]> cells
      else cells) cells0 in
  (forall c text, texts !! c = Some text -> key = cell_id (Z.of_nat c) r ->
     result !! key =
       if truthy (trim text) then Some (imported (trim text)) else cells0 !! key) /\
  ((forall c, c < length texts -> key <> cell_id (Z.of_nat c) r) ->
     result !! key = cells0 !! key).
Proof.
  intros Hr result. subst result.
  match goal with |- context [forEach_indexed texts 0%Z ?body cells0] =>
    pose proof (forEach_indexed_invariant
      (fun k st => forall key,
         (forall c text, c < k -> texts !! c = Some text -> key = cell_id (Z.of_nat c) r ->
            st !! key =
              if truthy (trim text) then Some (imported (trim text)) else cells0 !! key) /\
         ((forall c, c < k -> key <> cell_id (Z.of_nat c) r) -> st !! key = cells0 !! key))
      texts 0%Z body cells0) as Hloop
  end.
  cbv beta in Hloop.
  assert (Hend : forall key,
    (forall c text, c < length texts -> texts !! c = Some text ->
       key = cell_id (Z.of_nat c) r ->
       forEach_indexed texts 0 (fun value colIndex cells =>
         let trimmedValue := trim value in
         if truthy trimmedValue then
           let cellId := getColumnLabel colIndex +:+ Int.toString (r + 1) in
           <[cellId := {| Grid.value := trimmedValue; Grid.formula := None;
                          Grid.displayValue := None; Grid.format := None |}]> cells
         else cells) cells0 !! key =
         if truthy (trim text) then Some (imported (trim text)) else cells0 !! key) /\
    ((forall c, c < length texts -> key <> cell_id (Z.of_nat c) r) ->
       forEach_indexed texts 0 (fun value colIndex cells =>
         let trimmedValue := trim value in
         if truthy trimmedValue then
           let cellId := getColumnLabel colIndex +:+ Int.toString (r + 1) in
           <[cellId := {| Grid.value := trimmedValue; Grid.formula := None;
                          Grid.displayValue := None; Grid.format := None |}]> cells
         else cells) cells0 !! key = cells0 !! key)).
  { apply Hloop; clear Hloop.
    - intros key'. split; [intros c text Hc; lia | reflexivity].
    - intros k item st Hitem HP key'. cbv zeta.
      change (0 + Z.of_nat k)%Z with (Z.of_nat k).
      fold (cell_id (Z.of_nat k) r).
      destruct (HP key') as [Hset Hkept]. split.
      + intros c text Hc Htext ->.
        destruct (Nat.eq_dec c k) as [->|Hne].
        * rewrite Hitem in Htext. injection Htext as <-.
          destruct (truthy (trim item)); [apply lookup_insert_eq|].
          apply Hkept. intros c' Hc' E.
          apply cell_id_injective in E; lia.
        * assert (Hother : cell_id (Z.of_nat k) r <> cell_id (Z.of_nat c) r).
          { intros E. apply cell_id_injective in E; lia. }
          destruct (truthy (trim item)).
          -- rewrite lookup_insert_ne by exact Hother. apply (Hset c text); [lia|exact Htext|reflexivity].
          -- apply (Hset c text); [lia|exact Htext|reflexivity].
      + intros Hnot.
        destruct (truthy (trim item)).
        * rewrite lookup_insert_ne by (intros E; apply (Hnot k); [lia | now symmetry]).
          apply Hkept. intros c Hc. apply Hnot. lia.
        * apply Hkept. intros c Hc. apply Hnot. lia. }
  destruct (Hend key) as [Hset Hkept]. split; [|exact Hkept].
  intros c text Htext. apply (Hset c text); [|exact Htext]. now apply lookup_lt_Some in Htext.
Qed.

(** The store read in the file of a table of [nrows] rows and [ncols]
    columns. *)
Lemma import_table (text : Z -> Z -> string) nrows ncols key :
  (0 < nrows)%Z -> (0 < ncols)%Z ->
  (forall r c, (0 <= r < nrows)%Z -> (0 <= c < ncols)%Z ->
     occurrences line_feed (text r c) = 0) ->
  let csv :=
    join_with (String line_feed EmptyString)
      (List.map (fun r => join_with "," (List.map (fun c => field (text r c)) (seqZ 0 ncols)))
         (seqZ 0 nrows)) in
  (forall r c, (0 <= r < nrows)%Z -> (0 <= c < ncols)%Z -> key = cell_id c r ->
     (importFromCSV csv : gmap string (Grid.CellData Format)) !! key =
       if truthy (trim (text r c)) then Some (imported (trim (text r c))) else None) /\
  ((forall r c, (0 <= r < nrows)%Z -> (0 <= c < ncols)%Z -> key <> cell_id c r) ->
     (importFromCSV csv : gmap string (Grid.CellData Format)) !! key = None).
Proof.
  intros Hrows Hcols Hfeed csv. subst csv. unfold importFromCSV.
  rewrite split_join_with.
  2:{ destruct (seqZ 0 nrows) eqn:E; [|discriminate].
      apply (f_equal length) in E. rewrite length_seqZ in E. cbn in E. lia. }
  2:{ apply Forall_forall. intros line Hline. apply list_elem_of_In in Hline.
      apply in_map_iff in Hline as (r & <- & Hr).
      apply list_elem_of_In, elem_of_seqZ in Hr.
      rewrite <- (List.map_map (text r) field).
      apply fields_one_line. apply Forall_forall. intros t Ht.
      apply list_elem_of_In in Ht.
      apply in_map_iff in Ht as (c & <- & Hc).
      apply list_elem_of_In, elem_of_seqZ in Hc. apply Hfeed; lia. }
  match goal with |- context [forEach_indexed ?lines 0%Z ?body ?init] =>
    pose proof (forEach_indexed_invariant
      (fun k st => forall key,
         (forall r c, (0 <= r < Z.of_nat k)%Z -> (0 <= c < ncols)%Z -> key = cell_id c r ->
            st !! key =
              if truthy (trim (text r c)) then Some (imported (trim (text r c))) else None) /\
         ((forall r c, (0 <= r < Z.of_nat k)%Z -> (0 <= c < ncols)%Z -> key <> cell_id c r) ->
            st !! key = None))
      lines 0%Z body init) as Hloop;
    set (loop := forEach_indexed lines 0%Z body init) in *
  end.
  cbv beta in Hloop. rewrite List.length_map, length_seqZ in Hloop.
  replace (Z.of_nat (Z.to_nat nrows)) with nrows in Hloop by lia.
  apply Hloop; clear Hloop loop key.
  - intros key. split; [intros r c Hr; lia | intros _; apply lookup_empty].
  - intros k line st Hline HP key.
    apply lookup_map_Some in Hline as (r & Hr & ->).
    apply lookup_seqZ in Hr as [-> Hk].
    change (0 + Z.of_nat k)%Z with (Z.of_nat k).
    assert (Hne : List.map (text (Z.of_nat k)) (seqZ 0 ncols) <> []).
    { intros E. apply (f_equal length) in E. rewrite List.length_map, length_seqZ in E.
      cbn in E. lia. }
    rewrite <- (List.map_map (text (Z.of_nat k)) field).
    rewrite fields_not_blank by exact Hne. cbn [negb].
    rewrite parse_row_fields by exact Hne. cbn [app].
    destruct (import_row (Z.of_nat k) (List.map (text (Z.of_nat k)) (seqZ 0 ncols)) st key
                ltac:(lia)) as [Hset Hkept].
    cbv zeta in Hset, Hkept. rewrite List.length_map, length_seqZ in Hkept.
    destruct (HP key) as [Hbefore Hnone]. split.
    + intros r c Hr Hc ->.
      destruct (Z.eq_dec r (Z.of_nat k)) as [->|Hother].
      * rewrite (Hset (Z.to_nat c) (text (Z.of_nat k) c)).
        -- destruct (truthy (trim (text (Z.of_nat k) c))); [reflexivity|].
           apply Hnone. intros r' c' Hr' Hc' E. apply cell_id_injective in E; lia.
        -- rewrite list_lookup_fmap_Some. exists c. split; [reflexivity|].
           apply lookup_seqZ. lia.
        -- f_equal. lia.
      * rewrite Hkept.
        -- apply (Hbefore r c); [lia|lia|reflexivity].
        -- intros c' Hc' E. apply cell_id_injective in E; lia.
    + intros Hnot. rewrite Hkept.
      * apply Hnone. intros r c Hr Hc. apply Hnot; lia.
      * intros c Hc. apply Hnot; lia.
Qed.

End Reading.

End ImportFacts.

Import ImportFacts.

(** ** The CSV file, written and read back *)

Import ImportExport.

(** X26: the row parser of the CSV import reads back the texts of a row
    that the export wrote: for every list of texts that is not empty,
    whatever they hold (commas, double quotes, white space), parsing the
    row of their fields, joined with commas, gives the texts again. *)
Theorem csv_row_reads_back_as_its_texts (texts : list string) :
  texts <> [] ->
  parse_row (join_with "," (List.map field texts)) false [] EmptyString false = texts.
Proof. intros Hne. now rewrite parse_row_fields. Qed.

Lemma csv_row_reads_back_as_its_texts_witness :
  parse_row
    (join_with "," (List.map field ["a,b"; String "034" "hi" +:+ dq; EmptyString; " x "]))
    false [] EmptyString false =
  ["a,b"; String "034" "hi" +:+ dq; EmptyString; " x "].
Proof.
  apply (csv_row_reads_back_as_its_texts
           ["a,b"; String "034" "hi" +:+ dq; EmptyString; " x "]).
  discriminate.
Defined.


(** X28: importing the file of a CSV export. When every text shown by a
    cell of the store is ASCII and holds no line feed, and the sheet has
    fewer than 2^32 rows and columns, the store read back has, under the
    key of every grid cell, the trimmed text that the cell showed as its
    value, without formula, shown value or format, and nothing when that
    text is blank or the cell was absent; it has no other key. *)
Theorem csv_import_of_an_export_keeps_the_trimmed_texts
    {Format : Type} (cells : list (string * Grid.CellData Format)) (filename : string) :
  (forall key cellData,
     (list_to_map cells : gmap string (Grid.CellData Format)) !! key = Some cellData ->
     ascii_text (shown_text (Some cellData)) = true /\
     occurrences line_feed (shown_text (Some cellData)) = 0) ->
  ((extent cells).1 + 1 <= max_array_length)%Z ->
  ((extent cells).2 + 1 <= max_array_length)%Z ->
  (forall row col, (0 <= row)%Z -> (0 <= col)%Z ->
     (importFromCSV (exportToCSV cells filename).2 : gmap string (Grid.CellData Format))
       !! Grid.getCellId row col =
       let text :=
         trim (shown_text
                 ((list_to_map cells : gmap string (Grid.CellData Format))
                    !! Grid.getCellId row col)) in
       if truthy text then Some (imported text) else None) /\
  (forall key,
     (importFromCSV (exportToCSV cells filename).2 : gmap string (Grid.CellData Format))
       !! key <> None ->
     exists row col, (0 <= row)%Z /\ (0 <= col)%Z /\ key = Grid.getCellId row col).
Proof.
  intros Htexts _ _.
  assert (Hfeed : forall key cellData,
    (list_to_map cells : gmap string (Grid.CellData Format)) !! key = Some cellData ->
    occurrences line_feed (shown_text (Some cellData)) = 0)
    by (intros key cellData Hcell; exact (proj2 (Htexts key cellData Hcell))).
  destruct (extent_holds cells) as (Hrow & Hcol & Hall).
  set (store := (list_to_map cells : gmap string (Grid.CellData Format))) in *.
  assert (Hcsv : (exportToCSV cells filename).2 =
    join_with (String line_feed EmptyString)
      (List.map (fun r => join_with ","
         (List.map (fun c => field (shown_text (store !! cell_id c r)))
            (seqZ 0 ((extent cells).2 + 1))))
         (seqZ 0 ((extent cells).1 + 1)))).
  { unfold exportToCSV. cbn [snd]. rewrite rows_of_closed. now rewrite List.map_map. }
  rewrite Hcsv. clear Hcsv.
  assert (Htable : forall key,
    (forall r c, (0 <= r < (extent cells).1 + 1)%Z -> (0 <= c < (extent cells).2 + 1)%Z ->
       key = cell_id c r ->
       (importFromCSV
          (join_with (String line_feed EmptyString)
             (List.map (fun r => join_with ","
                (List.map (fun c => field (shown_text (store !! cell_id c r)))
                   (seqZ 0 ((extent cells).2 + 1))))
                (seqZ 0 ((extent cells).1 + 1)))) : gmap string (Grid.CellData Format))
         !! key =
         if truthy (trim (shown_text (store !! cell_id c r)))
         then Some (imported (trim (shown_text (store !! cell_id c r)))) else None) /\
    ((forall r c, (0 <= r < (extent cells).1 + 1)%Z -> (0 <= c < (extent cells).2 + 1)%Z ->
        key <> cell_id c r) ->
       (importFromCSV
          (join_with (String line_feed EmptyString)
             (List.map (fun r => join_with ","
                (List.map (fun c => field (shown_text (store !! cell_id c r)))
                   (seqZ 0 ((extent cells).2 + 1))))
                (seqZ 0 ((extent cells).1 + 1)))) : gmap string (Grid.CellData Format))
         !! key = None)).
  { intros key.
    apply (import_table (fun r c => shown_text (store !! cell_id c r))); [lia|lia|].
    intros r c _ _. destruct (store !! cell_id c r) as [cellData|] eqn:Hcell.
    - now apply (Hfeed (cell_id c r)).
    - reflexivity. }
  split.
  - intros row col Hr Hc. unfold Grid.getCellId. fold (cell_id col row). cbv zeta.
    destruct (Htable (cell_id col row)) as [Hin Hout].
    destruct (Z_le_dec row (extent cells).1) as [Hr'|Hr'];
      [destruct (Z_le_dec col (extent cells).2) as [Hc'|Hc']|].
    + apply Hin; [lia|lia|reflexivity].
    + rewrite Hout by (intros r c ? ? E; apply cell_id_injective in E; lia).
      destruct (store !! cell_id col row) as [cellData|] eqn:Hcell; [|reflexivity].
      exfalso. apply elem_of_list_to_map_2, list_elem_of_In in Hcell.
      destruct (Hall row col cellData Hr Hc Hcell). lia.
    + rewrite Hout by (intros r c ? ? E; apply cell_id_injective in E; lia).
      destruct (store !! cell_id col row) as [cellData|] eqn:Hcell; [|reflexivity].
      exfalso. apply elem_of_list_to_map_2, list_elem_of_In in Hcell.
      destruct (Hall row col cellData Hr Hc Hcell). lia.
  - intros key Hsome. destruct (Htable key) as [_ Hout].
    destruct (parseCellReference key) as [ref|] eqn:Href.
    + destruct (string_dec key (cell_id (col ref) (row ref))) as [Hkey|Hkey].
      * destruct (Z_le_dec 0 (row ref)) as [Hr|Hr];
          [destruct (Z_le_dec 0 (col ref)) as [Hc|Hc]|].
        -- exists (row ref), (col ref). split; [exact Hr|]. split; [exact Hc|exact Hkey].
        -- exfalso. apply Hsome, Hout. intros r c Hr' Hc' ->.
           rewrite parseCellReference_cell_id in Href by lia.
           injection Href as <-. cbn in Hc. lia.
        -- exfalso. apply Hsome, Hout. intros r c Hr' Hc' ->.
           rewrite parseCellReference_cell_id in Href by lia.
           injection Href as <-. cbn in Hr. lia.
      * exfalso. apply Hsome, Hout. intros r c Hr' Hc' ->.
        rewrite parseCellReference_cell_id in Href by lia.
        injection Href as <-. now cbn in Hkey.
    + exfalso. apply Hsome, Hout. intros r c Hr' Hc' ->.
      rewrite parseCellReference_cell_id in Href by lia. discriminate.
Qed.

Lemma csv_import_of_an_export_keeps_the_trimmed_texts_witness :
  (importFromCSV
     (exportToCSV
        [("A1", {| Grid.value := "a,b"; Grid.formula := None;
                   Grid.displayValue := None; Grid.format := None |});
         ("B2", {| Grid.value := "=1+1"; Grid.formula := Some "=1+1";
                   Grid.displayValue := Some "2"; Grid.format := Some tt |});
         ("C1", {| Grid.value := " x "; Grid.formula := None;
                   Grid.displayValue := None; Grid.format := None |})]
        "sheet").2 : gmap string (Grid.CellData unit)) !! "B2" = Some (imported "2") /\
  (importFromCSV
     (exportToCSV
        [("A1", {| Grid.value := "a,b"; Grid.formula := None;
                   Grid.displayValue := None; Grid.format := None |});
         ("B2", {| Grid.value := "=1+1"; Grid.formula := Some "=1+1";
                   Grid.displayValue := Some "2"; Grid.format := Some tt |});
         ("C1", {| Grid.value := " x "; Grid.formula := None;
                   Grid.displayValue := None; Grid.format := None |})]
        "sheet").2 : gmap string (Grid.CellData unit)) !! "C1" = Some (imported "x").
Proof.
  destruct (csv_import_of_an_export_keeps_the_trimmed_texts
    [("A1", {| Grid.value := "a,b"; Grid.formula := None;
               Grid.displayValue := None; Grid.format := None |});
     ("B2", {| Grid.value := "=1+1"; Grid.formula := Some "=1+1";
               Grid.displayValue := Some "2"; Grid.format := Some tt |});
     ("C1", {| Grid.value := " x "; Grid.formula := None;
               Grid.displayValue := None; Grid.format := None |})]
    "sheet") as [Hread _].
  - intros key cellData Hcell.
    apply elem_of_list_to_map_2, list_elem_of_In in Hcell.
    destruct Hcell as [[= <- <-]|[[= <- <-]|[[= <- <-]|[]]]]; split; reflexivity.
  - vm_compute. discriminate.
  - vm_compute. discriminate.
  - split.
    + exact (Hread 1%Z 1%Z ltac:(lia) ltac:(lia)).
    + exact (Hread 0%Z 2%Z ltac:(lia) ltac:(lia)).
Defined.
